(** * HID bridge firmware (queue mode): framing, command queue, executor

    A shallow embedding of [ardunio_code.ino] (the queue-mode sketch) and
    the properties of its command pipeline: the three-state frame parser
    with its CRC-8 check, the bounded command queue, the executor with its
    single timed-action slot, and the servicing of the hardware interrupt.

    The sketch is sequential C++ over global variables with one
    asynchronous source, the button ISR.  Every function of the sketch is
    a function [State -> State]; what the sketch sends to the outside (the
    ACK bytes on [Serial], the text on [Serial1], the calls of the HID
    library) is appended to the trace [out] of the state, in program
    order.  What reaches the sketch from outside (the bytes read from
    [Serial], the passing of time, the button) is an input of the model. *)

From Stdlib Require Import ZArith Lia Bool String.
From stdpp Require Import base list.

Local Open Scope Z_scope.

(** ** Protocol constants *)

Definition SYNC_BYTE : Z := 0xAA.
Definition MAX_PACKET_SIZE : Z := 32.

Definition ACK_SUCCESS : Z := 0xF0.
Definition ACK_CRC_ERROR : Z := 0xF1.
Definition ACK_INVALID_CMD : Z := 0xF2.
Definition ACK_PARAM_ERROR : Z := 0xF3.
Definition ACK_INTERRUPTED : Z := 0xF4.

Definition CMD_MOUSE_MOVE : Z := 0x01.
Definition CMD_MOUSE_PRESS : Z := 0x02.
Definition CMD_MOUSE_RELEASE : Z := 0x03.
Definition CMD_MOUSE_CLICK : Z := 0x04.
Definition CMD_MOUSE_PRESS_TIMED : Z := 0x05.
Definition CMD_KB_PRESS : Z := 0x10.
Definition CMD_KB_RELEASE : Z := 0x11.
Definition CMD_KB_WRITE : Z := 0x12.
Definition CMD_KB_RELEASE_ALL : Z := 0x13.
Definition CMD_KB_PRINT : Z := 0x14.
Definition CMD_KB_PRESS_TIMED : Z := 0x15.
Definition CMD_PAUSE_LOG : Z := 0x20.
Definition CMD_RESUME_LOG : Z := 0x21.
Definition CMD_CLEAR_QUEUE : Z := 0x22.

Definition BUTTON_DEBOUNCE_MS : Z := 50.
Definition QUEUE_SIZE : Z := 16.
Definition STATS_INTERVAL : Z := 30000.

Definition LOG_LEVEL_DEBUG : Z := 3.
Definition CURRENT_LOG_LEVEL : Z := LOG_LEVEL_DEBUG.

(** The button masks of the Arduino [Mouse.h], which the sketch includes
    (the spec lists them: LEFT=0x01, RIGHT=0x02, MIDDLE=0x04). *)
Definition MOUSE_LEFT : Z := 1.
Definition MOUSE_RIGHT : Z := 2.
Definition MOUSE_MIDDLE : Z := 4.

(** ** Machine integers

    Values of [uint8_t], [uint16_t] and [uint32_t] are integers of [Z]; a
    store into such a variable wraps. *)

Definition u8 (z : Z) : Z := z mod 256.
Definition u16 (z : Z) : Z := z mod 65536.
Definition u32 (z : Z) : Z := z mod 4294967296.

(** The cast [(int8_t)b] of a byte. *)
Definition i8 (b : Z) : Z := if 128 <=? b then b - 256 else b.

(** ** CRC-8 *)

Definition CRC8_TABLE : list Z :=
  [ 0x00; 0x5E; 0xBC; 0xE2; 0x61; 0x3F; 0xDD; 0x83;
    0xC2; 0x9C; 0x7E; 0x20; 0xA3; 0xFD; 0x1F; 0x41;
    0x9D; 0xC3; 0x21; 0x7F; 0xFC; 0xA2; 0x40; 0x1E;
    0x5F; 0x01; 0xE3; 0xBD; 0x3E; 0x60; 0x82; 0xDC;
    0x23; 0x7D; 0x9F; 0xC1; 0x42; 0x1C; 0xFE; 0xA0;
    0xE1; 0xBF; 0x5D; 0x03; 0x80; 0xDE; 0x3C; 0x62;
    0xBE; 0xE0; 0x02; 0x5C; 0xDF; 0x81; 0x63; 0x3D;
    0x7C; 0x22; 0xC0; 0x9E; 0x1D; 0x43; 0xA1; 0xFF;
    0x46; 0x18; 0xFA; 0xA4; 0x27; 0x79; 0x9B; 0xC5;
    0x84; 0xDA; 0x38; 0x66; 0xE5; 0xBB; 0x59; 0x07;
    0xDB; 0x85; 0x67; 0x39; 0xBA; 0xE4; 0x06; 0x58;
    0x19; 0x47; 0xA5; 0xFB; 0x78; 0x26; 0xC4; 0x9A;
    0x65; 0x3B; 0xD9; 0x87; 0x04; 0x5A; 0xB8; 0xE6;
    0xA7; 0xF9; 0x1B; 0x45; 0xC6; 0x98; 0x7A; 0x24;
    0xF8; 0xA6; 0x44; 0x1A; 0x99; 0xC7; 0x25; 0x7B;
    0x3A; 0x64; 0x86; 0xD8; 0x5B; 0x05; 0xE7; 0xB9;
    0x8C; 0xD2; 0x30; 0x6E; 0xED; 0xB3; 0x51; 0x0F;
    0x4E; 0x10; 0xF2; 0xAC; 0x2F; 0x71; 0x93; 0xCD;
    0x11; 0x4F; 0xAD; 0xF3; 0x70; 0x2E; 0xCC; 0x92;
    0xD3; 0x8D; 0x6F; 0x31; 0xB2; 0xEC; 0x0E; 0x50;
    0xAF; 0xF1; 0x13; 0x4D; 0xCE; 0x90; 0x72; 0x2C;
    0x6D; 0x33; 0xD1; 0x8F; 0x0C; 0x52; 0xB0; 0xEE;
    0x32; 0x6C; 0x8E; 0xD0; 0x53; 0x0D; 0xEF; 0xB1;
    0xF0; 0xAE; 0x4C; 0x12; 0x91; 0xCF; 0x2D; 0x73;
    0xCA; 0x94; 0x76; 0x28; 0xAB; 0xF5; 0x17; 0x49;
    0x08; 0x56; 0xB4; 0xEA; 0x69; 0x37; 0xD5; 0x8B;
    0x57; 0x09; 0xEB; 0xB5; 0x36; 0x68; 0x8A; 0xD4;
    0x95; 0xCB; 0x29; 0x77; 0xF4; 0xAA; 0x48; 0x16;
    0xE9; 0xB7; 0x55; 0x0B; 0x88; 0xD6; 0x34; 0x6A;
    0x2B; 0x75; 0x97; 0xC9; 0x4A; 0x14; 0xF6; 0xA8;
    0x74; 0x2A; 0xC8; 0x96; 0x15; 0x4B; 0xA9; 0xF7;
    0xB6; 0xE8; 0x0A; 0x54; 0xD7; 0x89; 0x6B; 0x35 ].

(** [pgm_read_byte(&CRC8_TABLE[i])]. *)
Definition pgm_read_byte (i : Z) : Z := default 0 (CRC8_TABLE !! Z.to_nat i).

(** [arr[i]] on a byte array; the sketch reads only below the length. *)
Definition byte_at (arr : list Z) (i : Z) : Z := default 0 (arr !! Z.to_nat i).

(** The loop of [crc8], from index [i], with [n] rounds left. *)
Fixpoint crc8_loop (n : nat) (data : list Z) (i : Z) (crc : Z) : Z :=
  match n with
  | O => crc
  | S n' => crc8_loop n' data (i + 1) (pgm_read_byte (Z.lxor crc (byte_at data i)))
  end.

Definition crc8 (data : list Z) (len : Z) : Z :=
  crc8_loop (Z.to_nat len) data 0 0x00.

(** ** What the sketch emits *)

(** The calls of the HID library. *)
Inductive HidCall : Type :=
| MouseMove (x y wheel : Z)
| MousePress (b : Z)
| MouseRelease (b : Z)
| MouseClick (b : Z)
| KbPress (k : Z)
| KbRelease (k : Z)
| KbWrite (k : Z)
| KbReleaseAll.

(** An argument of a [snprintf] format. *)
Inductive Arg : Type :=
| AInt (z : Z)
| AStr (s : string).

(** One write on the log channel [Serial1].  The quote character of a
    literal is the byte 34, written [TChr 34]. *)
Inductive Tok : Type :=
| TStr (s : string)                      (* print of a string *)
| TDec (z : Z)                           (* print of a number *)
| THex (z : Z)                           (* print(n, HEX) *)
| TChr (b : Z)                           (* write of one byte *)
| TFmt (fmt : string) (args : list Arg)  (* print of a buffer filled by snprintf *)
| TRate (successes packets : Z)          (* print((successes * 100.0) / packets, 2) *)
| TNl.                                   (* a line break: the end of println, or \n in a literal *)

Inductive Event : Type :=
| Ack (code : Z)       (* Serial.write(code), the primary channel *)
| Hid (c : HidCall)
| Log (t : Tok).

(** ** The globals of the sketch *)

Record CommandPacket : Type := mkPacket {
  cmd : Z;
  params : list Z;   (* the [param_len] bytes that were copied in *)
  param_len : Z;
  timestamp : Z
}.

Record CommandQueue : Type := mkQueue {
  queue : list CommandPacket;   (* QUEUE_SIZE slots *)
  head : Z;
  tail : Z;
  count : Z
}.

Record Logger : Type := mkLogger {
  packet_counter : Z;
  error_counter : Z;
  success_counter : Z
}.

Record TimedAction : Type := mkTimed {
  active : bool;
  action_type : Z;      (* 0: mouse, 1: keyboard *)
  button_or_key : Z;
  start_time : Z;
  duration_ms : Z
}.

Record State : Type := mkState {
  g_interrupt_flag : bool;
  g_log_enabled : bool;
  last_button_press : Z;
  cmdQueue : CommandQueue;
  logger : Logger;
  rx_buffer : list Z;           (* MAX_PACKET_SIZE bytes *)
  rx_state : Z;
  rx_len : Z;
  rx_idx : Z;
  timedAction : TimedAction;
  last_stats_time : Z;
  millis : Z;                   (* the reading of millis() *)
  out : list Event              (* everything emitted so far, oldest first *)
}.

Definition with_flag (v : bool) (s : State) : State :=
  mkState v (g_log_enabled s) (last_button_press s) (cmdQueue s) (logger s)
    (rx_buffer s) (rx_state s) (rx_len s) (rx_idx s) (timedAction s)
    (last_stats_time s) (millis s) (out s).

Definition with_log_enabled (v : bool) (s : State) : State :=
  mkState (g_interrupt_flag s) v (last_button_press s) (cmdQueue s) (logger s)
    (rx_buffer s) (rx_state s) (rx_len s) (rx_idx s) (timedAction s)
    (last_stats_time s) (millis s) (out s).

Definition with_last_button_press (v : Z) (s : State) : State :=
  mkState (g_interrupt_flag s) (g_log_enabled s) v (cmdQueue s) (logger s)
    (rx_buffer s) (rx_state s) (rx_len s) (rx_idx s) (timedAction s)
    (last_stats_time s) (millis s) (out s).

Definition with_queue (v : CommandQueue) (s : State) : State :=
  mkState (g_interrupt_flag s) (g_log_enabled s) (last_button_press s) v (logger s)
    (rx_buffer s) (rx_state s) (rx_len s) (rx_idx s) (timedAction s)
    (last_stats_time s) (millis s) (out s).

Definition with_logger (v : Logger) (s : State) : State :=
  mkState (g_interrupt_flag s) (g_log_enabled s) (last_button_press s) (cmdQueue s) v
    (rx_buffer s) (rx_state s) (rx_len s) (rx_idx s) (timedAction s)
    (last_stats_time s) (millis s) (out s).

Definition with_rx_buffer (v : list Z) (s : State) : State :=
  mkState (g_interrupt_flag s) (g_log_enabled s) (last_button_press s) (cmdQueue s)
    (logger s) v (rx_state s) (rx_len s) (rx_idx s) (timedAction s)
    (last_stats_time s) (millis s) (out s).

Definition with_rx_state (v : Z) (s : State) : State :=
  mkState (g_interrupt_flag s) (g_log_enabled s) (last_button_press s) (cmdQueue s)
    (logger s) (rx_buffer s) v (rx_len s) (rx_idx s) (timedAction s)
    (last_stats_time s) (millis s) (out s).

Definition with_rx_len (v : Z) (s : State) : State :=
  mkState (g_interrupt_flag s) (g_log_enabled s) (last_button_press s) (cmdQueue s)
    (logger s) (rx_buffer s) (rx_state s) v (rx_idx s) (timedAction s)
    (last_stats_time s) (millis s) (out s).

Definition with_rx_idx (v : Z) (s : State) : State :=
  mkState (g_interrupt_flag s) (g_log_enabled s) (last_button_press s) (cmdQueue s)
    (logger s) (rx_buffer s) (rx_state s) (rx_len s) v (timedAction s)
    (last_stats_time s) (millis s) (out s).

Definition with_timed (v : TimedAction) (s : State) : State :=
  mkState (g_interrupt_flag s) (g_log_enabled s) (last_button_press s) (cmdQueue s)
    (logger s) (rx_buffer s) (rx_state s) (rx_len s) (rx_idx s) v
    (last_stats_time s) (millis s) (out s).

Definition with_last_stats_time (v : Z) (s : State) : State :=
  mkState (g_interrupt_flag s) (g_log_enabled s) (last_button_press s) (cmdQueue s)
    (logger s) (rx_buffer s) (rx_state s) (rx_len s) (rx_idx s) (timedAction s)
    v (millis s) (out s).

Definition with_millis (v : Z) (s : State) : State :=
  mkState (g_interrupt_flag s) (g_log_enabled s) (last_button_press s) (cmdQueue s)
    (logger s) (rx_buffer s) (rx_state s) (rx_len s) (rx_idx s) (timedAction s)
    (last_stats_time s) v (out s).

Definition with_out (v : list Event) (s : State) : State :=
  mkState (g_interrupt_flag s) (g_log_enabled s) (last_button_press s) (cmdQueue s)
    (logger s) (rx_buffer s) (rx_state s) (rx_len s) (rx_idx s) (timedAction s)
    (last_stats_time s) (millis s) v.

Definition emit (e : Event) (s : State) : State := with_out (out s ++ [e]) s.

(** A run of writes on [Serial1]. *)
Definition print (ts : list Tok) (s : State) : State :=
  with_out (out s ++ map Log ts) s.

Definition hid (c : HidCall) (s : State) : State := emit (Hid c) s.

(** ** CommandQueue *)

Definition packet0 : CommandPacket := mkPacket 0 [] 0 0.

Definition push (packet : CommandPacket) (q : CommandQueue) : bool * CommandQueue :=
  if QUEUE_SIZE <=? count q then (false, q)
  else (true, mkQueue (<[Z.to_nat (tail q) := packet]> (queue q))
                      (head q)
                      (u8 ((tail q + 1) mod QUEUE_SIZE))
                      (u8 (count q + 1))).

Definition pop (q : CommandQueue) : option (CommandPacket * CommandQueue) :=
  if count q =? 0 then None
  else Some (default packet0 (queue q !! Z.to_nat (head q)),
             mkQueue (queue q)
                     (u8 ((head q + 1) mod QUEUE_SIZE))
                     (tail q)
                     (u8 (count q - 1))).

Definition clear (q : CommandQueue) : CommandQueue := mkQueue (queue q) 0 0 0.

Definition size (q : CommandQueue) : Z := count q.
Definition isEmpty (q : CommandQueue) : bool := count q =? 0.
Definition isFull (q : CommandQueue) : bool := QUEUE_SIZE <=? count q.

(** ** Logger

    Every method writes to [Serial1]; most return at once when
    [g_log_enabled] is false. *)

Definition printTimestamp (s : State) : State :=
  if negb (g_log_enabled s) then s
  else print [TStr "["; TDec (millis s); TStr "ms] "] s.

Definition printLevel (level : string) (s : State) : State :=
  if negb (g_log_enabled s) then s
  else print [TStr "["; TStr level; TStr "] "] s.

Definition reset_counter (s : State) : State :=
  with_logger (mkLogger 0 0 0) s.

Definition logQueueStatus (s : State) : State :=
  if negb (g_log_enabled s) || (CURRENT_LOG_LEVEL <? LOG_LEVEL_DEBUG) then s else
  let s := printTimestamp s in
  let s := printLevel "QUEUE" s in
  print [TStr "Size: "; TDec (size (cmdQueue s)); TStr "/"; TDec QUEUE_SIZE; TNl] s.

Definition logPacketReceived (len : Z) (s : State) : State :=
  if negb (g_log_enabled s) || (CURRENT_LOG_LEVEL <? LOG_LEVEL_DEBUG) then s else
  let s := with_logger (mkLogger (u32 (packet_counter (logger s) + 1))
                                 (error_counter (logger s))
                                 (success_counter (logger s))) s in
  let s := printTimestamp s in
  let s := printLevel "RECV" s in
  print [TStr "Packet #"; TDec (packet_counter (logger s));
         TStr " | Length: "; TDec len; TNl] s.

Definition hex_byte (b : Z) : list Tok :=
  (if b <? 0x10 then [TStr "0"] else []) ++ [THex b].

Definition logPacketData (data : list Z) (len : Z) (s : State) : State :=
  if negb (g_log_enabled s) || (CURRENT_LOG_LEVEL <? LOG_LEVEL_DEBUG) then s else
  print ([TStr "    Data: "]
         ++ flat_map (fun b => hex_byte b ++ [TStr " "]) (take (Z.to_nat len) data)
         ++ [TNl]) s.

(** [details] is the optional second argument ([nullptr] by default). *)
Definition logCommand (cmd_name : string) (details : option Tok) (s : State) : State :=
  if negb (g_log_enabled s) then s else
  let s := printTimestamp s in
  let s := printLevel "EXEC" s in
  print ([TStr cmd_name]
         ++ match details with Some d => [TStr " | "; d] | None => [] end
         ++ [TNl]) s.

(** No test of [g_log_enabled] in the method itself; the two helpers it
    calls have their own. *)
Definition logInterrupt (s : State) : State :=
  let s := printTimestamp s in
  let s := printLevel "INT" s in
  print [TStr "❌ USER INTERRUPT - Clearing queue"; TNl] s.

Definition logLogStateChange (enabled : bool) (s : State) : State :=
  print [TNl; TStr "[LOG] ";
         TStr (if enabled then "✓ Logging ENABLED" else "✗ Logging PAUSED"); TNl] s.

Definition getKeyName (key : Z) : string :=
  if key =? 0x80 then "LEFT_CTRL"
  else if key =? 0x81 then "LEFT_SHIFT"
  else if key =? 0x82 then "LEFT_ALT"
  else if key =? 0x83 then "LEFT_GUI"
  else if key =? 0xDA then "UP_ARROW"
  else if key =? 0xD9 then "DOWN_ARROW"
  else if key =? 0xD8 then "LEFT_ARROW"
  else if key =? 0xD7 then "RIGHT_ARROW"
  else if key =? 0xB2 then "BACKSPACE"
  else if key =? 0xB3 then "TAB"
  else if key =? 0xB0 then "RETURN"
  else if key =? 0xB1 then "ESC"
  else if key =? 0xD4 then "DELETE"
  else if (32 <=? key) && (key <=? 126) then "ASCII"
  else "SPECIAL".

Definition getButtonName (button : Z) : string :=
  if button =? 0x01 then "LEFT"
  else if button =? 0x02 then "RIGHT"
  else if button =? 0x04 then "MIDDLE"
  else if button =? 0x07 then "ALL"
  else "UNKNOWN".

Definition logMouseMove (x y wheel : Z) (s : State) : State :=
  if negb (g_log_enabled s) then s else
  logCommand "MOUSE_MOVE"
    (Some (TFmt "x=%d, y=%d, wheel=%d" [AInt x; AInt y; AInt wheel])) s.

Definition logMouseButton (action : string) (button : Z) (s : State) : State :=
  if negb (g_log_enabled s) then s else
  let btn_name := getButtonName button in
  logCommand "MOUSE" (Some (TFmt "%s (%s)" [AStr action; AStr btn_name])) s.

Definition logKeyboard (action : string) (key : Z) (s : State) : State :=
  if negb (g_log_enabled s) then s else
  let key_name := getKeyName key in
  logCommand "KEYBOARD"
    (Some (TFmt "%s %s (0x%02X)" [AStr action; AStr key_name; AInt key])) s.

Definition logKeyboardPrint (text : list Z) (len : Z) (s : State) : State :=
  if negb (g_log_enabled s) then s else
  print ([TStr "    Text: "; TChr 34]
         ++ flat_map (fun b => if (32 <=? b) && (b <=? 126) then [TChr b]
                               else TStr "\x" :: hex_byte b)
                     (take (Z.to_nat (Z.min len 40)) text)
         ++ (if 40 <? len then [TStr "..."] else [])
         ++ [TChr 34; TNl]) s.

Definition logError (error_type : string) (details : option Tok) (s : State) : State :=
  if negb (g_log_enabled s) then s else
  let s := with_logger (mkLogger (packet_counter (logger s))
                                 (u32 (error_counter (logger s) + 1))
                                 (success_counter (logger s))) s in
  let s := printTimestamp s in
  let s := printLevel "ERROR" s in
  print ([TStr error_type]
         ++ match details with Some d => [TStr " | "; d] | None => [] end
         ++ [TStr " | Total Errors: "; TDec (error_counter (logger s)); TNl]) s.

Definition logCRCError (expected received : Z) (s : State) : State :=
  if negb (g_log_enabled s) then s else
  logError "CRC_MISMATCH"
    (Some (TFmt "Expected: 0x%02X, Got: 0x%02X" [AInt expected; AInt received])) s.

Definition logInvalidCommand (c : Z) (s : State) : State :=
  if negb (g_log_enabled s) then s else
  logError "INVALID_CMD" (Some (TFmt "Unknown CMD: 0x%02X" [AInt c])) s.

Definition logParamError (c expected received : Z) (s : State) : State :=
  if negb (g_log_enabled s) then s else
  logError "PARAM_ERROR"
    (Some (TFmt "CMD 0x%02X needs %d bytes, got %d"
                [AInt c; AInt expected; AInt received])) s.

Definition ack_name (ack_code : Z) : string :=
  if ack_code =? ACK_SUCCESS then "SUCCESS"
  else if ack_code =? ACK_CRC_ERROR then "CRC_ERROR"
  else if ack_code =? ACK_INVALID_CMD then "INVALID_CMD"
  else if ack_code =? ACK_PARAM_ERROR then "PARAM_ERROR"
  else if ack_code =? ACK_INTERRUPTED then "INTERRUPTED"
  else "UNKNOWN".

Definition logACK (ack_code : Z) (s : State) : State :=
  if negb (g_log_enabled s) || (CURRENT_LOG_LEVEL <? LOG_LEVEL_DEBUG) then s else
  let s := if ack_code =? ACK_SUCCESS
           then with_logger (mkLogger (packet_counter (logger s))
                                      (error_counter (logger s))
                                      (u32 (success_counter (logger s) + 1))) s
           else s in
  let s := printTimestamp s in
  let s := printLevel "ACK" s in
  print [TStr (ack_name ack_code); TStr " (0x"; THex ack_code; TStr ")"; TNl] s.

Definition logStats (s : State) : State :=
  if negb (g_log_enabled s) then s else
  let s := print [TNl; TStr "--- Statistics ---"; TNl;
                  TStr "Total Packets: "; TDec (packet_counter (logger s)); TNl;
                  TStr "Successful: "; TDec (success_counter (logger s)); TNl;
                  TStr "Errors: "; TDec (error_counter (logger s)); TNl;
                  TStr "Queue Size: "; TDec (size (cmdQueue s)); TNl;
                  TStr "Success Rate: "] s in
  let s := if 0 <? packet_counter (logger s)
           then print [TRate (success_counter (logger s)) (packet_counter (logger s));
                       TStr "%"; TNl] s
           else print [TStr "N/A"; TNl] s in
  let ms := millis s in
  let seconds := ms / 1000 in
  let minutes := seconds / 60 in
  let hours := minutes / 60 in
  let seconds := seconds mod 60 in
  let minutes := minutes mod 60 in
  let hours := hours mod 24 in
  let s := print [TFmt "%luh %lumin %lus" [AInt hours; AInt minutes; AInt seconds]; TNl;
                  TStr "------------------"; TNl; TNl] s in
  reset_counter s.

(** ** What reaches the sketch asynchronously

    Time passes and the button fires between any two statements.  [Tick]
    moves the reading of [millis()]; [Button] is a falling edge on the
    interrupt pin, on which [buttonISR] runs. *)

Inductive Async : Type :=
| Button
| Tick (dt : Z).

Definition buttonISR (s : State) : State :=
  let current_time := millis s in
  if BUTTON_DEBOUNCE_MS <? u32 (current_time - last_button_press s)
  then with_last_button_press current_time (with_flag true s)
  else s.

Definition async (a : Async) (s : State) : State :=
  match a with
  | Button => buttonISR s
  | Tick dt => with_millis (u32 (millis s + dt)) s
  end.

Definition asyncs (l : list Async) (s : State) : State :=
  fold_left (fun s a => async a s) l s.

(** ** Acknowledgement *)

Definition sendAck (ack_code : Z) (s : State) : State :=
  logACK ack_code (emit (Ack ack_code) s).

(** ** Executor *)

(** The loop of [CMD_KB_PRINT], at index [i] with [n] rounds left.  [mid]
    lists, round by round, what happens asynchronously before the test of
    the interrupt flag of that round. *)
Fixpoint kb_print_loop (n : nat) (mid : list (list Async)) (p : list Z) (i : Z)
    (s : State) : State :=
  match n with
  | O => s
  | S n' =>
      let s := asyncs (hd [] mid) s in
      if g_interrupt_flag s then s
      else kb_print_loop n' (tl mid) p (i + 1) (hid (KbWrite (byte_at p i)) s)
  end.

(** The [switch] of [executeCommand]. *)
Definition dispatch (mid : list (list Async)) (packet : CommandPacket) (s : State) : State :=
  let c := cmd packet in
  let p := params packet in
  let n := param_len packet in
  if c =? CMD_MOUSE_MOVE then
    if negb (n =? 3) then logParamError c 3 n s
    else
      let x := i8 (byte_at p 0) in
      let y := i8 (byte_at p 1) in
      let wheel := i8 (byte_at p 2) in
      let s := logMouseMove x y wheel s in
      hid (MouseMove x y wheel) s
  else if c =? CMD_MOUSE_PRESS then
    if negb (n =? 1) then s
    else hid (MousePress (byte_at p 0)) (logMouseButton "Press" (byte_at p 0) s)
  else if c =? CMD_MOUSE_RELEASE then
    if negb (n =? 1) then s
    else hid (MouseRelease (byte_at p 0)) (logMouseButton "Release" (byte_at p 0) s)
  else if c =? CMD_MOUSE_CLICK then
    if negb (n =? 1) then s
    else hid (MouseClick (byte_at p 0)) (logMouseButton "Click" (byte_at p 0) s)
  else if c =? CMD_MOUSE_PRESS_TIMED then
    if negb (n =? 3) then s
    else
      let button := byte_at p 0 in
      let duration := u16 (Z.lor (Z.shiftl (byte_at p 1) 8) (byte_at p 2)) in
      let s := with_timed (mkTimed true 0 button (millis s) duration) s in
      let s := hid (MousePress button) s in
      logCommand "MOUSE_TIMED_START" None s
  else if c =? CMD_KB_PRESS then
    if negb (n =? 1) then s
    else hid (KbPress (byte_at p 0)) (logKeyboard "Press" (byte_at p 0) s)
  else if c =? CMD_KB_RELEASE then
    if negb (n =? 1) then s
    else hid (KbRelease (byte_at p 0)) (logKeyboard "Release" (byte_at p 0) s)
  else if c =? CMD_KB_WRITE then
    if negb (n =? 1) then s
    else hid (KbWrite (byte_at p 0)) (logKeyboard "Write" (byte_at p 0) s)
  else if c =? CMD_KB_RELEASE_ALL then
    hid KbReleaseAll (logCommand "KB_RELEASE_ALL" None s)
  else if c =? CMD_KB_PRINT then
    let s := logCommand "KB_PRINT" None s in
    let s := logKeyboardPrint p n s in
    kb_print_loop (Z.to_nat n) mid p 0 s
  else if c =? CMD_KB_PRESS_TIMED then
    if negb (n =? 3) then s
    else
      let key := byte_at p 0 in
      let duration := u16 (Z.lor (Z.shiftl (byte_at p 1) 8) (byte_at p 2)) in
      let s := with_timed (mkTimed true 1 key (millis s) duration) s in
      let s := hid (KbPress key) s in
      logCommand "KB_TIMED_START" None s
  else if c =? CMD_PAUSE_LOG then
    logLogStateChange false (with_log_enabled false s)
  else if c =? CMD_RESUME_LOG then
    logLogStateChange true (with_log_enabled true s)
  else if c =? CMD_CLEAR_QUEUE then
    logCommand "QUEUE_CLEARED" None (with_queue (clear (cmdQueue s)) s)
  else
    logInvalidCommand c s.

Definition executeCommand (mid : list (list Async)) (packet : CommandPacket)
    (s : State) : State :=
  if g_interrupt_flag s then logCommand "CMD_SKIPPED" (Some (TStr "Interrupted")) s
  else dispatch mid packet s.

(** ** Dispatcher *)

Definition processPacket (data : list Z) (len : Z) (s : State) : State :=
  if len <? 1 then
    sendAck ACK_PARAM_ERROR (logError "EMPTY_PACKET" None s)
  else
    let s := logPacketData data len s in
    let n := u8 (len - 1) in
    let packet := mkPacket (byte_at data 0) (take (Z.to_nat n) (drop 1 data)) n (millis s) in
    if (cmd packet =? CMD_PAUSE_LOG) || (cmd packet =? CMD_RESUME_LOG)
       || (cmd packet =? CMD_CLEAR_QUEUE)
    then sendAck ACK_SUCCESS (executeCommand [] packet s)
    else
      match push packet (cmdQueue s) with
      | (true, q) => sendAck ACK_SUCCESS (logQueueStatus (with_queue q s))
      | (false, _) => sendAck ACK_PARAM_ERROR (logError "QUEUE_FULL" None s)
      end.

(** ** The main loop, section by section *)

(** 1. The hardware interrupt. *)
Definition service_interrupt (s : State) : State :=
  if g_interrupt_flag s then
    let s := logInterrupt s in
    let s := with_queue (clear (cmdQueue s)) s in
    let s := hid KbReleaseAll s in
    let s := hid (MouseRelease (Z.lor (Z.lor MOUSE_LEFT MOUSE_RIGHT) MOUSE_MIDDLE)) s in
    let s :=
      if active (timedAction s) then
        let t := timedAction s in
        let s := if action_type t =? 0 then hid (MouseRelease (button_or_key t)) s
                 else hid (KbRelease (button_or_key t)) s in
        with_timed (mkTimed false (action_type t) (button_or_key t)
                            (start_time t) (duration_ms t)) s
      else s in
    let s := sendAck ACK_INTERRUPTED s in
    with_flag false s
  else s.

(** 2. The timed action. *)
Definition poll_timed (s : State) : State :=
  let t := timedAction s in
  if active t then
    if duration_ms t <=? u32 (millis s - start_time t) then
      let s := if action_type t =? 0
               then logCommand "MOUSE_TIMED_END" None (hid (MouseRelease (button_or_key t)) s)
               else logCommand "KB_TIMED_END" None (hid (KbRelease (button_or_key t)) s) in
      with_timed (mkTimed false (action_type t) (button_or_key t)
                          (start_time t) (duration_ms t)) s
    else s
  else s.

(** 3. One round of the receive loop, on the byte read from [Serial].
    A store past the end of [rx_buffer] leaves the model's buffer as it
    is; in C it is undefined. *)
Definition rx_byte (byte_in : Z) (s : State) : State :=
  if rx_state s =? 0 then
    if byte_in =? SYNC_BYTE then with_rx_idx 0 (with_rx_state 1 s) else s
  else if rx_state s =? 1 then
    let s := with_rx_len byte_in s in
    if (rx_len s =? 0) || (MAX_PACKET_SIZE - 1 <? rx_len s) then
      with_rx_state 0 (sendAck ACK_PARAM_ERROR (logError "INVALID_LENGTH" None s))
    else
      with_rx_idx 0 (with_rx_state 2 (logPacketReceived (rx_len s) s))
  else if rx_state s =? 2 then
    let s := with_rx_idx (u8 (rx_idx s + 1))
               (with_rx_buffer (<[Z.to_nat (rx_idx s) := byte_in]> (rx_buffer s)) s) in
    if rx_idx s =? rx_len s + 1 then
      let received_crc := byte_at (rx_buffer s) (rx_len s) in
      let calculated_crc := crc8 (rx_buffer s) (rx_len s) in
      let s := if received_crc =? calculated_crc
               then processPacket (rx_buffer s) (rx_len s) s
               else sendAck ACK_CRC_ERROR (logCRCError calculated_crc received_crc s) in
      with_rx_idx 0 (with_rx_state 0 s)
    else s
  else s.

(** The receive loop: the bytes it reads, each with what happened
    asynchronously before it was read.  [Serial.read()] is stored into a
    [uint8_t]. *)
Fixpoint receive (input : list (list Async * Z)) (s : State) : State :=
  match input with
  | [] => s
  | (before, b) :: rest => receive rest (rx_byte (u8 b) (asyncs before s))
  end.

(** 4. The queue. *)
Definition run_queue (mid : list (list Async)) (s : State) : State :=
  if negb (active (timedAction s)) && negb (isEmpty (cmdQueue s)) then
    match pop (cmdQueue s) with
    | Some (packet, q) => executeCommand mid packet (with_queue q s)
    | None => s
    end
  else s.

(** 5. The statistics. *)
Definition report_stats (s : State) : State :=
  if STATS_INTERVAL <? u32 (millis s - last_stats_time s) then
    let s := logStats s in
    with_last_stats_time (millis s) s
  else s.

(** The input of one iteration of [loop]: what happens asynchronously
    before each section, the bytes the receive loop reads, and what
    happens during the command the executor runs.

    The asynchronous events are placed where the sketch can see them: the
    flag is read at the top of the loop, at the top of [executeCommand]
    and in each round of KB_PRINT, and an event anywhere before such a
    read sets the flag for it.  A section itself runs without
    interruption: the time does not move inside it, and a press of the
    button between the test and the clearing of the flag in section 1,
    which the sketch loses, is not in the model. *)
Record LoopInput : Type := mkInput {
  at_top : list Async;
  at_timed : list Async;
  at_rx : list (list Async * Z);
  at_exec : list Async;
  in_exec : list (list Async);
  at_stats : list Async
}.

Definition loop (i : LoopInput) (s : State) : State :=
  let s := service_interrupt (asyncs (at_top i) s) in
  let s := poll_timed (asyncs (at_timed i) s) in
  let s := receive (at_rx i) s in
  let s := run_queue (in_exec i) (asyncs (at_exec i) s) in
  report_stats (asyncs (at_stats i) s).

Definition run (inputs : list LoopInput) (s : State) : State :=
  fold_left (fun s i => loop i s) inputs s.

(** The queue as its constructor leaves it. *)
Definition queue_init : CommandQueue :=
  mkQueue (replicate (Z.to_nat QUEUE_SIZE) packet0) 0 0 0.

(** The globals as their initialisers leave them. *)
Definition init_state : State :=
  mkState false true 0
          queue_init
          (mkLogger 0 0 0)
          (replicate (Z.to_nat MAX_PACKET_SIZE) 0) 0 0 0
          (mkTimed false 0 0 0 0)
          0 0 [].

(** [setup] writes the banner and the ready line on the log channel. *)
Definition setup (s : State) : State :=
  let s := print [TNl; TStr "=================================="; TNl;
                  TStr "Arduino HID Monitor v2.0 (Queue Mode)"; TNl;
                  TStr "Firmware Time: "; TDec (millis s); TNl;
                  TStr "=================================="; TNl; TNl] s in
  logCommand "SYSTEM" (Some (TStr "Ready (Queue Mode)")) s.

(** ** Views of a trace *)

Definition acks (tr : list Event) : list Z :=
  flat_map (fun e => match e with Ack c => [c] | _ => [] end) tr.

Definition hids (tr : list Event) : list HidCall :=
  flat_map (fun e => match e with Hid c => [c] | _ => [] end) tr.

Definition logs (tr : list Event) : list Tok :=
  flat_map (fun e => match e with Log t => [t] | _ => [] end) tr.

(** What a function emitted: the trace after, without the trace before. *)
Definition emitted (s s' : State) : list Event := drop (length (out s)) (out s').

(** The FIFO content of the ring buffer, oldest first. *)
Fixpoint contents_from (n : nat) (slots : list CommandPacket) (i : Z) : list CommandPacket :=
  match n with
  | O => []
  | S n' => default packet0 (slots !! Z.to_nat i)
            :: contents_from n' slots ((i + 1) mod QUEUE_SIZE)
  end.

Definition contents (q : CommandQueue) : list CommandPacket :=
  contents_from (Z.to_nat (count q)) (queue q) (head q).

(** The ring buffer as the class keeps it. *)
Definition queue_ok (q : CommandQueue) : Prop :=
  length (queue q) = Z.to_nat QUEUE_SIZE
  /\ 0 <= head q < QUEUE_SIZE
  /\ 0 <= count q <= QUEUE_SIZE
  /\ tail q = (head q + count q) mod QUEUE_SIZE.

(** ** The lines of the log channel

    What the logger writes for one entry, as a function of the state in
    which it is called. *)

Definition stamp (s : State) (level : string) : list Tok :=
  [TStr "["; TDec (millis s); TStr "ms] "; TStr "["; TStr level; TStr "] "].

Definition with_details (details : option Tok) : list Tok :=
  match details with Some d => [TStr " | "; d] | None => [] end.

Definition error_line (s : State) (error_type : string) (details : option Tok) : list Tok :=
  if g_log_enabled s then
    stamp s "ERROR" ++ [TStr error_type] ++ with_details details
    ++ [TStr " | Total Errors: "; TDec (u32 (error_counter (logger s) + 1)); TNl]
  else [].

Definition exec_line (s : State) (cmd_name : string) (details : option Tok) : list Tok :=
  if g_log_enabled s then
    stamp s "EXEC" ++ [TStr cmd_name] ++ with_details details ++ [TNl]
  else [].

Definition ack_line (s : State) (ack_code : Z) : list Tok :=
  if g_log_enabled s then
    stamp s "ACK" ++ [TStr (ack_name ack_code); TStr " (0x"; THex ack_code; TStr ")"; TNl]
  else [].

Definition data_line (s : State) (data : list Z) (len : Z) : list Tok :=
  if g_log_enabled s then
    [TStr "    Data: "]
    ++ flat_map (fun b => hex_byte b ++ [TStr " "]) (take (Z.to_nat len) data)
    ++ [TNl]
  else [].

Definition interrupt_line (s : State) : list Tok :=
  (if g_log_enabled s then stamp s "INT" else [])
  ++ [TStr "❌ USER INTERRUPT - Clearing queue"; TNl].

(** ** The protocol side of a state

    Everything but the log channel: the globals other than
    [g_log_enabled] and the counters of the logger, with the ACK bytes and
    the HID calls of the trace. *)

Record Core : Type := mkCore {
  c_flag : bool;
  c_last_button_press : Z;
  c_queue : CommandQueue;
  c_rx_buffer : list Z;
  c_rx_state : Z;
  c_rx_len : Z;
  c_rx_idx : Z;
  c_timed : TimedAction;
  c_last_stats_time : Z;
  c_millis : Z;
  c_acks : list Z;
  c_hids : list HidCall
}.

Definition core (s : State) : Core :=
  mkCore (g_interrupt_flag s) (last_button_press s) (cmdQueue s)
         (rx_buffer s) (rx_state s) (rx_len s) (rx_idx s)
         (timedAction s) (last_stats_time s) (millis s)
         (acks (out s)) (hids (out s)).

(** [s'] is [s] after writes on the log channel only. *)
Definition log_step (s s' : State) : Prop :=
  exists l ts, s' = with_out (out s ++ map Log ts) (with_logger l s).

(** ** What the HID device holds

    The HID driver is not part of the sketch: it is the Arduino [Keyboard]
    and [Mouse] libraries.  This is what they hold down after a sequence of
    calls.  [Mouse] keeps the buttons as a bit mask: [press] ors its
    argument in, [release] masks it out, [click] sets the mask to its
    argument and then to 0.  [Keyboard]: [press] holds a key, [release]
    lets it go, [write] presses and lets go, [releaseAll] lets every key
    go. *)

Module HidModel.

Record Held : Type := mkHeld {
  keys : list Z;
  buttons : Z
}.

Definition nothing : Held := mkHeld [] 0.

Definition step (h : Held) (c : HidCall) : Held :=
  match c with
  | MouseMove _ _ _ => h
  | MousePress b => mkHeld (keys h) (Z.lor (buttons h) b)
  | MouseRelease b => mkHeld (keys h) (Z.ldiff (buttons h) b)
  | MouseClick b => mkHeld (keys h) 0
  | KbPress k => mkHeld (k :: filter (fun x => negb (x =? k)) (keys h)) (buttons h)
  | KbRelease k => mkHeld (filter (fun x => negb (x =? k)) (keys h)) (buttons h)
  | KbWrite k => mkHeld (filter (fun x => negb (x =? k)) (keys h)) (buttons h)
  | KbReleaseAll => mkHeld [] (buttons h)
  end.

Definition held (tr : list Event) : Held := fold_left step (hids tr) nothing.

End HidModel.

(** ** The states of a run *)

(** The states the program passes through: from the initial state by
    [setup], the sections of the loop, single rounds of the receive loop
    and asynchronous events, in any order. *)
Inductive reachable : State -> Prop :=
| reach_init : reachable init_state
| reach_setup s : reachable s -> reachable (setup s)
| reach_async a s : reachable s -> reachable (async a s)
| reach_service s : reachable s -> reachable (service_interrupt s)
| reach_poll s : reachable s -> reachable (poll_timed s)
| reach_rx b s : reachable s -> reachable (rx_byte (u8 b) s)
| reach_queue mid s : reachable s -> reachable (run_queue mid s)
| reach_stats s : reachable s -> reachable (report_stats s).

(** What the receive loop relies on in each parser state. *)
Definition rx_ok (s : State) : Prop :=
  length (rx_buffer s) = Z.to_nat MAX_PACKET_SIZE
  /\ (rx_state s = 0
      \/ rx_state s = 1
      \/ (rx_state s = 2 /\ 1 <= rx_len s <= MAX_PACKET_SIZE - 1
          /\ 0 <= rx_idx s <= rx_len s)).

(** ** The rounds of KB_PRINT

    How many rounds of the loop of [CMD_KB_PRINT] reach [Keyboard.write]:
    the rounds before the first one that finds the interrupt flag set. *)
Fixpoint rounds (n : nat) (mid : list (list Async)) (s : State) : nat :=
  match n with
  | O => O
  | S n' =>
      let s := asyncs (hd [] mid) s in
      if g_interrupt_flag s then O else S (rounds n' (tl mid) s)
  end.

(** What the ISR reads and writes. *)
Definition isr_view (s : State) : bool * Z * Z :=
  (g_interrupt_flag s, last_button_press s, millis s).

(** ** Frames on the wire *)

(** SYNC, LEN, the payload, and the CRC of the payload. *)
Definition frame (payload : list Z) : list Z :=
  SYNC_BYTE :: Z.of_nat (length payload)
  :: payload ++ [crc8 payload (Z.of_nat (length payload))].

(** Bytes that arrive with nothing asynchronous in between. *)
Definition quiet (bytes : list Z) : list (list Async * Z) :=
  map (fun b => ([], b)) bytes.

(** Does the string [name] appear on the log channel? *)
Definition logged (name : string) (tr : list Event) : bool :=
  existsb (fun e => match e with
                    | Log (TStr t) => String.eqb t name
                    | _ => false
                    end) tr.

(** The parser fields of a state. *)
Definition rx_of (c : Core) : list Z * Z * Z * Z :=
  (c_rx_buffer c, c_rx_state c, c_rx_len c, c_rx_idx c).

Definition rx_view (s : State) : list Z * Z * Z * Z := rx_of (core s).

(** The call of [processPacket] that [rx_byte] makes on the byte [b] in
    the state [s], when it makes one: the buffer and the length it
    passes, and the state at the call. *)
Definition dispatch_call (b : Z) (s : State) : option (list Z * Z * State) :=
  if rx_state s =? 2 then
    let s := with_rx_idx (u8 (rx_idx s + 1))
               (with_rx_buffer (<[Z.to_nat (rx_idx s) := b]> (rx_buffer s)) s) in
    if rx_idx s =? rx_len s + 1 then
      if byte_at (rx_buffer s) (rx_len s) =? crc8 (rx_buffer s) (rx_len s)
      then Some (rx_buffer s, rx_len s, s)
      else None
    else None
  else None.

(** ** What holds of the queue in every state *)

(** A packet as [processPacket] builds it: [param_len] bytes of
    parameters, at most 30. *)
Definition packet_ok (p : CommandPacket) : Prop :=
  Z.of_nat (length (params p)) = param_len p /\ 0 <= param_len p <= 30.

Definition queue_inv (s : State) : Prop :=
  queue_ok (cmdQueue s) /\ Forall packet_ok (contents (cmdQueue s)).

Definition state_ok (s : State) : Prop := queue_inv s /\ rx_ok s.

(** ** CRC-8/MAXIM, bit by bit

    The checksum the table stands for: polynomial x^8 + x^5 + x^4 + 1,
    fed and read least significant bit first (0x8C), initial value 0, no
    final xor. *)

Definition maxim_bit (crc : Z) : Z :=
  if Z.testbit crc 0 then Z.lxor (Z.shiftr crc 1) 0x8C else Z.shiftr crc 1.

Definition maxim_byte (crc b : Z) : Z := Nat.iter 8 maxim_bit (Z.lxor crc b).

Definition crc8_maxim (data : list Z) : Z := fold_left maxim_byte data 0.

(** One round of the loop of [crc8]. *)
Definition crc8_step (crc b : Z) : Z := pgm_read_byte (Z.lxor crc b).

(** A value that fits [uint8_t]. *)
Definition is_byte (b : Z) : Prop := 0 <= b < 256.

(** ** The queue as a bounded FIFO

    The operations of [CommandQueue] with what each returns, and the same
    operations on a list of at most [QUEUE_SIZE] packets, oldest first. *)

Inductive QueueOp : Type :=
| OpPush (p : CommandPacket)
| OpPop
| OpClear.

Inductive QueueRes : Type :=
| ResPush (ok : bool)
| ResPop (p : option CommandPacket)
| ResClear.

Definition queue_step (op : QueueOp) (q : CommandQueue) : QueueRes * CommandQueue :=
  match op with
  | OpPush p => let (ok, q') := push p q in (ResPush ok, q')
  | OpPop => match pop q with
             | Some (p, q') => (ResPop (Some p), q')
             | None => (ResPop None, q)
             end
  | OpClear => (ResClear, clear q)
  end.

Definition fifo_step (op : QueueOp) (l : list CommandPacket) : QueueRes * list CommandPacket :=
  match op with
  | OpPush p => if (Z.to_nat QUEUE_SIZE <=? length l)%nat then (ResPush false, l)
                else (ResPush true, l ++ [p])
  | OpPop => match l with
             | [] => (ResPop None, [])
             | p :: rest => (ResPop (Some p), rest)
             end
  | OpClear => (ResClear, [])
  end.

Fixpoint queue_run (ops : list QueueOp) (q : CommandQueue) : list QueueRes * CommandQueue :=
  match ops with
  | [] => ([], q)
  | op :: ops' =>
      let (r, q1) := queue_step op q in
      let (rs, q2) := queue_run ops' q1 in
      (r :: rs, q2)
  end.

Fixpoint fifo_run (ops : list QueueOp) (l : list CommandPacket)
    : list QueueRes * list CommandPacket :=
  match ops with
  | [] => ([], l)
  | op :: ops' =>
      let (r, l1) := fifo_step op l in
      let (rs, l2) := fifo_run ops' l1 in
      (r :: rs, l2)
  end.

(** ** The timed action and the HID device *)

(** The call that starts the hold of a timed action, and the call that
    ends it. *)
Definition press_of (t : TimedAction) : HidCall :=
  if action_type t =? 0 then MousePress (button_or_key t) else KbPress (button_or_key t).

Definition release_of (t : TimedAction) : HidCall :=
  if action_type t =? 0 then MouseRelease (button_or_key t) else KbRelease (button_or_key t).

(** While a timed action is active, its press is the last call the HID
    library has seen. *)
Definition timed_inv (s : State) : Prop :=
  active (timedAction s) = true ->
  last (hids (out s)) = Some (press_of (timedAction s))
  /\ (action_type (timedAction s) = 0 \/ action_type (timedAction s) = 1)
  /\ 0 <= duration_ms (timedAction s) < 65536.

(** ** The ACK bytes the sketch sends *)

Definition ack_sent (a : Z) : Prop :=
  a = ACK_SUCCESS \/ a = ACK_CRC_ERROR \/ a = ACK_PARAM_ERROR \/ a = ACK_INTERRUPTED.

(** ** The two planes *)

(** A command of the data plane: any opcode but the three that the
    dispatcher runs at once. *)
Definition data_plane (p : CommandPacket) : Prop :=
  cmd p <> CMD_PAUSE_LOG /\ cmd p <> CMD_RESUME_LOG /\ cmd p <> CMD_CLEAR_QUEUE.

(** The opcodes the executor knows. *)
Definition opcodes : list Z :=
  [CMD_MOUSE_MOVE; CMD_MOUSE_PRESS; CMD_MOUSE_RELEASE; CMD_MOUSE_CLICK;
   CMD_MOUSE_PRESS_TIMED; CMD_KB_PRESS; CMD_KB_RELEASE; CMD_KB_WRITE;
   CMD_KB_RELEASE_ALL; CMD_KB_PRINT; CMD_KB_PRESS_TIMED;
   CMD_PAUSE_LOG; CMD_RESUME_LOG; CMD_CLEAR_QUEUE].

(** ** The parser on its own

    The move of one round of the receive loop on the parser's own
    variables (the buffer, the state, the length, the index), as a
    function of the byte read. *)
Definition rx_next (b : Z) (v : list Z * Z * Z * Z) : list Z * Z * Z * Z :=
  let '(buf, st, len, idx) := v in
  if st =? 0 then
    if b =? SYNC_BYTE then (buf, 1, len, 0) else v
  else if st =? 1 then
    if (b =? 0) || (MAX_PACKET_SIZE - 1 <? b) then (buf, 0, b, idx) else (buf, 2, b, 0)
  else if st =? 2 then
    let buf' := <[Z.to_nat idx := b]> buf in
    let idx' := u8 (idx + 1) in
    if idx' =? len + 1 then (buf', 0, len, 0) else (buf', st, len, idx')
  else v.

(** The bytes a run reads, in order. *)
Definition bytes_read (inputs : list LoopInput) : list Z :=
  concat (map (fun i => map (fun x => u8 (snd x)) (at_rx i)) inputs).

(** * The first version of the sketch

    The file holds a second sketch after the first: the earlier firmware
    ("Firmware Version: 1.0.0"), with the same frames, the same CRC table
    and the same receive loop, and without the queue, the button and the
    logging switch.  Its [processPacket] runs each command at once and
    answers after the command has run; a timed press waits in [delay].

    Its globals are the logger, the parser's variables and the time of
    the last statistics.  The table and [crc8] are the ones above, letter
    for letter. *)

Module V1.

Record State : Type := mkState {
  logger : Logger;
  rx_buffer : list Z;
  rx_state : Z;
  rx_len : Z;
  rx_idx : Z;
  last_stats_time : Z;
  millis : Z;
  out : list Event
}.

Definition with_logger (v : Logger) (s : State) : State :=
  mkState v (rx_buffer s) (rx_state s) (rx_len s) (rx_idx s) (last_stats_time s)
    (millis s) (out s).

Definition with_rx_buffer (v : list Z) (s : State) : State :=
  mkState (logger s) v (rx_state s) (rx_len s) (rx_idx s) (last_stats_time s)
    (millis s) (out s).

Definition with_rx_state (v : Z) (s : State) : State :=
  mkState (logger s) (rx_buffer s) v (rx_len s) (rx_idx s) (last_stats_time s)
    (millis s) (out s).

Definition with_rx_len (v : Z) (s : State) : State :=
  mkState (logger s) (rx_buffer s) (rx_state s) v (rx_idx s) (last_stats_time s)
    (millis s) (out s).

Definition with_rx_idx (v : Z) (s : State) : State :=
  mkState (logger s) (rx_buffer s) (rx_state s) (rx_len s) v (last_stats_time s)
    (millis s) (out s).

Definition with_last_stats_time (v : Z) (s : State) : State :=
  mkState (logger s) (rx_buffer s) (rx_state s) (rx_len s) (rx_idx s) v
    (millis s) (out s).

Definition with_millis (v : Z) (s : State) : State :=
  mkState (logger s) (rx_buffer s) (rx_state s) (rx_len s) (rx_idx s)
    (last_stats_time s) v (out s).

Definition with_out (v : list Event) (s : State) : State :=
  mkState (logger s) (rx_buffer s) (rx_state s) (rx_len s) (rx_idx s)
    (last_stats_time s) (millis s) v.

Definition emit (e : Event) (s : State) : State := with_out (out s ++ [e]) s.

Definition print (ts : list Tok) (s : State) : State :=
  with_out (out s ++ map Log ts) s.

Definition hid (c : HidCall) (s : State) : State := emit (Hid c) s.

(** ** Logger: every method writes, there is no switch *)

Definition printTimestamp (s : State) : State :=
  print [TStr "["; TDec (millis s); TStr "ms] "] s.

Definition printLevel (level : string) (s : State) : State :=
  print [TStr "["; TStr level; TStr "] "] s.

Definition begin (s : State) : State :=
  print [TNl; TStr "=================================="; TNl;
         TStr "Arduino HID Monitor Started"; TNl;
         TStr "Firmware Version: 1.0.0 | Time: "; TDec (millis s); TNl;
         TStr "=================================="; TNl; TNl] s.

Definition logPacketReceived (len : Z) (s : State) : State :=
  if CURRENT_LOG_LEVEL <? LOG_LEVEL_DEBUG then s else
  let s := with_logger (mkLogger (u32 (packet_counter (logger s) + 1))
                                 (error_counter (logger s))
                                 (success_counter (logger s))) s in
  let s := printTimestamp s in
  let s := printLevel "RECV" s in
  print [TStr "Packet #"; TDec (packet_counter (logger s));
         TStr " | Length: "; TDec len; TNl] s.

Definition logPacketData (data : list Z) (len : Z) (s : State) : State :=
  if CURRENT_LOG_LEVEL <? LOG_LEVEL_DEBUG then s else
  print ([TStr "    Data: "]
         ++ flat_map (fun b => hex_byte b ++ [TStr " "]) (take (Z.to_nat len) data)
         ++ [TNl]) s.

Definition logCommand (cmd_name : string) (details : option Tok) (s : State) : State :=
  let s := printTimestamp s in
  let s := printLevel "EXEC" s in
  print ([TStr cmd_name]
         ++ match details with Some d => [TStr " | "; d] | None => [] end
         ++ [TNl]) s.

Definition getKeyName (key : Z) : string :=
  if key =? 0x80 then "LEFT_CTRL"
  else if key =? 0x81 then "LEFT_SHIFT"
  else if key =? 0x82 then "LEFT_ALT"
  else if key =? 0x83 then "LEFT_GUI"
  else if key =? 0x84 then "RIGHT_CTRL"
  else if key =? 0x85 then "RIGHT_SHIFT"
  else if key =? 0x86 then "RIGHT_ALT"
  else if key =? 0x87 then "RIGHT_GUI"
  else if key =? 0xDA then "UP_ARROW"
  else if key =? 0xD9 then "DOWN_ARROW"
  else if key =? 0xD8 then "LEFT_ARROW"
  else if key =? 0xD7 then "RIGHT_ARROW"
  else if key =? 0xB2 then "BACKSPACE"
  else if key =? 0xB3 then "TAB"
  else if key =? 0xB0 then "RETURN"
  else if key =? 0xB1 then "ESC"
  else if key =? 0xD4 then "DELETE"
  else if key =? 0xD3 then "PAGE_UP"
  else if key =? 0xD6 then "PAGE_DOWN"
  else if key =? 0xD2 then "HOME"
  else if key =? 0xD5 then "END"
  else if key =? 0xD1 then "INSERT"
  else if key =? 0xC2 then "F1"
  else if key =? 0xC3 then "F2"
  else if key =? 0xC4 then "F3"
  else if key =? 0xC5 then "F4"
  else if key =? 0xC6 then "F5"
  else if key =? 0xC7 then "F6"
  else if key =? 0xC8 then "F7"
  else if key =? 0xC9 then "F8"
  else if key =? 0xCA then "F9"
  else if key =? 0xCB then "F10"
  else if key =? 0xCC then "F11"
  else if key =? 0xCD then "F12"
  else if key =? 0x20 then "SPACE"
  else if (32 <=? key) && (key <=? 126)
       then String (Ascii.ascii_of_N (Z.to_N key)) EmptyString
  else "UNKNOWN".

Definition getButtonName (button : Z) : string :=
  if button =? 0x01 then "LEFT"
  else if button =? 0x02 then "RIGHT"
  else if button =? 0x04 then "MIDDLE"
  else if button =? 0x07 then "ALL"
  else "UNKNOWN".

Definition logMouseMove (x y wheel : Z) (s : State) : State :=
  logCommand "MOUSE_MOVE"
    (Some (TFmt "x=%d, y=%d, wheel=%d" [AInt x; AInt y; AInt wheel])) s.

Definition logMouseButton (action : string) (button : Z) (s : State) : State :=
  let btn_name := getButtonName button in
  logCommand "MOUSE" (Some (TFmt "%s (%s)" [AStr action; AStr btn_name])) s.

Definition logMouseButtonTimed (button duration : Z) (s : State) : State :=
  let btn_name := getButtonName button in
  logCommand "MOUSE_TIMED"
    (Some (TFmt "Hold %s for %dms" [AStr btn_name; AInt duration])) s.

Definition logKeyboard (action : string) (key : Z) (s : State) : State :=
  let key_name := getKeyName key in
  logCommand "KEYBOARD"
    (Some (TFmt "%s %s (0x%02X)" [AStr action; AStr key_name; AInt key])) s.

Definition logKeyboardTimed (key duration : Z) (s : State) : State :=
  let key_name := getKeyName key in
  logCommand "KB_TIMED"
    (Some (TFmt "Hold %s (0x%02X) for %dms" [AStr key_name; AInt key; AInt duration])) s.

Definition logKeyboardPrint (text : list Z) (len : Z) (s : State) : State :=
  print ([TStr "    Text: "; TChr 34]
         ++ flat_map (fun b => if (32 <=? b) && (b <=? 126) then [TChr b]
                               else TStr "\x" :: hex_byte b)
                     (take (Z.to_nat (Z.min len 40)) text)
         ++ (if 40 <? len then [TStr "..."] else [])
         ++ [TChr 34; TNl]) s.

Definition logError (error_type : string) (details : option Tok) (s : State) : State :=
  let s := with_logger (mkLogger (packet_counter (logger s))
                                 (u32 (error_counter (logger s) + 1))
                                 (success_counter (logger s))) s in
  let s := printTimestamp s in
  let s := printLevel "ERROR" s in
  print ([TStr error_type]
         ++ match details with Some d => [TStr " | "; d] | None => [] end
         ++ [TStr " | Total Errors: "; TDec (error_counter (logger s)); TNl]) s.

Definition logCRCError (expected received : Z) (s : State) : State :=
  logError "CRC_MISMATCH"
    (Some (TFmt "Expected: 0x%02X, Got: 0x%02X" [AInt expected; AInt received])) s.

Definition logInvalidCommand (c : Z) (s : State) : State :=
  logError "INVALID_CMD" (Some (TFmt "Unknown CMD: 0x%02X" [AInt c])) s.

Definition logParamError (c expected received : Z) (s : State) : State :=
  logError "PARAM_ERROR"
    (Some (TFmt "CMD 0x%02X needs %d bytes, got %d"
                [AInt c; AInt expected; AInt received])) s.

Definition ack_name (ack_code : Z) : string :=
  if ack_code =? ACK_SUCCESS then "SUCCESS"
  else if ack_code =? ACK_CRC_ERROR then "CRC_ERROR"
  else if ack_code =? ACK_INVALID_CMD then "INVALID_CMD"
  else if ack_code =? ACK_PARAM_ERROR then "PARAM_ERROR"
  else "UNKNOWN".

Definition logACK (ack_code : Z) (s : State) : State :=
  if CURRENT_LOG_LEVEL <? LOG_LEVEL_DEBUG then s else
  let s := if ack_code =? ACK_SUCCESS
           then with_logger (mkLogger (packet_counter (logger s))
                                      (error_counter (logger s))
                                      (u32 (success_counter (logger s) + 1))) s
           else s in
  let s := printTimestamp s in
  let s := printLevel "ACK" s in
  print [TStr (ack_name ack_code); TStr " (0x"; THex ack_code; TStr ")"; TNl] s.

Definition logStats (s : State) : State :=
  let s := print [TNl; TStr "--- Statistics ---"; TNl;
                  TStr "Total Packets: "; TDec (packet_counter (logger s)); TNl;
                  TStr "Successful: "; TDec (success_counter (logger s)); TNl;
                  TStr "Errors: "; TDec (error_counter (logger s)); TNl;
                  TStr "Success Rate: "] s in
  let s := if 0 <? packet_counter (logger s)
           then print [TRate (success_counter (logger s)) (packet_counter (logger s));
                       TStr "%"; TNl] s
           else print [TStr "N/A"; TNl] s in
  print [TStr "------------------"; TNl; TNl] s.

(** ** Acknowledgement and commands *)

Definition sendAck (ack_code : Z) (s : State) : State :=
  logACK ack_code (emit (Ack ack_code) s).

(** [delay(ms)] returns when [ms] milliseconds have passed. *)
Definition delay (ms : Z) (s : State) : State :=
  with_millis (u32 (millis s + ms)) s.

(** The loop of [CMD_KB_PRINT], at index [i] with [n] rounds left. *)
Fixpoint kb_print_loop (n : nat) (p : list Z) (i : Z) (s : State) : State :=
  match n with
  | O => s
  | S n' => kb_print_loop n' p (i + 1) (hid (KbWrite (byte_at p i)) s)
  end.

(** [params] points into [data], one byte in. *)
Definition processPacket (data : list Z) (len : Z) (s : State) : State :=
  if len <? 1 then
    sendAck ACK_PARAM_ERROR (logError "EMPTY_PACKET" None s)
  else
    let s := logPacketData data len s in
    let c := byte_at data 0 in
    let p := drop 1 data in
    let n := u8 (len - 1) in
    if c =? CMD_MOUSE_MOVE then
      if negb (n =? 3) then sendAck ACK_PARAM_ERROR (logParamError c 3 n s)
      else
        let x := i8 (byte_at p 0) in
        let y := i8 (byte_at p 1) in
        let wheel := i8 (byte_at p 2) in
        let s := logMouseMove x y wheel s in
        let s := hid (MouseMove x y wheel) s in
        sendAck ACK_SUCCESS s
    else if c =? CMD_MOUSE_PRESS then
      if negb (n =? 1) then sendAck ACK_PARAM_ERROR (logParamError c 1 n s)
      else sendAck ACK_SUCCESS
             (hid (MousePress (byte_at p 0)) (logMouseButton "Press" (byte_at p 0) s))
    else if c =? CMD_MOUSE_RELEASE then
      if negb (n =? 1) then sendAck ACK_PARAM_ERROR (logParamError c 1 n s)
      else sendAck ACK_SUCCESS
             (hid (MouseRelease (byte_at p 0)) (logMouseButton "Release" (byte_at p 0) s))
    else if c =? CMD_MOUSE_CLICK then
      if negb (n =? 1) then sendAck ACK_PARAM_ERROR (logParamError c 1 n s)
      else sendAck ACK_SUCCESS
             (hid (MouseClick (byte_at p 0)) (logMouseButton "Click" (byte_at p 0) s))
    else if c =? CMD_MOUSE_PRESS_TIMED then
      if negb (n =? 3) then sendAck ACK_PARAM_ERROR (logParamError c 3 n s)
      else
        let button := byte_at p 0 in
        let duration := u16 (Z.lor (Z.shiftl (byte_at p 1) 8) (byte_at p 2)) in
        let s := logMouseButtonTimed button duration s in
        let s := hid (MousePress button) s in
        let s := delay duration s in
        let s := hid (MouseRelease button) s in
        sendAck ACK_SUCCESS s
    else if c =? CMD_KB_PRESS then
      if negb (n =? 1) then sendAck ACK_PARAM_ERROR (logParamError c 1 n s)
      else sendAck ACK_SUCCESS
             (hid (KbPress (byte_at p 0)) (logKeyboard "Press" (byte_at p 0) s))
    else if c =? CMD_KB_RELEASE then
      if negb (n =? 1) then sendAck ACK_PARAM_ERROR (logParamError c 1 n s)
      else sendAck ACK_SUCCESS
             (hid (KbRelease (byte_at p 0)) (logKeyboard "Release" (byte_at p 0) s))
    else if c =? CMD_KB_WRITE then
      if negb (n =? 1) then sendAck ACK_PARAM_ERROR (logParamError c 1 n s)
      else sendAck ACK_SUCCESS
             (hid (KbWrite (byte_at p 0)) (logKeyboard "Write" (byte_at p 0) s))
    else if c =? CMD_KB_RELEASE_ALL then
      if negb (n =? 0) then sendAck ACK_PARAM_ERROR (logParamError c 0 n s)
      else sendAck ACK_SUCCESS
             (hid KbReleaseAll
                (logCommand "KB_RELEASE_ALL" (Some (TStr "All keys released")) s))
    else if c =? CMD_KB_PRINT then
      let s := logCommand "KB_PRINT" None s in
      let s := logKeyboardPrint p n s in
      let s := kb_print_loop (Z.to_nat n) p 0 s in
      sendAck ACK_SUCCESS s
    else if c =? CMD_KB_PRESS_TIMED then
      if negb (n =? 3) then sendAck ACK_PARAM_ERROR (logParamError c 3 n s)
      else
        let key := byte_at p 0 in
        let duration := u16 (Z.lor (Z.shiftl (byte_at p 1) 8) (byte_at p 2)) in
        let s := logKeyboardTimed key duration s in
        let s := hid (KbPress key) s in
        let s := delay duration s in
        let s := hid (KbRelease key) s in
        sendAck ACK_SUCCESS s
    else
      sendAck ACK_INVALID_CMD (logInvalidCommand c s).

(** ** The main loop *)

(** Time passes between two statements. *)
Definition tick (dt : Z) (s : State) : State := with_millis (u32 (millis s + dt)) s.

(** One round of the receive loop, on the byte read from [Serial]. *)
Definition rx_byte (byte_in : Z) (s : State) : State :=
  if rx_state s =? 0 then
    if byte_in =? SYNC_BYTE then with_rx_idx 0 (with_rx_state 1 s) else s
  else if rx_state s =? 1 then
    let s := with_rx_len byte_in s in
    if (rx_len s =? 0) || (MAX_PACKET_SIZE - 1 <? rx_len s) then
      with_rx_state 0 (sendAck ACK_PARAM_ERROR (logError "INVALID_LENGTH" None s))
    else
      with_rx_idx 0 (with_rx_state 2 (logPacketReceived (rx_len s) s))
  else if rx_state s =? 2 then
    let s := with_rx_idx (u8 (rx_idx s + 1))
               (with_rx_buffer (<[Z.to_nat (rx_idx s) := byte_in]> (rx_buffer s)) s) in
    if rx_idx s =? rx_len s + 1 then
      let received_crc := byte_at (rx_buffer s) (rx_len s) in
      let calculated_crc := crc8 (rx_buffer s) (rx_len s) in
      let s := if received_crc =? calculated_crc
               then processPacket (rx_buffer s) (rx_len s) s
               else sendAck ACK_CRC_ERROR (logCRCError calculated_crc received_crc s) in
      with_rx_idx 0 (with_rx_state 0 s)
    else s
  else s.

(** The receive loop: the bytes it reads, each with the time that passed
    before it was read. *)
Fixpoint receive (input : list (Z * Z)) (s : State) : State :=
  match input with
  | [] => s
  | (dt, b) :: rest => receive rest (rx_byte (u8 b) (tick dt s))
  end.

Definition report_stats (s : State) : State :=
  if STATS_INTERVAL <? u32 (millis s - last_stats_time s) then
    let s := logStats s in
    with_last_stats_time (millis s) s
  else s.

(** One iteration: the bytes read, and the time that passes before the
    statistics. *)
Definition loop (rx : list (Z * Z)) (dt : Z) (s : State) : State :=
  report_stats (tick dt (receive rx s)).

Definition init_state : State :=
  mkState (mkLogger 0 0 0) (replicate (Z.to_nat MAX_PACKET_SIZE) 0) 0 0 0 0 0 [].

Definition setup (s : State) : State :=
  logCommand "SYSTEM" (Some (TStr "Ready for commands")) (begin s).

(** The parser's variables. *)
Definition rx_view (s : State) : list Z * Z * Z * Z :=
  (rx_buffer s, rx_state s, rx_len s, rx_idx s).

(** [s'] is [s] after writes on the log channel only. *)
Definition log_step (s s' : State) : Prop :=
  exists l ts, s' = with_out (out s ++ map Log ts) (with_logger l s).

(** The number of parameter bytes each opcode takes: [Some None] for
    KB_PRINT, which takes any number, [None] for an opcode that is not
    known. *)
Definition arity (c : Z) : option (option Z) :=
  if (c =? CMD_MOUSE_MOVE) || (c =? CMD_MOUSE_PRESS_TIMED) || (c =? CMD_KB_PRESS_TIMED)
  then Some (Some 3)
  else if (c =? CMD_MOUSE_PRESS) || (c =? CMD_MOUSE_RELEASE) || (c =? CMD_MOUSE_CLICK)
          || (c =? CMD_KB_PRESS) || (c =? CMD_KB_RELEASE) || (c =? CMD_KB_WRITE)
  then Some (Some 1)
  else if c =? CMD_KB_RELEASE_ALL then Some (Some 0)
  else if c =? CMD_KB_PRINT then Some None
  else None.

(** The answer to a payload, by opcode and length. *)
Definition answer (data : list Z) (len : Z) : Z :=
  if len <? 1 then ACK_PARAM_ERROR
  else match arity (byte_at data 0) with
       | None => ACK_INVALID_CMD
       | Some None => ACK_SUCCESS
       | Some (Some k) => if u8 (len - 1) =? k then ACK_SUCCESS else ACK_PARAM_ERROR
       end.

End V1.

(** ** The HID calls of a command

    What the [switch] of the queue-mode executor asks of the HID library
    for a command, when nothing interrupts it: read off the cases of
    [executeCommand]. *)
Definition hid_calls (p : CommandPacket) : list HidCall :=
  let c := cmd p in
  let b := byte_at (params p) in
  let n := param_len p in
  if c =? CMD_MOUSE_MOVE then
    if n =? 3 then [MouseMove (i8 (b 0)) (i8 (b 1)) (i8 (b 2))] else []
  else if c =? CMD_MOUSE_PRESS then if n =? 1 then [MousePress (b 0)] else []
  else if c =? CMD_MOUSE_RELEASE then if n =? 1 then [MouseRelease (b 0)] else []
  else if c =? CMD_MOUSE_CLICK then if n =? 1 then [MouseClick (b 0)] else []
  else if c =? CMD_MOUSE_PRESS_TIMED then if n =? 3 then [MousePress (b 0)] else []
  else if c =? CMD_KB_PRESS then if n =? 1 then [KbPress (b 0)] else []
  else if c =? CMD_KB_RELEASE then if n =? 1 then [KbRelease (b 0)] else []
  else if c =? CMD_KB_WRITE then if n =? 1 then [KbWrite (b 0)] else []
  else if c =? CMD_KB_RELEASE_ALL then [KbReleaseAll]
  else if c =? CMD_KB_PRINT then map KbWrite (params p)
  else if c =? CMD_KB_PRESS_TIMED then if n =? 3 then [KbPress (b 0)] else []
  else [].

(** A command that does not start a timed action. *)
Definition untimed (p : CommandPacket) : Prop :=
  cmd p <> CMD_MOUSE_PRESS_TIMED /\ cmd p <> CMD_KB_PRESS_TIMED.

(** An iteration of the loop in which nothing arrives and nothing
    happens asynchronously. *)
Definition idle : LoopInput := mkInput [] [] [] [] [] [].

(** * Properties *)

(** ** The logger writes on the log channel only *)

Lemma log_step_refl s : log_step s s.
Proof.
  exists (logger s), []. destruct s; cbn. now rewrite app_nil_r.
Qed.

Lemma log_step_trans s1 s2 s3 : log_step s1 s2 -> log_step s2 s3 -> log_step s1 s3.
Proof.
  intros (l & ts & ->) (l' & ts' & ->).
  exists l', (ts ++ ts'). destruct s1; cbn. now rewrite map_app, app_assoc.
Qed.

Lemma log_step_print s0 s ts : log_step s0 s -> log_step s0 (print ts s).
Proof.
  intros H. eapply log_step_trans; [exact H|].
  exists (logger s), ts. destruct s; reflexivity.
Qed.

Lemma log_step_with_logger s0 s l : log_step s0 s -> log_step s0 (with_logger l s).
Proof.
  intros H. eapply log_step_trans; [exact H|].
  exists l, []. destruct s; cbn. now rewrite app_nil_r.
Qed.

Create HintDb logdb.
#[local] Hint Resolve log_step_refl log_step_print log_step_with_logger : logdb.

Ltac log_step_tac :=
  intros; repeat case_match; eauto 10 with logdb.

Lemma printTimestamp_log s0 s : log_step s0 s -> log_step s0 (printTimestamp s).
Proof. unfold printTimestamp. log_step_tac. Qed.

Lemma printLevel_log s0 s level : log_step s0 s -> log_step s0 (printLevel level s).
Proof. unfold printLevel. log_step_tac. Qed.

#[local] Hint Resolve printTimestamp_log printLevel_log : logdb.

Lemma reset_counter_log s0 s : log_step s0 s -> log_step s0 (reset_counter s).
Proof. unfold reset_counter. log_step_tac. Qed.

Lemma logQueueStatus_log s0 s : log_step s0 s -> log_step s0 (logQueueStatus s).
Proof. unfold logQueueStatus. log_step_tac. Qed.

Lemma logPacketReceived_log s0 s len : log_step s0 s -> log_step s0 (logPacketReceived len s).
Proof. unfold logPacketReceived. log_step_tac. Qed.

Lemma logPacketData_log s0 s data len : log_step s0 s -> log_step s0 (logPacketData data len s).
Proof. unfold logPacketData. log_step_tac. Qed.

Lemma logCommand_log s0 s name details : log_step s0 s -> log_step s0 (logCommand name details s).
Proof. unfold logCommand. log_step_tac. Qed.

Lemma logInterrupt_log s0 s : log_step s0 s -> log_step s0 (logInterrupt s).
Proof. unfold logInterrupt. log_step_tac. Qed.

Lemma logLogStateChange_log s0 s b : log_step s0 s -> log_step s0 (logLogStateChange b s).
Proof. unfold logLogStateChange. log_step_tac. Qed.

#[local] Hint Resolve reset_counter_log logQueueStatus_log logPacketReceived_log
  logPacketData_log logCommand_log logInterrupt_log logLogStateChange_log : logdb.

Lemma logMouseMove_log s0 s x y w : log_step s0 s -> log_step s0 (logMouseMove x y w s).
Proof. unfold logMouseMove. log_step_tac. Qed.

Lemma logMouseButton_log s0 s a b : log_step s0 s -> log_step s0 (logMouseButton a b s).
Proof. unfold logMouseButton. log_step_tac. Qed.

Lemma logKeyboard_log s0 s a k : log_step s0 s -> log_step s0 (logKeyboard a k s).
Proof. unfold logKeyboard. log_step_tac. Qed.

Lemma logKeyboardPrint_log s0 s text len : log_step s0 s -> log_step s0 (logKeyboardPrint text len s).
Proof. unfold logKeyboardPrint. log_step_tac. Qed.

Lemma logError_log s0 s ty d : log_step s0 s -> log_step s0 (logError ty d s).
Proof. unfold logError. log_step_tac. Qed.

#[local] Hint Resolve logMouseMove_log logMouseButton_log logKeyboard_log
  logKeyboardPrint_log logError_log : logdb.

Lemma logCRCError_log s0 s e r : log_step s0 s -> log_step s0 (logCRCError e r s).
Proof. unfold logCRCError. log_step_tac. Qed.

Lemma logInvalidCommand_log s0 s c : log_step s0 s -> log_step s0 (logInvalidCommand c s).
Proof. unfold logInvalidCommand. log_step_tac. Qed.

Lemma logParamError_log s0 s c e r : log_step s0 s -> log_step s0 (logParamError c e r s).
Proof. unfold logParamError. log_step_tac. Qed.

Lemma logACK_log s0 s code : log_step s0 s -> log_step s0 (logACK code s).
Proof. unfold logACK. log_step_tac. Qed.

Lemma logStats_log s0 s : log_step s0 s -> log_step s0 (logStats s).
Proof. unfold logStats. log_step_tac. Qed.

#[local] Hint Resolve logCRCError_log logInvalidCommand_log logParamError_log
  logACK_log logStats_log : logdb.

Lemma acks_app tr1 tr2 : acks (tr1 ++ tr2) = acks tr1 ++ acks tr2.
Proof. apply flat_map_app. Qed.

Lemma hids_app tr1 tr2 : hids (tr1 ++ tr2) = hids tr1 ++ hids tr2.
Proof. apply flat_map_app. Qed.

Lemma logs_app tr1 tr2 : logs (tr1 ++ tr2) = logs tr1 ++ logs tr2.
Proof. apply flat_map_app. Qed.

Lemma acks_log ts : acks (map Log ts) = [].
Proof. induction ts; auto. Qed.

Lemma hids_log ts : hids (map Log ts) = [].
Proof. induction ts; auto. Qed.

Lemma logs_log ts : logs (map Log ts) = ts.
Proof. induction ts as [|t ts IH]; [reflexivity|]. cbn. f_equal. exact IH. Qed.

Lemma acks_nil : acks [] = [].
Proof. reflexivity. Qed.

Lemma hids_nil : hids [] = [].
Proof. reflexivity. Qed.

Lemma acks_cons_Ack c tr : acks (Ack c :: tr) = c :: acks tr.
Proof. reflexivity. Qed.

Lemma acks_cons_Hid c tr : acks (Hid c :: tr) = acks tr.
Proof. reflexivity. Qed.

Lemma hids_cons_Ack c tr : hids (Ack c :: tr) = hids tr.
Proof. reflexivity. Qed.

Lemma hids_cons_Hid c tr : hids (Hid c :: tr) = c :: hids tr.
Proof. reflexivity. Qed.

Create Rewrite HintDb tracedb.
#[local] Hint Rewrite acks_app hids_app acks_log hids_log acks_nil hids_nil
  acks_cons_Ack acks_cons_Hid hids_cons_Ack hids_cons_Hid app_nil_r : tracedb.

(** A write on the log channel leaves the protocol side as it is, and
    the logging switch too. *)
Lemma log_step_core s s' : log_step s s' -> core s' = core s.
Proof.
  intros (l & ts & ->). unfold core; cbn.
  now rewrite acks_app, hids_app, acks_log, hids_log, !app_nil_r.
Qed.

Lemma log_step_enabled s s' : log_step s s' -> g_log_enabled s' = g_log_enabled s.
Proof. intros (l & ts & ->). reflexivity. Qed.

(** The same, function by function, for rewriting. *)

Lemma core_printTimestamp s : core (printTimestamp s) = core s.
Proof. apply log_step_core; auto with logdb. Qed.

Lemma enabled_printTimestamp s : g_log_enabled (printTimestamp s) = g_log_enabled s.
Proof. apply log_step_enabled; auto with logdb. Qed.

Lemma core_printLevel level s : core (printLevel level s) = core s.
Proof. apply log_step_core; auto with logdb. Qed.

Lemma enabled_printLevel level s : g_log_enabled (printLevel level s) = g_log_enabled s.
Proof. apply log_step_enabled; auto with logdb. Qed.

Lemma core_reset_counter s : core (reset_counter s) = core s.
Proof. apply log_step_core; auto with logdb. Qed.

Lemma enabled_reset_counter s : g_log_enabled (reset_counter s) = g_log_enabled s.
Proof. apply log_step_enabled; auto with logdb. Qed.

Lemma core_logQueueStatus s : core (logQueueStatus s) = core s.
Proof. apply log_step_core; auto with logdb. Qed.

Lemma enabled_logQueueStatus s : g_log_enabled (logQueueStatus s) = g_log_enabled s.
Proof. apply log_step_enabled; auto with logdb. Qed.

Lemma core_logPacketReceived len s : core (logPacketReceived len s) = core s.
Proof. apply log_step_core; auto with logdb. Qed.

Lemma enabled_logPacketReceived len s : g_log_enabled (logPacketReceived len s) = g_log_enabled s.
Proof. apply log_step_enabled; auto with logdb. Qed.

Lemma core_logPacketData data len s : core (logPacketData data len s) = core s.
Proof. apply log_step_core; auto with logdb. Qed.

Lemma enabled_logPacketData data len s : g_log_enabled (logPacketData data len s) = g_log_enabled s.
Proof. apply log_step_enabled; auto with logdb. Qed.

Lemma core_logCommand name details s : core (logCommand name details s) = core s.
Proof. apply log_step_core; auto with logdb. Qed.

Lemma enabled_logCommand name details s : g_log_enabled (logCommand name details s) = g_log_enabled s.
Proof. apply log_step_enabled; auto with logdb. Qed.

Lemma core_logInterrupt s : core (logInterrupt s) = core s.
Proof. apply log_step_core; auto with logdb. Qed.

Lemma enabled_logInterrupt s : g_log_enabled (logInterrupt s) = g_log_enabled s.
Proof. apply log_step_enabled; auto with logdb. Qed.

Lemma core_logLogStateChange b s : core (logLogStateChange b s) = core s.
Proof. apply log_step_core; auto with logdb. Qed.

Lemma enabled_logLogStateChange b s : g_log_enabled (logLogStateChange b s) = g_log_enabled s.
Proof. apply log_step_enabled; auto with logdb. Qed.

Lemma core_logMouseMove x y w s : core (logMouseMove x y w s) = core s.
Proof. apply log_step_core; auto with logdb. Qed.

Lemma enabled_logMouseMove x y w s : g_log_enabled (logMouseMove x y w s) = g_log_enabled s.
Proof. apply log_step_enabled; auto with logdb. Qed.

Lemma core_logMouseButton a b s : core (logMouseButton a b s) = core s.
Proof. apply log_step_core; auto with logdb. Qed.

Lemma enabled_logMouseButton a b s : g_log_enabled (logMouseButton a b s) = g_log_enabled s.
Proof. apply log_step_enabled; auto with logdb. Qed.

Lemma core_logKeyboard a k s : core (logKeyboard a k s) = core s.
Proof. apply log_step_core; auto with logdb. Qed.

Lemma enabled_logKeyboard a k s : g_log_enabled (logKeyboard a k s) = g_log_enabled s.
Proof. apply log_step_enabled; auto with logdb. Qed.

Lemma core_logKeyboardPrint text len s : core (logKeyboardPrint text len s) = core s.
Proof. apply log_step_core; auto with logdb. Qed.

Lemma enabled_logKeyboardPrint text len s : g_log_enabled (logKeyboardPrint text len s) = g_log_enabled s.
Proof. apply log_step_enabled; auto with logdb. Qed.

Lemma core_logError ty d s : core (logError ty d s) = core s.
Proof. apply log_step_core; auto with logdb. Qed.

Lemma enabled_logError ty d s : g_log_enabled (logError ty d s) = g_log_enabled s.
Proof. apply log_step_enabled; auto with logdb. Qed.

Lemma core_logCRCError e r s : core (logCRCError e r s) = core s.
Proof. apply log_step_core; auto with logdb. Qed.

Lemma enabled_logCRCError e r s : g_log_enabled (logCRCError e r s) = g_log_enabled s.
Proof. apply log_step_enabled; auto with logdb. Qed.

Lemma core_logInvalidCommand c s : core (logInvalidCommand c s) = core s.
Proof. apply log_step_core; auto with logdb. Qed.

Lemma enabled_logInvalidCommand c s : g_log_enabled (logInvalidCommand c s) = g_log_enabled s.
Proof. apply log_step_enabled; auto with logdb. Qed.

Lemma core_logParamError c e r s : core (logParamError c e r s) = core s.
Proof. apply log_step_core; auto with logdb. Qed.

Lemma enabled_logParamError c e r s : g_log_enabled (logParamError c e r s) = g_log_enabled s.
Proof. apply log_step_enabled; auto with logdb. Qed.

Lemma core_logACK code s : core (logACK code s) = core s.
Proof. apply log_step_core; auto with logdb. Qed.

Lemma enabled_logACK code s : g_log_enabled (logACK code s) = g_log_enabled s.
Proof. apply log_step_enabled; auto with logdb. Qed.

Lemma core_logStats s : core (logStats s) = core s.
Proof. apply log_step_core; auto with logdb. Qed.

Lemma enabled_logStats s : g_log_enabled (logStats s) = g_log_enabled s.
Proof. apply log_step_enabled; auto with logdb. Qed.

Lemma core_print ts s : core (print ts s) = core s.
Proof. apply log_step_core; auto with logdb. Qed.

Lemma core_with_logger l s : core (with_logger l s) = core s.
Proof. apply log_step_core; auto with logdb. Qed.

Create Rewrite HintDb coredb.
#[local] Hint Rewrite core_print core_with_logger : coredb.
#[local] Hint Rewrite
  core_printTimestamp core_printLevel core_reset_counter core_logQueueStatus
  core_logPacketReceived core_logPacketData core_logCommand core_logInterrupt
  core_logLogStateChange core_logMouseMove core_logMouseButton core_logKeyboard
  core_logKeyboardPrint core_logError core_logCRCError core_logInvalidCommand
  core_logParamError core_logACK core_logStats : coredb.
#[local] Hint Rewrite
  enabled_printTimestamp enabled_printLevel enabled_reset_counter enabled_logQueueStatus
  enabled_logPacketReceived enabled_logPacketData enabled_logCommand enabled_logInterrupt
  enabled_logLogStateChange enabled_logMouseMove enabled_logMouseButton enabled_logKeyboard
  enabled_logKeyboardPrint enabled_logError enabled_logCRCError enabled_logInvalidCommand
  enabled_logParamError enabled_logACK enabled_logStats : coredb.

(** Rewriting under the logger calls: every field of the protocol side is
    read through [core], where the logger calls vanish. *)
Lemma lift_flag s : g_interrupt_flag s = c_flag (core s).
Proof. reflexivity. Qed.
Lemma lift_last_button_press s : last_button_press s = c_last_button_press (core s).
Proof. reflexivity. Qed.
Lemma lift_queue s : cmdQueue s = c_queue (core s).
Proof. reflexivity. Qed.
Lemma lift_rx_buffer s : rx_buffer s = c_rx_buffer (core s).
Proof. reflexivity. Qed.
Lemma lift_rx_state s : rx_state s = c_rx_state (core s).
Proof. reflexivity. Qed.
Lemma lift_rx_len s : rx_len s = c_rx_len (core s).
Proof. reflexivity. Qed.
Lemma lift_rx_idx s : rx_idx s = c_rx_idx (core s).
Proof. reflexivity. Qed.
Lemma lift_timed s : timedAction s = c_timed (core s).
Proof. reflexivity. Qed.
Lemma lift_last_stats_time s : last_stats_time s = c_last_stats_time (core s).
Proof. reflexivity. Qed.
Lemma lift_millis s : millis s = c_millis (core s).
Proof. reflexivity. Qed.
Lemma lift_acks s : acks (out s) = c_acks (core s).
Proof. reflexivity. Qed.
Lemma lift_hids s : hids (out s) = c_hids (core s).
Proof. reflexivity. Qed.

Ltac lift_core :=
  rewrite ?lift_flag, ?lift_last_button_press, ?lift_queue, ?lift_rx_buffer,
    ?lift_rx_state, ?lift_rx_len, ?lift_rx_idx, ?lift_timed, ?lift_last_stats_time,
    ?lift_millis, ?lift_acks, ?lift_hids.

Ltac lower_core :=
  cbn [core c_flag c_last_button_press c_queue c_rx_buffer c_rx_state c_rx_len
       c_rx_idx c_timed c_last_stats_time c_millis c_acks c_hids
       g_interrupt_flag g_log_enabled last_button_press cmdQueue logger rx_buffer
       rx_state rx_len rx_idx timedAction last_stats_time millis out
       with_flag with_log_enabled with_last_button_press with_queue with_logger
       with_rx_buffer with_rx_state with_rx_len with_rx_idx with_timed
       with_last_stats_time with_millis with_out emit print hid].

Ltac simp_core :=
  repeat (progress (lift_core; autorewrite with coredb; lower_core;
                    autorewrite with tracedb)).

(** ** The lines the logger writes *)

Lemma out_printTimestamp s :
  out (printTimestamp s)
  = out s ++ map Log (if g_log_enabled s then [TStr "["; TDec (millis s); TStr "ms] "] else []).
Proof.
  unfold printTimestamp. destruct (g_log_enabled s); cbn; [reflexivity|].
  now rewrite app_nil_r.
Qed.

Lemma out_printLevel level s :
  out (printLevel level s)
  = out s ++ map Log (if g_log_enabled s then [TStr "["; TStr level; TStr "] "] else []).
Proof.
  unfold printLevel. destruct (g_log_enabled s); cbn; [reflexivity|].
  now rewrite app_nil_r.
Qed.

Ltac open_state s :=
  destruct s as [fl en lbp q lg rb rs rl ri ta lst ms o].

Lemma out_logError ty d s :
  out (logError ty d s) = out s ++ map Log (error_line s ty d).
Proof.
  open_state s. unfold logError, error_line, printTimestamp, printLevel.
  destruct en; cbn.
  - rewrite <- !app_assoc. cbn. destruct d; reflexivity.
  - now rewrite app_nil_r.
Qed.

Lemma out_logACK code s :
  out (logACK code s) = out s ++ map Log (ack_line s code).
Proof.
  open_state s. unfold logACK, ack_line, printTimestamp, printLevel.
  destruct en; cbn.
  - destruct (code =? ACK_SUCCESS); cbn; rewrite <- !app_assoc; reflexivity.
  - now rewrite app_nil_r.
Qed.

Lemma out_sendAck code s :
  out (sendAck code s) = out s ++ [Ack code] ++ map Log (ack_line s code).
Proof.
  unfold sendAck. rewrite out_logACK. cbn. now rewrite <- app_assoc.
Qed.

Lemma out_logCommand name d s :
  out (logCommand name d s) = out s ++ map Log (exec_line s name d).
Proof.
  open_state s. unfold logCommand, exec_line, printTimestamp, printLevel.
  destruct en; cbn.
  - rewrite <- !app_assoc. cbn. destruct d; reflexivity.
  - now rewrite app_nil_r.
Qed.

Lemma out_logInterrupt s :
  out (logInterrupt s) = out s ++ map Log (interrupt_line s).
Proof.
  open_state s. unfold logInterrupt, interrupt_line, printTimestamp, printLevel.
  destruct en; cbn.
  - rewrite <- !app_assoc. reflexivity.
  - reflexivity.
Qed.

(** [sendAck] sends its byte whatever the logging switch says. *)
Lemma sendAck_step code s : log_step (emit (Ack code) s) (sendAck code s).
Proof. unfold sendAck. auto with logdb. Qed.

Lemma core_sendAck code s : core (sendAck code s) = core (emit (Ack code) s).
Proof. apply log_step_core, sendAck_step. Qed.

Lemma enabled_sendAck code s : g_log_enabled (sendAck code s) = g_log_enabled s.
Proof. apply (log_step_enabled _ _ (sendAck_step code s)). Qed.

#[local] Hint Rewrite core_sendAck enabled_sendAck : coredb.

(** ** Frame parser: S_LEN *)

(** C5: in S_LEN a length byte of 0 or above 31 is logged as
    INVALID_LENGTH (on the log channel, which writes while logging is
    enabled), answered with ACK_PARAM_ERROR and sends the parser back to
    S_SYNC; a length of 1..31 is recorded in [rx_len] and the parser enters
    S_PAYLOAD at index 0; the byte 0xAA is the length 170 and is rejected. *)
Theorem s_len_byte (s : State) (L : Z) :
  rx_state s = 1 ->
  let s' := rx_byte L s in
  (L = 0 \/ 31 < L ->
     rx_state s' = 0
     /\ out s' = out s ++ map Log (error_line s "INVALID_LENGTH" None)
                       ++ [Ack ACK_PARAM_ERROR]
                       ++ map Log (ack_line s ACK_PARAM_ERROR)
     /\ (g_log_enabled s = true -> In (Log (TStr "INVALID_LENGTH")) (out s')))
  /\ (1 <= L <= 31 ->
     rx_state s' = 2 /\ rx_len s' = L /\ rx_idx s' = 0
     /\ acks (out s') = acks (out s) /\ hids (out s') = hids (out s))
  /\ (L = SYNC_BYTE ->
     rx_len s' = 170 /\ rx_state s' = 0
     /\ acks (out s') = acks (out s) ++ [ACK_PARAM_ERROR]).
Proof.
  intros Hst s'.
  assert (Hbad : L = 0 \/ 31 < L ->
     s' = with_rx_state 0
            (sendAck ACK_PARAM_ERROR (logError "INVALID_LENGTH" None (with_rx_len L s)))).
  { intros Hb. subst s'. unfold rx_byte. rewrite Hst. cbn [Z.eqb Pos.eqb].
    cbn [rx_len with_rx_len].
    replace ((L =? 0) || (MAX_PACKET_SIZE - 1 <? L)) with true; [reflexivity|].
    symmetry. apply orb_true_iff. unfold MAX_PACKET_SIZE. destruct Hb; [left|right]; lia. }
  assert (Hout : L = 0 \/ 31 < L ->
     out s' = out s ++ map Log (error_line s "INVALID_LENGTH" None)
                    ++ [Ack ACK_PARAM_ERROR] ++ map Log (ack_line s ACK_PARAM_ERROR)).
  { intros Hb. rewrite (Hbad Hb). cbn [out with_rx_state].
    rewrite out_sendAck, out_logError. cbn [out with_rx_len].
    rewrite <- !app_assoc. f_equal. f_equal.
    unfold ack_line, stamp.
    rewrite (log_step_enabled (with_rx_len L s) (logError "INVALID_LENGTH" None (with_rx_len L s)))
      by auto with logdb.
    pose proof (log_step_core (with_rx_len L s) (logError "INVALID_LENGTH" None (with_rx_len L s))
                  ltac:(auto with logdb)) as Hc.
    apply (f_equal c_millis) in Hc. cbn in Hc. rewrite Hc. reflexivity. }
  split; [|split].
  - intros Hb. split; [|split].
    + rewrite (Hbad Hb). reflexivity.
    + exact (Hout Hb).
    + intros He. rewrite (Hout Hb). unfold error_line. rewrite He.
      apply in_or_app. right. apply in_or_app. left. cbn. tauto.
  - intros Hr. subst s'. unfold rx_byte. rewrite Hst. cbn [Z.eqb Pos.eqb].
    cbn [rx_len with_rx_len].
    replace ((L =? 0) || (MAX_PACKET_SIZE - 1 <? L)) with false.
    2:{ symmetry. apply orb_false_iff. unfold MAX_PACKET_SIZE. lia. }
    pose proof (log_step_core (with_rx_len L s) (logPacketReceived L (with_rx_len L s))
                  ltac:(auto with logdb)) as Hc.
    cbn. repeat split.
    + apply (f_equal c_rx_len) in Hc. exact Hc.
    + apply (f_equal c_acks) in Hc. exact Hc.
    + apply (f_equal c_hids) in Hc. exact Hc.
  - intros ->. assert (Hb : SYNC_BYTE = 0 \/ 31 < SYNC_BYTE) by (right; reflexivity).
    split; [|split].
    + rewrite (Hbad Hb). cbn [rx_len with_rx_state].
      pose proof (core_sendAck ACK_PARAM_ERROR
                    (logError "INVALID_LENGTH" None (with_rx_len SYNC_BYTE s))) as Hc.
      apply (f_equal c_rx_len) in Hc. cbn in Hc. rewrite Hc.
      pose proof (log_step_core (with_rx_len SYNC_BYTE s)
                    (logError "INVALID_LENGTH" None (with_rx_len SYNC_BYTE s))
                    ltac:(auto with logdb)) as Hc2.
      apply (f_equal c_rx_len) in Hc2. exact Hc2.
    + rewrite (Hbad Hb). reflexivity.
    + rewrite (Hout Hb). now rewrite !acks_app, !acks_log, app_nil_r.
Qed.

Lemma s_len_byte_witness :
  let s := rx_byte SYNC_BYTE init_state in
  rx_state s = 1
  /\ rx_state (rx_byte 0 s) = 0
  /\ rx_state (rx_byte 31 s) = 2
  /\ rx_state (rx_byte 32 s) = 0.
Proof.
  intros s.
  pose proof (s_len_byte s 0 eq_refl) as (H0 & _ & _).
  pose proof (s_len_byte s 31 eq_refl) as (_ & H31 & _).
  pose proof (s_len_byte s 32 eq_refl) as (H32 & _ & _).
  split; [reflexivity|].
  split; [apply H0; left; reflexivity|].
  split; [apply H31; lia|].
  apply H32; right; lia.
Defined.

(** ** The ring buffer *)

Lemma contents_from_map n slots h :
  0 <= h < QUEUE_SIZE ->
  contents_from n slots h
  = map (fun k => default packet0 (slots !! Z.to_nat ((h + Z.of_nat k) mod QUEUE_SIZE)))
        (seq 0 n).
Proof.
  unfold QUEUE_SIZE. revert h. induction n as [|n IH]; intros h Hh; [reflexivity|].
  cbn [contents_from seq map]. f_equal.
  - rewrite Z.add_0_r, Z.mod_small by lia. reflexivity.
  - rewrite IH by (apply Z.mod_pos_bound; lia).
    rewrite <- seq_shift, map_map. apply map_ext. intros k.
    rewrite Zplus_mod_idemp_l.
    replace (h + 1 + Z.of_nat k) with (h + Z.of_nat (S k)) by lia. reflexivity.
Qed.

Lemma queue_ok_init : queue_ok queue_init.
Proof. unfold queue_ok, queue_init, QUEUE_SIZE; cbn. repeat split; lia. Qed.

Lemma queue_ok_clear q : queue_ok q -> queue_ok (clear q).
Proof.
  unfold queue_ok, clear, QUEUE_SIZE; cbn. intros (Hl & _). repeat split; auto; lia.
Qed.

Lemma contents_clear q : contents (clear q) = [].
Proof. reflexivity. Qed.

(** [push] on a queue that is not full appends at the back. *)
Lemma push_ok p q :
  queue_ok q -> count q < QUEUE_SIZE ->
  exists q', push p q = (true, q')
             /\ contents q' = contents q ++ [p]
             /\ count q' = count q + 1
             /\ queue_ok q'.
Proof.
  unfold queue_ok, QUEUE_SIZE. intros (Hl & Hh & Hc & Ht) Hlt.
  unfold push, QUEUE_SIZE. destruct (16 <=? count q) eqn:E; [lia|].
  eexists. split; [reflexivity|].
  assert (Hu1 : u8 ((tail q + 1) mod 16) = (head q + (count q + 1)) mod 16).
  { unfold u8. rewrite Ht, Zplus_mod_idemp_l, Z.add_assoc.
    apply Z.mod_small. pose proof (Z.mod_pos_bound (head q + count q + 1) 16). lia. }
  assert (Hu2 : u8 (count q + 1) = count q + 1) by (unfold u8; apply Z.mod_small; lia).
  rewrite Hu1, Hu2. unfold contents. cbn [queue head tail count].
  split; [|split; [reflexivity|]].
  - rewrite !contents_from_map by (unfold QUEUE_SIZE; lia). unfold QUEUE_SIZE.
    replace (Z.to_nat (count q + 1)) with (S (Z.to_nat (count q))) by lia.
    rewrite seq_S, map_app. cbn [map Nat.add]. f_equal.
    + apply map_ext_in. intros k Hk. apply in_seq in Hk.
      rewrite list_lookup_insert_ne; [reflexivity|].
      rewrite Ht. intros Heq. apply Z2Nat.inj in Heq;
        try (apply Z.mod_pos_bound; lia).
      pose proof (Z.div_mod (head q + count q) 16 ltac:(lia)).
      pose proof (Z.div_mod (head q + Z.of_nat k) 16 ltac:(lia)).
      pose proof (Z.mod_pos_bound (head q + count q) 16 ltac:(lia)).
      lia.
    + rewrite Z2Nat.id by lia. rewrite <- Ht.
      rewrite list_lookup_insert_eq; [reflexivity|].
      rewrite Hl, Ht. pose proof (Z.mod_pos_bound (head q + count q) 16 ltac:(lia)). lia.
  - rewrite length_insert. repeat split; try lia; try exact Hl.
Qed.

(** [push] on a full queue refuses and changes nothing. *)
Lemma push_full p q : QUEUE_SIZE <= count q -> push p q = (false, q).
Proof. intros H. unfold push. destruct (QUEUE_SIZE <=? count q) eqn:E; [reflexivity|lia]. Qed.

(** [pop] on a queue that is not empty takes the front. *)
Lemma pop_ok q :
  queue_ok q -> count q <> 0 ->
  exists p q', pop q = Some (p, q')
               /\ contents q = p :: contents q'
               /\ count q' = count q - 1
               /\ queue_ok q'.
Proof.
  unfold queue_ok, QUEUE_SIZE. intros (Hl & Hh & Hc & Ht) Hne.
  unfold pop, QUEUE_SIZE. destruct (count q =? 0) eqn:E; [lia|].
  do 2 eexists. split; [reflexivity|].
  assert (Hu1 : u8 ((head q + 1) mod 16) = (head q + 1) mod 16).
  { unfold u8. apply Z.mod_small. pose proof (Z.mod_pos_bound (head q + 1) 16). lia. }
  assert (Hu2 : u8 (count q - 1) = count q - 1) by (unfold u8; apply Z.mod_small; lia).
  rewrite Hu1, Hu2. unfold contents. cbn [queue head tail count].
  split; [|split; [reflexivity|]].
  - replace (Z.to_nat (count q)) with (S (Z.to_nat (count q - 1))) by lia.
    reflexivity.
  - repeat split; try lia; try (apply Z.mod_pos_bound; lia); try exact Hl.
    rewrite Ht, Zplus_mod_idemp_l. f_equal. lia.
Qed.

Lemma contents_length q : length (contents q) = Z.to_nat (count q).
Proof.
  unfold contents. generalize (head q). induction (Z.to_nat (count q)); intros; cbn; auto.
Qed.

Lemma logPacketData_eq data len s :
  logPacketData data len s = print (data_line s data len) s.
Proof.
  open_state s. unfold logPacketData, data_line. destruct en; cbn; [reflexivity|].
  unfold print, with_out; cbn. now rewrite app_nil_r.
Qed.

Lemma error_line_print ts s ty d : error_line (print ts s) ty d = error_line s ty d.
Proof. reflexivity. Qed.

Lemma ack_line_core s1 s2 code :
  core s1 = core s2 -> g_log_enabled s1 = g_log_enabled s2 ->
  ack_line s1 code = ack_line s2 code.
Proof.
  intros Hc He. unfold ack_line, stamp. rewrite He.
  apply (f_equal c_millis) in Hc. cbn in Hc. now rewrite Hc.
Qed.

(** ** Dispatcher: admission to the queue *)

(** The dispatcher on a payload whose opcode is not of the control plane. *)
Lemma processPacket_data_plane data len s :
  1 <= len <= 31 ->
  byte_at data 0 <> CMD_PAUSE_LOG -> byte_at data 0 <> CMD_RESUME_LOG ->
  byte_at data 0 <> CMD_CLEAR_QUEUE ->
  let s1 := logPacketData data len s in
  let packet := mkPacket (byte_at data 0) (take (Z.to_nat (len - 1)) (drop 1 data))
                         (len - 1) (millis s) in
  processPacket data len s
  = match push packet (cmdQueue s) with
    | (true, q) => sendAck ACK_SUCCESS (logQueueStatus (with_queue q s1))
    | (false, _) => sendAck ACK_PARAM_ERROR (logError "QUEUE_FULL" None s1)
    end.
Proof.
  intros Hlen H1 H2 H3 s1 packet. unfold processPacket.
  destruct (len <? 1) eqn:E; [lia|]. fold s1. cbn [cmd].
  assert (Hu : u8 (len - 1) = len - 1) by (unfold u8; apply Z.mod_small; lia).
  rewrite Hu.
  assert (Hm : millis s1 = millis s) by (subst s1; simp_core; reflexivity).
  assert (Hq : cmdQueue s1 = cmdQueue s) by (subst s1; simp_core; reflexivity).
  rewrite Hm, Hq. fold packet.
  destruct (byte_at data 0 =? CMD_PAUSE_LOG) eqn:E1; [lia|].
  destruct (byte_at data 0 =? CMD_RESUME_LOG) eqn:E2; [lia|].
  destruct (byte_at data 0 =? CMD_CLEAR_QUEUE) eqn:E3; [lia|].
  reflexivity.
Qed.

(** C4: a payload whose opcode is none of 0x20, 0x21, 0x22 (known or not)
    is dropped when the queue holds 16 entries, with a QUEUE_FULL line on
    the log channel and ACK_PARAM_ERROR; otherwise the command is appended
    to the queue, stamped with the current reading of the millisecond
    counter, and ACK_SUCCESS is sent.  No HID call is made in either case. *)
Theorem admission (s : State) (data : list Z) (len : Z) :
  1 <= len <= 31 ->
  queue_ok (cmdQueue s) ->
  byte_at data 0 <> CMD_PAUSE_LOG ->
  byte_at data 0 <> CMD_RESUME_LOG ->
  byte_at data 0 <> CMD_CLEAR_QUEUE ->
  let packet := mkPacket (byte_at data 0) (take (Z.to_nat (len - 1)) (drop 1 data))
                         (len - 1) (millis s) in
  let s' := processPacket data len s in
  (length (contents (cmdQueue s)) = 16%nat ->
     cmdQueue s' = cmdQueue s
     /\ out s' = out s ++ map Log (data_line s data len)
                       ++ map Log (error_line s "QUEUE_FULL" None)
                       ++ [Ack ACK_PARAM_ERROR]
                       ++ map Log (ack_line s ACK_PARAM_ERROR)
     /\ (g_log_enabled s = true -> In (Log (TStr "QUEUE_FULL")) (out s')))
  /\ (length (contents (cmdQueue s)) <> 16%nat ->
     contents (cmdQueue s') = contents (cmdQueue s) ++ [packet]
     /\ timestamp packet = millis s
     /\ acks (out s') = acks (out s) ++ [ACK_SUCCESS]
     /\ queue_ok (cmdQueue s'))
  /\ hids (out s') = hids (out s)
  /\ timedAction s' = timedAction s.
Proof.
  intros Hlen Hok H1 H2 H3 packet s'.
  pose proof (processPacket_data_plane data len s Hlen H1 H2 H3) as Heq.
  cbv zeta in Heq. fold packet in Heq. fold s' in Heq.
  rewrite contents_length.
  assert (Hcount : 0 <= count (cmdQueue s) <= 16) by (destruct Hok as (_ & _ & ? & _); exact H).
  assert (Hfull : count (cmdQueue s) = 16 ->
            s' = sendAck ACK_PARAM_ERROR
                         (logError "QUEUE_FULL" None (logPacketData data len s))).
  { intros Hc. rewrite Heq, push_full by (unfold QUEUE_SIZE; lia). reflexivity. }
  assert (Hout : count (cmdQueue s) = 16 ->
            out s' = out s ++ map Log (data_line s data len)
                       ++ map Log (error_line s "QUEUE_FULL" None)
                       ++ [Ack ACK_PARAM_ERROR]
                       ++ map Log (ack_line s ACK_PARAM_ERROR)).
  { intros Hc. rewrite (Hfull Hc), out_sendAck, out_logError, logPacketData_eq.
    rewrite error_line_print. cbn [out print with_out].
    rewrite <- !app_assoc. do 3 f_equal. cbn [app]. do 2 f_equal.
    apply ack_line_core; simp_core; reflexivity. }
  split; [|split; [|split]].
  - intros Hc. assert (Hc' : count (cmdQueue s) = 16) by lia.
    split; [|split].
    + rewrite (Hfull Hc'). simp_core. reflexivity.
    + exact (Hout Hc').
    + intros He. rewrite (Hout Hc'). unfold error_line. rewrite He.
      apply in_or_app. right. apply in_or_app. right. apply in_or_app. left.
      cbn. tauto.
  - intros Hc. assert (Hc' : count (cmdQueue s) < QUEUE_SIZE) by (unfold QUEUE_SIZE; lia).
    destruct (push_ok packet (cmdQueue s) Hok Hc') as (q' & Hp & Hcont & _ & Hok').
    rewrite Hp in Heq. rewrite Heq. simp_core. auto.
  - destruct (push packet (cmdQueue s)) as [[|] q'] eqn:Hp;
      rewrite Heq; simp_core; reflexivity.
  - destruct (push packet (cmdQueue s)) as [[|] q'] eqn:Hp;
      rewrite Heq; simp_core; reflexivity.
Qed.

Lemma admission_witness :
  let full := Nat.iter 16 (processPacket [0x99; 1] 2) init_state in
  contents (cmdQueue (processPacket [0x99; 1] 2 init_state)) = [mkPacket 0x99 [1] 1 0]
  /\ cmdQueue (processPacket [0x99; 1] 2 full) = cmdQueue full.
Proof.
  intros full.
  assert (Hlen : 1 <= 2 <= 31) by lia.
  assert (Hok0 : queue_ok (cmdQueue init_state))
    by (vm_compute; repeat split; congruence).
  assert (Hok16 : queue_ok (cmdQueue full))
    by (vm_compute; repeat split; congruence).
  assert (H1 : byte_at [0x99; 1] 0 <> CMD_PAUSE_LOG) by (vm_compute; congruence).
  assert (H2 : byte_at [0x99; 1] 0 <> CMD_RESUME_LOG) by (vm_compute; congruence).
  assert (H3 : byte_at [0x99; 1] 0 <> CMD_CLEAR_QUEUE) by (vm_compute; congruence).
  pose proof (admission init_state [0x99; 1] 2 Hlen Hok0 H1 H2 H3) as (_ & Hpush & _).
  pose proof (admission full [0x99; 1] 2 Hlen Hok16 H1 H2 H3) as (Hdrop & _).
  assert (Hn0 : length (contents (cmdQueue init_state)) <> 16%nat)
    by (vm_compute; congruence).
  assert (Hn16 : length (contents (cmdQueue full)) = 16%nat)
    by (vm_compute; reflexivity).
  destruct (Hpush Hn0) as (Hc & _). destruct (Hdrop Hn16) as (Hq & _).
  split; [exact Hc | exact Hq].
Defined.

(** ** The protocol side does not depend on the log channel

    Each function of the sketch maps states with the same protocol side to
    states with the same protocol side. *)

(** The fields of two states with the same protocol side. *)
Ltac core_fields H :=
  let H' := fresh in
  pose proof H as H'; unfold core in H';
  injection H' as ?Hflag ?Hlbp ?Hqueue ?Hrxb ?Hrxs ?Hrxl ?Hrxi ?Htimed ?Hlst ?Hms ?Hacks ?Hhids.

Ltac core_prim :=
  let H := fresh in
  intros H; core_fields H; unfold core; lower_core;
  rewrite ?acks_app, ?hids_app; congruence.

Lemma with_flag_congr v s1 s2 :
  core s1 = core s2 -> core (with_flag v s1) = core (with_flag v s2).
Proof. core_prim. Qed.

Lemma with_log_enabled_congr v1 v2 s1 s2 :
  core s1 = core s2 -> core (with_log_enabled v1 s1) = core (with_log_enabled v2 s2).
Proof. core_prim. Qed.

Lemma with_last_button_press_congr v s1 s2 :
  core s1 = core s2 -> core (with_last_button_press v s1) = core (with_last_button_press v s2).
Proof. core_prim. Qed.

Lemma with_queue_congr v s1 s2 :
  core s1 = core s2 -> core (with_queue v s1) = core (with_queue v s2).
Proof. core_prim. Qed.

Lemma with_rx_buffer_congr v s1 s2 :
  core s1 = core s2 -> core (with_rx_buffer v s1) = core (with_rx_buffer v s2).
Proof. core_prim. Qed.

Lemma with_rx_state_congr v s1 s2 :
  core s1 = core s2 -> core (with_rx_state v s1) = core (with_rx_state v s2).
Proof. core_prim. Qed.

Lemma with_rx_len_congr v s1 s2 :
  core s1 = core s2 -> core (with_rx_len v s1) = core (with_rx_len v s2).
Proof. core_prim. Qed.

Lemma with_rx_idx_congr v s1 s2 :
  core s1 = core s2 -> core (with_rx_idx v s1) = core (with_rx_idx v s2).
Proof. core_prim. Qed.

Lemma with_timed_congr v s1 s2 :
  core s1 = core s2 -> core (with_timed v s1) = core (with_timed v s2).
Proof. core_prim. Qed.

Lemma with_last_stats_time_congr v s1 s2 :
  core s1 = core s2 -> core (with_last_stats_time v s1) = core (with_last_stats_time v s2).
Proof. core_prim. Qed.

Lemma with_millis_congr v s1 s2 :
  core s1 = core s2 -> core (with_millis v s1) = core (with_millis v s2).
Proof. core_prim. Qed.

Lemma emit_Ack_congr c s1 s2 :
  core s1 = core s2 -> core (emit (Ack c) s1) = core (emit (Ack c) s2).
Proof. core_prim. Qed.

Lemma hid_congr c s1 s2 :
  core s1 = core s2 -> core (hid c s1) = core (hid c s2).
Proof. core_prim. Qed.

Lemma sendAck_congr c s1 s2 :
  core s1 = core s2 -> core (sendAck c s1) = core (sendAck c s2).
Proof. intros H. rewrite !core_sendAck. now apply emit_Ack_congr. Qed.

Lemma with_log_enabled_core v s : core (with_log_enabled v s) = core s.
Proof. reflexivity. Qed.

#[local] Hint Rewrite with_log_enabled_core : coredb.

(** Peel the calls that both sides share. *)
Ltac core_congr :=
  repeat first
    [ assumption
    | reflexivity
    | progress autorewrite with coredb
    | apply hid_congr
    | apply sendAck_congr
    | apply emit_Ack_congr
    | apply with_flag_congr
    | apply with_last_button_press_congr
    | apply with_queue_congr
    | apply with_rx_buffer_congr
    | apply with_rx_state_congr
    | apply with_rx_len_congr
    | apply with_rx_idx_congr
    | apply with_timed_congr
    | apply with_last_stats_time_congr
    | apply with_millis_congr ].

Lemma async_congr a s1 s2 :
  core s1 = core s2 -> core (async a s1) = core (async a s2).
Proof.
  intros H. core_fields H. destruct a as [|dt]; cbn [async].
  - unfold buttonISR. rewrite Hms, Hlbp. case_match; core_congr.
  - rewrite Hms. core_congr.
Qed.

Lemma asyncs_congr l s1 s2 :
  core s1 = core s2 -> core (asyncs l s1) = core (asyncs l s2).
Proof.
  revert s1 s2. induction l as [|a l IH]; intros s1 s2 H; [exact H|].
  cbn. apply IH, async_congr, H.
Qed.

Lemma kb_print_loop_congr n mid p i s1 s2 :
  core s1 = core s2 ->
  core (kb_print_loop n mid p i s1) = core (kb_print_loop n mid p i s2).
Proof.
  revert mid i s1 s2. induction n as [|n IH]; intros mid i s1 s2 H; [exact H|].
  cbn [kb_print_loop].
  pose proof (asyncs_congr (hd [] mid) s1 s2 H) as Ha. core_fields Ha.
  rewrite Hflag. case_match; [exact Ha|].
  apply IH. now apply hid_congr.
Qed.

Lemma dispatch_congr mid pkt s1 s2 :
  core s1 = core s2 -> core (dispatch mid pkt s1) = core (dispatch mid pkt s2).
Proof.
  intros H. core_fields H. unfold dispatch. rewrite Hms, Hqueue.
  repeat case_match; core_congr.
  apply kb_print_loop_congr. core_congr.
Qed.

Lemma executeCommand_congr mid pkt s1 s2 :
  core s1 = core s2 -> core (executeCommand mid pkt s1) = core (executeCommand mid pkt s2).
Proof.
  intros H. core_fields H. unfold executeCommand. rewrite Hflag.
  case_match; core_congr. now apply dispatch_congr.
Qed.

Lemma processPacket_congr data len s1 s2 :
  core s1 = core s2 -> core (processPacket data len s1) = core (processPacket data len s2).
Proof.
  intros H. unfold processPacket. case_match; core_congr.
  assert (Hd : core (logPacketData data len s1) = core (logPacketData data len s2))
    by core_congr.
  core_fields Hd. rewrite Hms. cbn [cmd]. case_match.
  - apply sendAck_congr, executeCommand_congr, Hd.
  - rewrite Hqueue. destruct (push _ _) as [[|] q']; core_congr.
Qed.

Lemma service_interrupt_congr s1 s2 :
  core s1 = core s2 -> core (service_interrupt s1) = core (service_interrupt s2).
Proof.
  intros H. unfold service_interrupt.
  replace (g_interrupt_flag s1) with (g_interrupt_flag s2)
    by (core_fields H; congruence).
  case_match; [|exact H].
  apply with_flag_congr, sendAck_congr.
  assert (Hl : core (logInterrupt s1) = core (logInterrupt s2)) by core_congr.
  generalize dependent (logInterrupt s1). generalize dependent (logInterrupt s2).
  intros a2 a1 Hl.
  assert (Hh : core (hid (MouseRelease (Z.lor (Z.lor MOUSE_LEFT MOUSE_RIGHT) MOUSE_MIDDLE))
                         (hid KbReleaseAll (with_queue (clear (cmdQueue a1)) a1)))
             = core (hid (MouseRelease (Z.lor (Z.lor MOUSE_LEFT MOUSE_RIGHT) MOUSE_MIDDLE))
                         (hid KbReleaseAll (with_queue (clear (cmdQueue a2)) a2)))).
  { core_fields Hl. rewrite Hqueue. core_congr. }
  generalize dependent (hid (MouseRelease (Z.lor (Z.lor MOUSE_LEFT MOUSE_RIGHT) MOUSE_MIDDLE))
                         (hid KbReleaseAll (with_queue (clear (cmdQueue a1)) a1))).
  generalize dependent (hid (MouseRelease (Z.lor (Z.lor MOUSE_LEFT MOUSE_RIGHT) MOUSE_MIDDLE))
                         (hid KbReleaseAll (with_queue (clear (cmdQueue a2)) a2))).
  intros b2 b1 Hh. core_fields Hh. rewrite Htimed.
  destruct (active (timedAction b2)); [|exact Hh].
  destruct (action_type (timedAction b2) =? 0); core_congr.
Qed.

Lemma poll_timed_congr s1 s2 :
  core s1 = core s2 -> core (poll_timed s1) = core (poll_timed s2).
Proof.
  intros H. core_fields H. unfold poll_timed. rewrite Htimed, Hms.
  repeat case_match; core_congr.
Qed.

Lemma rx_byte_congr b s1 s2 :
  core s1 = core s2 -> core (rx_byte b s1) = core (rx_byte b s2).
Proof.
  intros H. core_fields H. unfold rx_byte. rewrite Hrxs.
  destruct (rx_state s2 =? 0); [case_match; core_congr|].
  destruct (rx_state s2 =? 1).
  { cbn [rx_len with_rx_len]. case_match; core_congr. }
  destruct (rx_state s2 =? 2); [|exact H].
  rewrite Hrxi, Hrxb.
  cbn [rx_idx rx_len rx_buffer with_rx_idx with_rx_buffer]. rewrite Hrxl.
  case_match; core_congr.
  case_match; core_congr.
  apply processPacket_congr. core_congr.
Qed.

Lemma receive_congr input s1 s2 :
  core s1 = core s2 -> core (receive input s1) = core (receive input s2).
Proof.
  revert s1 s2. induction input as [|[before b] input IH]; intros s1 s2 H; [exact H|].
  cbn [receive]. apply IH, rx_byte_congr, asyncs_congr, H.
Qed.

Lemma run_queue_congr mid s1 s2 :
  core s1 = core s2 -> core (run_queue mid s1) = core (run_queue mid s2).
Proof.
  intros H. core_fields H. unfold run_queue. rewrite Htimed, Hqueue.
  case_match; [|exact H].
  destruct (pop (cmdQueue s2)) as [[pkt q']|]; [|exact H].
  apply executeCommand_congr. core_congr.
Qed.

Lemma report_stats_congr s1 s2 :
  core s1 = core s2 -> core (report_stats s1) = core (report_stats s2).
Proof.
  intros H. core_fields H. unfold report_stats. rewrite Hms, Hlst.
  case_match; [|exact H].
  pose proof (core_logStats s1) as E1. pose proof (core_logStats s2) as E2.
  pose proof (f_equal c_millis E1) as M1. pose proof (f_equal c_millis E2) as M2.
  cbn in M1, M2. rewrite M1, M2, Hms. core_congr.
Qed.

Lemma loop_congr i s1 s2 :
  core s1 = core s2 -> core (loop i s1) = core (loop i s2).
Proof.
  intros H. unfold loop.
  apply report_stats_congr, asyncs_congr, run_queue_congr, asyncs_congr,
        receive_congr, poll_timed_congr, asyncs_congr, service_interrupt_congr,
        asyncs_congr, H.
Qed.

Lemma run_congr inputs s1 s2 :
  core s1 = core s2 -> core (run inputs s1) = core (run inputs s2).
Proof.
  revert s1 s2. induction inputs as [|i inputs IH]; intros s1 s2 H; [exact H|].
  cbn. apply IH, loop_congr, H.
Qed.

(** ** The interrupt flag and the logger

    No method of the logger reads or writes [g_interrupt_flag]: setting
    the flag before or after a call gives the same state. *)

Ltac flag_comm s :=
  destruct s as [fl [|] lbp q lg rb rs rl ri ta lst ms o];
  cbn; repeat case_match; reflexivity.

Lemma flag_printTimestamp b s :
  printTimestamp (with_flag b s) = with_flag b (printTimestamp s).
Proof. unfold printTimestamp. flag_comm s. Qed.

Lemma flag_printLevel level b s :
  printLevel level (with_flag b s) = with_flag b (printLevel level s).
Proof. unfold printLevel. flag_comm s. Qed.

Lemma flag_reset_counter b s :
  reset_counter (with_flag b s) = with_flag b (reset_counter s).
Proof. unfold reset_counter. flag_comm s. Qed.

Lemma flag_logQueueStatus b s :
  logQueueStatus (with_flag b s) = with_flag b (logQueueStatus s).
Proof. unfold logQueueStatus. flag_comm s. Qed.

Lemma flag_logPacketReceived len b s :
  logPacketReceived len (with_flag b s) = with_flag b (logPacketReceived len s).
Proof. unfold logPacketReceived. flag_comm s. Qed.

Lemma flag_logPacketData data len b s :
  logPacketData data len (with_flag b s) = with_flag b (logPacketData data len s).
Proof. unfold logPacketData. flag_comm s. Qed.

Lemma flag_logCommand name details b s :
  logCommand name details (with_flag b s) = with_flag b (logCommand name details s).
Proof. unfold logCommand. flag_comm s. Qed.

Lemma flag_logInterrupt b s :
  logInterrupt (with_flag b s) = with_flag b (logInterrupt s).
Proof. unfold logInterrupt. flag_comm s. Qed.

Lemma flag_logLogStateChange e b s :
  logLogStateChange e (with_flag b s) = with_flag b (logLogStateChange e s).
Proof. unfold logLogStateChange. flag_comm s. Qed.

Lemma flag_logMouseMove x y w b s :
  logMouseMove x y w (with_flag b s) = with_flag b (logMouseMove x y w s).
Proof. unfold logMouseMove. flag_comm s. Qed.

Lemma flag_logMouseButton a k b s :
  logMouseButton a k (with_flag b s) = with_flag b (logMouseButton a k s).
Proof. unfold logMouseButton. flag_comm s. Qed.

Lemma flag_logKeyboard a k b s :
  logKeyboard a k (with_flag b s) = with_flag b (logKeyboard a k s).
Proof. unfold logKeyboard. flag_comm s. Qed.

Lemma flag_logKeyboardPrint text len b s :
  logKeyboardPrint text len (with_flag b s) = with_flag b (logKeyboardPrint text len s).
Proof. unfold logKeyboardPrint. flag_comm s. Qed.

Lemma flag_logError ty d b s :
  logError ty d (with_flag b s) = with_flag b (logError ty d s).
Proof. unfold logError. flag_comm s. Qed.

Lemma flag_logCRCError e r b s :
  logCRCError e r (with_flag b s) = with_flag b (logCRCError e r s).
Proof. unfold logCRCError. flag_comm s. Qed.

Lemma flag_logInvalidCommand c b s :
  logInvalidCommand c (with_flag b s) = with_flag b (logInvalidCommand c s).
Proof. unfold logInvalidCommand. flag_comm s. Qed.

Lemma flag_logParamError c e r b s :
  logParamError c e r (with_flag b s) = with_flag b (logParamError c e r s).
Proof. unfold logParamError. flag_comm s. Qed.

Lemma flag_logACK code b s :
  logACK code (with_flag b s) = with_flag b (logACK code s).
Proof. unfold logACK. flag_comm s. Qed.

Lemma flag_logStats b s :
  logStats (with_flag b s) = with_flag b (logStats s).
Proof. unfold logStats. flag_comm s. Qed.

Lemma flag_hid c b s : hid c (with_flag b s) = with_flag b (hid c s).
Proof. reflexivity. Qed.

Lemma flag_with_timed t b s : with_timed t (with_flag b s) = with_flag b (with_timed t s).
Proof. reflexivity. Qed.

Lemma flag_with_queue q b s : with_queue q (with_flag b s) = with_flag b (with_queue q s).
Proof. reflexivity. Qed.

Lemma flag_with_log_enabled e b s : with_log_enabled e (with_flag b s) = with_flag b (with_log_enabled e s).
Proof. reflexivity. Qed.

Lemma flag_emit e b s : emit e (with_flag b s) = with_flag b (emit e s).
Proof. reflexivity. Qed.

Create Rewrite HintDb flagdb.
#[local] Hint Rewrite
  flag_printTimestamp flag_printLevel flag_reset_counter flag_logQueueStatus
  flag_logPacketReceived flag_logPacketData flag_logCommand flag_logInterrupt
  flag_logLogStateChange flag_logMouseMove flag_logMouseButton flag_logKeyboard
  flag_logKeyboardPrint flag_logError flag_logCRCError flag_logInvalidCommand
  flag_logParamError flag_logACK flag_logStats flag_hid
  flag_with_timed flag_with_queue flag_with_log_enabled flag_emit : flagdb.

(** ** Executor: KB_PRINT *)

Lemma out_async a s : out (async a s) = out s.
Proof. destruct a; cbn; [unfold buttonISR; case_match|]; reflexivity. Qed.

Lemma out_asyncs l s : out (asyncs l s) = out s.
Proof.
  revert s. induction l as [|a l IH]; intros s; [reflexivity|].
  cbn. change (out (asyncs l (async a s)) = out s). now rewrite IH, out_async.
Qed.

Lemma isr_view_async a s1 s2 :
  isr_view s1 = isr_view s2 -> isr_view (async a s1) = isr_view (async a s2).
Proof.
  unfold isr_view. intros H. injection H as Hf Hl Hm.
  destruct a; cbn; [unfold buttonISR|]; rewrite ?Hm, ?Hl; [case_match|]; cbn; congruence.
Qed.

Lemma isr_view_asyncs l s1 s2 :
  isr_view s1 = isr_view s2 -> isr_view (asyncs l s1) = isr_view (asyncs l s2).
Proof.
  revert s1 s2. induction l as [|a l IH]; intros s1 s2 H; [exact H|].
  cbn. apply IH, isr_view_async, H.
Qed.

Lemma rounds_view n mid s1 s2 :
  isr_view s1 = isr_view s2 -> rounds n mid s1 = rounds n mid s2.
Proof.
  revert mid s1 s2. induction n as [|n IH]; intros mid s1 s2 H; [reflexivity|].
  cbn [rounds]. pose proof (isr_view_asyncs (hd [] mid) s1 s2 H) as Ha.
  assert (Hf : g_interrupt_flag (asyncs (hd [] mid) s1)
             = g_interrupt_flag (asyncs (hd [] mid) s2))
    by (unfold isr_view in Ha; congruence).
  rewrite Hf. case_match; [reflexivity|]. f_equal. now apply IH.
Qed.

Lemma rounds_le n mid s : (rounds n mid s <= n)%nat.
Proof.
  revert mid s. induction n as [|n IH]; intros mid s; cbn [rounds]; [lia|].
  case_match; [lia|]. specialize (IH (tl mid) (asyncs (hd [] mid) s)). lia.
Qed.

(** With nothing asynchronous and the flag clear, every round writes. *)
Lemma rounds_quiet n s : g_interrupt_flag s = false -> rounds n [] s = n.
Proof.
  intros Hf. induction n as [|n IH]; [reflexivity|].
  cbn [rounds hd tl asyncs fold_left]. now rewrite Hf, IH.
Qed.

(** The loop writes the bytes of its first [rounds] rounds, in order, and
    ends with the flag set when it stops early. *)
Lemma kb_print_loop_spec n mid p i s :
  (i + n <= length p)%nat ->
  let s' := kb_print_loop n mid p (Z.of_nat i) s in
  out s' = out s ++ map (fun b => Hid (KbWrite b)) (take (rounds n mid s) (drop i p))
  /\ ((rounds n mid s < n)%nat -> g_interrupt_flag s' = true).
Proof.
  revert mid i s. induction n as [|n IH]; intros mid i s Hlen.
  - cbn. rewrite ?take_0; cbn; rewrite ?app_nil_r. split; [reflexivity|lia].
  - cbn [kb_print_loop rounds].
    set (s1 := asyncs (hd [] mid) s).
    assert (Ho : out s1 = out s) by apply out_asyncs.
    destruct (g_interrupt_flag s1) eqn:Hf.
    + rewrite ?take_0; cbn; rewrite ?app_nil_r. split; [exact Ho|intros _; exact Hf].
    + destruct (lookup_lt_is_Some_2 p i ltac:(lia)) as [b Hb].
      assert (Hat : byte_at p (Z.of_nat i) = b)
        by (unfold byte_at; rewrite Nat2Z.id, Hb; reflexivity).
      rewrite Hat. rewrite (drop_S p b i Hb). cbn [take map].
      replace (Z.of_nat i + 1) with (Z.of_nat (S i)) by lia.
      destruct (IH (tl mid) (S i) (hid (KbWrite b) s1) ltac:(lia)) as (IHo & IHf).
      rewrite (rounds_view n (tl mid) (hid (KbWrite b) s1) s1 eq_refl) in IHo, IHf.
      split.
      * rewrite IHo. cbn [out hid emit with_out]. rewrite Ho, <- app_assoc. reflexivity.
      * intros Hlt. apply IHf. lia.
Qed.

(** The [switch] of [executeCommand] on an opcode other than KB_PRINT
    neither reads nor writes the interrupt flag, and nothing asynchronous
    can reach it. *)
Lemma dispatch_blind_to_flag mid pkt b s :
  cmd pkt <> CMD_KB_PRINT ->
  dispatch mid pkt (with_flag b s) = with_flag b (dispatch [] pkt s).
Proof.
  intros Hc. unfold dispatch.
  cbn [millis cmdQueue with_flag].
  repeat case_match; try lia; autorewrite with flagdb; reflexivity.
Qed.

(** C7: KB_PRINT goes through the parameter bytes in order; each round
    first tests the interrupt flag and stops for good when it is set,
    otherwise calls [Keyboard.write] on the byte.  The bytes written are
    the first [k] parameter bytes, for the number [k] of rounds before the
    flag is first seen set; all of them when nothing sets the flag.  The
    [switch] of every other opcode is blind to the flag. *)
Theorem kb_print_writes_prefix (mid : list (list Async)) (pkt : CommandPacket) (s : State) :
  cmd pkt = CMD_KB_PRINT ->
  Z.of_nat (length (params pkt)) = param_len pkt ->
  let s' := executeCommand mid pkt s in
  let k := if g_interrupt_flag s then O
           else rounds (Z.to_nat (param_len pkt)) mid s in
  hids (out s') = hids (out s) ++ map KbWrite (take k (params pkt))
  /\ acks (out s') = acks (out s)
  /\ (k <= length (params pkt))%nat
  /\ ((k < length (params pkt))%nat -> g_interrupt_flag s' = true)
  /\ (g_interrupt_flag s = false -> mid = [] -> k = length (params pkt))
  /\ (forall other mid' b, cmd other <> CMD_KB_PRINT ->
        dispatch mid' other (with_flag b s) = with_flag b (dispatch [] other s)).
Proof.
  intros Hc Hlen s' k.
  assert (Hn : Z.to_nat (param_len pkt) = length (params pkt)) by lia.
  assert (Hmain :
    hids (out s') = hids (out s) ++ map KbWrite (take k (params pkt))
    /\ acks (out s') = acks (out s)
    /\ ((k < length (params pkt))%nat -> g_interrupt_flag s' = true)).
  { subst s' k. unfold executeCommand. destruct (g_interrupt_flag s) eqn:Hf.
    - simp_core. rewrite ?take_0; cbn; rewrite ?app_nil_r. auto.
    - unfold dispatch. rewrite Hc. cbn [Z.eqb Pos.eqb CMD_KB_PRINT CMD_MOUSE_MOVE
        CMD_MOUSE_PRESS CMD_MOUSE_RELEASE CMD_MOUSE_CLICK CMD_MOUSE_PRESS_TIMED
        CMD_KB_PRESS CMD_KB_RELEASE CMD_KB_WRITE CMD_KB_RELEASE_ALL].
      set (s0 := logKeyboardPrint (params pkt) (param_len pkt) (logCommand "KB_PRINT" None s)).
      assert (Hcore : core s0 = core s) by (subst s0; autorewrite with coredb; reflexivity).
      assert (Hview : isr_view s0 = isr_view s)
        by (core_fields Hcore; unfold isr_view; congruence).
      rewrite Hn.
      pose proof (kb_print_loop_spec (length (params pkt)) mid (params pkt) 0 s0
                    ltac:(lia)) as Hloop.
      cbv zeta in Hloop. change (Z.of_nat 0) with 0 in Hloop.
      rewrite drop_0 in Hloop. destruct Hloop as (Ho & Hfl).
      rewrite (rounds_view _ mid s0 s Hview) in Ho, Hfl.
      core_fields Hcore.
      rewrite Ho, hids_app, acks_app, Hhids, Hacks.
      split; [|split].
      + f_equal. clear. induction (take _ _) as [|x l IH]; [reflexivity|].
        cbn. now rewrite <- IH.
      + rewrite <- app_nil_r. f_equal. clear.
        induction (take _ _) as [|x l IH]; [reflexivity|]. exact IH.
      + exact Hfl. }
  destruct Hmain as (H1 & H2 & H3).
  split; [exact H1|]. split; [exact H2|]. split; [|split; [exact H3|split]].
  - subst k. destruct (g_interrupt_flag s); [lia|]. rewrite Hn. apply rounds_le.
  - intros Hf ->. subst k. rewrite Hf, Hn. now apply rounds_quiet.
  - intros other mid' b Ho. now apply dispatch_blind_to_flag.
Qed.

Lemma kb_print_writes_prefix_witness :
  let pkt := mkPacket CMD_KB_PRINT [97; 98; 99] 3 0 in
  hids (out (executeCommand [[]; []; [Tick 100; Button]] pkt init_state))
  = [KbWrite 97; KbWrite 98].
Proof.
  intros pkt.
  exact (proj1 (kb_print_writes_prefix [[]; []; [Tick 100; Button]] pkt init_state
                  eq_refl eq_refl)).
Defined.

(** KB_PRINT does read the flag between its bytes: the same command in
    the same state writes all its bytes or only some, as the button
    dictates. *)
Example kb_print_observes_flag :
  let pkt := mkPacket CMD_KB_PRINT [97; 98; 99] 3 0 in
  hids (out (executeCommand [] pkt init_state)) = [KbWrite 97; KbWrite 98; KbWrite 99]
  /\ hids (out (executeCommand [[]; [Tick 100; Button]] pkt init_state)) = [KbWrite 97].
Proof. split; reflexivity. Qed.

(** ** Executor: arity *)

(** Decide the comparisons of a known opcode. *)
Ltac eval_cmd :=
  cbn [Z.eqb Pos.eqb CMD_MOUSE_MOVE CMD_MOUSE_PRESS CMD_MOUSE_RELEASE CMD_MOUSE_CLICK
       CMD_MOUSE_PRESS_TIMED CMD_KB_PRESS CMD_KB_RELEASE CMD_KB_WRITE
       CMD_KB_RELEASE_ALL CMD_KB_PRINT CMD_KB_PRESS_TIMED CMD_PAUSE_LOG
       CMD_RESUME_LOG CMD_CLEAR_QUEUE].

(** A command of the wrong length makes no HID call, sends no ACK and
    leaves the queue and the timed action as they are. *)
Lemma arity_mismatch_dropped mid pkt s :
  (cmd pkt = CMD_MOUSE_MOVE \/ cmd pkt = CMD_MOUSE_PRESS_TIMED
   \/ cmd pkt = CMD_KB_PRESS_TIMED) /\ param_len pkt <> 3
  \/ (cmd pkt = CMD_MOUSE_PRESS \/ cmd pkt = CMD_MOUSE_RELEASE
      \/ cmd pkt = CMD_MOUSE_CLICK \/ cmd pkt = CMD_KB_PRESS
      \/ cmd pkt = CMD_KB_RELEASE \/ cmd pkt = CMD_KB_WRITE) /\ param_len pkt <> 1 ->
  core (executeCommand mid pkt s) = core s.
Proof.
  intros H. unfold executeCommand. case_match; [apply core_logCommand|].
  unfold dispatch.
  destruct H as [[[Hc|[Hc|Hc]] Hn]|[[Hc|[Hc|[Hc|[Hc|[Hc|Hc]]]]] Hn]];
    rewrite Hc; eval_cmd; case_match; try lia;
    first [reflexivity | apply core_logParamError].
Qed.

(** MOUSE_MOVE of the wrong length writes a PARAM_ERROR line (while
    logging is enabled). *)
Lemma mouse_move_mismatch_logged mid pkt s :
  g_interrupt_flag s = false ->
  cmd pkt = CMD_MOUSE_MOVE -> param_len pkt <> 3 ->
  out (executeCommand mid pkt s)
  = out s ++ map Log (error_line s "PARAM_ERROR"
       (Some (TFmt "CMD 0x%02X needs %d bytes, got %d"
                   [AInt CMD_MOUSE_MOVE; AInt 3; AInt (param_len pkt)]))).
Proof.
  intros Hf Hc Hn. unfold executeCommand, dispatch. rewrite Hf, Hc. eval_cmd.
  destruct (param_len pkt =? 3) eqn:E; [lia|]. cbn [negb].
  unfold logParamError. destruct (g_log_enabled s) eqn:He; cbn [negb].
  - apply out_logError.
  - unfold error_line. rewrite He. cbn. now rewrite app_nil_r.
Qed.

(** The other opcodes with an arity return at once: the state, log
    channel included, is as before. *)
Lemma arity_mismatch_silent mid pkt s :
  g_interrupt_flag s = false ->
  (cmd pkt = CMD_MOUSE_PRESS_TIMED \/ cmd pkt = CMD_KB_PRESS_TIMED) /\ param_len pkt <> 3
  \/ (cmd pkt = CMD_MOUSE_PRESS \/ cmd pkt = CMD_MOUSE_RELEASE
      \/ cmd pkt = CMD_MOUSE_CLICK \/ cmd pkt = CMD_KB_PRESS
      \/ cmd pkt = CMD_KB_RELEASE \/ cmd pkt = CMD_KB_WRITE) /\ param_len pkt <> 1 ->
  executeCommand mid pkt s = s.
Proof.
  intros Hf H. unfold executeCommand. rewrite Hf. unfold dispatch.
  destruct H as [[[Hc|Hc] Hn]|[[Hc|[Hc|[Hc|[Hc|[Hc|Hc]]]]] Hn]];
    rewrite Hc; eval_cmd; case_match; try lia; reflexivity.
Qed.

(** C3, on the code: a MOUSE_PRESS frame without its button byte is
    queued (ACK_SUCCESS), then dropped by the executor with no HID call
    and no further ACK, and with logging enabled nothing about the
    mismatch reaches the log channel and the error counter stays at 0; the
    same mistake on MOUSE_MOVE is logged as PARAM_ERROR and counted. *)
Theorem arity_mismatch_log_entry_missing :
  let press := loop (mkInput [] [] (quiet (frame [CMD_MOUSE_PRESS])) [] [] []) init_state in
  let move := loop (mkInput [] [] (quiet (frame [CMD_MOUSE_MOVE; 5])) [] [] []) init_state in
  (acks (out press) = [ACK_SUCCESS] /\ hids (out press) = []
   /\ contents (cmdQueue press) = [] /\ g_log_enabled press = true
   /\ logged "PARAM_ERROR" (out press) = false
   /\ logged "ERROR" (out press) = false
   /\ error_counter (logger press) = 0)
  /\ (acks (out move) = [ACK_SUCCESS] /\ hids (out move) = []
      /\ contents (cmdQueue move) = [] /\ g_log_enabled move = true
      /\ logged "PARAM_ERROR" (out move) = true
      /\ error_counter (logger move) = 1).
Proof. vm_compute. repeat split; reflexivity. Qed.

Lemma logCommand_eq name d s : logCommand name d s = print (exec_line s name d) s.
Proof.
  open_state s. unfold logCommand, exec_line, printTimestamp, printLevel, print.
  destruct en; cbn.
  - rewrite <- !app_assoc. destruct d; reflexivity.
  - now rewrite app_nil_r.
Qed.

(** ** Executor: when a command leaves the queue *)

(** A command met with the interrupt flag set is skipped: a line on the
    log channel, nothing else. *)
Lemma executeCommand_skipped mid pkt s :
  g_interrupt_flag s = true ->
  executeCommand mid pkt s
  = print (exec_line s "CMD_SKIPPED" (Some (TStr "Interrupted"))) s.
Proof. intros Hf. unfold executeCommand. rewrite Hf. apply logCommand_eq. Qed.

(** C2, as the code has it: section 4 of the loop takes a command from
    the queue exactly when no timed action is active and the queue is not
    empty.  The interrupt flag is not looked at before the pop but after
    it, at the top of [executeCommand]: a command popped while the flag is
    set has left the queue and is skipped, with no HID call, no ACK and no
    change to the timed action. *)
Theorem executor_dequeue (mid : list (list Async)) (s : State) :
  queue_ok (cmdQueue s) ->
  let s' := run_queue mid s in
  (active (timedAction s) = true \/ contents (cmdQueue s) = [] -> s' = s)
  /\ (active (timedAction s) = false -> contents (cmdQueue s) <> [] ->
      exists pkt q',
        contents (cmdQueue s) = pkt :: contents q'
        /\ queue_ok q'
        /\ s' = executeCommand mid pkt (with_queue q' s)
        /\ (g_interrupt_flag s = true ->
            cmdQueue s' = q'
            /\ timedAction s' = timedAction s
            /\ out s' = out s ++ map Log (exec_line s "CMD_SKIPPED"
                                            (Some (TStr "Interrupted"))))).
Proof.
  intros Hok s'. subst s'. unfold run_queue, isEmpty.
  assert (Hemp : contents (cmdQueue s) = [] <-> count (cmdQueue s) = 0).
  { pose proof (contents_length (cmdQueue s)) as Hl.
    destruct Hok as (_ & _ & Hc & _). split; intros H.
    - rewrite H in Hl. cbn in Hl. lia.
    - apply length_zero_iff_nil. rewrite Hl, H. reflexivity. }
  split.
  - intros [Ha|He].
    + rewrite Ha. reflexivity.
    + apply Hemp in He. rewrite He. cbn. now rewrite andb_false_r.
  - intros Ha Hne. rewrite Ha.
    assert (Hc : count (cmdQueue s) <> 0) by (intros Hc; apply Hne, Hemp, Hc).
    destruct (pop_ok (cmdQueue s) Hok Hc) as (pkt & q' & Hpop & Hcont & _ & Hok').
    destruct (count (cmdQueue s) =? 0) eqn:E; [lia|]. cbn [negb andb].
    rewrite Hpop. exists pkt, q'.
    split; [exact Hcont|]. split; [exact Hok'|]. split; [reflexivity|].
    intros Hf. rewrite executeCommand_skipped by exact Hf.
    split; [reflexivity|]. split; reflexivity.
Qed.

Lemma executor_dequeue_witness :
  let s := with_timed (mkTimed true 1 65 0 5000) init_state in
  queue_ok (cmdQueue s) /\ run_queue [] s = s.
Proof.
  intros s.
  assert (Hok : queue_ok (cmdQueue s)) by (vm_compute; repeat split; congruence).
  split; [exact Hok|].
  exact (proj1 (executor_dequeue [] s Hok) (or_introl eq_refl)).
Defined.

(** C2, the claim as stated fails: in one iteration of the loop a
    MOUSE_CLICK frame is received and queued, the button fires before
    section 4, and section 4 pops the command with the interrupt flag
    set. *)
Lemma pop_while_interrupt_pending :
  let s := asyncs [Tick 100; Button]
             (receive (quiet (frame [CMD_MOUSE_CLICK; 1]))
                (poll_timed (service_interrupt init_state))) in
  g_interrupt_flag s = true
  /\ contents (cmdQueue s) = [mkPacket CMD_MOUSE_CLICK [1] 1 0]
  /\ contents (cmdQueue (run_queue [] s)) = []
  /\ hids (out (run_queue [] s)) = []
  /\ loop (mkInput [] [] (quiet (frame [CMD_MOUSE_CLICK; 1])) [Tick 100; Button] [] [])
          init_state
     = report_stats (run_queue [] s).
Proof. vm_compute. repeat split; reflexivity. Qed.

(** ** Control plane: CLEAR_QUEUE *)

(** The dispatcher on a payload whose opcode is of the control plane. *)
Lemma processPacket_control data len s :
  1 <= len <= 31 ->
  byte_at data 0 = CMD_PAUSE_LOG \/ byte_at data 0 = CMD_RESUME_LOG
  \/ byte_at data 0 = CMD_CLEAR_QUEUE ->
  let s1 := logPacketData data len s in
  let packet := mkPacket (byte_at data 0) (take (Z.to_nat (len - 1)) (drop 1 data))
                         (len - 1) (millis s) in
  processPacket data len s = sendAck ACK_SUCCESS (executeCommand [] packet s1).
Proof.
  intros Hlen Hc s1 packet. unfold processPacket.
  destruct (len <? 1) eqn:E; [lia|]. fold s1. cbn [cmd].
  assert (Hu : u8 (len - 1) = len - 1) by (unfold u8; apply Z.mod_small; lia).
  rewrite Hu.
  assert (Hm : millis s1 = millis s) by (subst s1; simp_core; reflexivity).
  rewrite Hm. fold packet.
  destruct Hc as [Hc|[Hc|Hc]]; rewrite Hc; reflexivity.
Qed.

(** C8, as the code has it: a CLEAR_QUEUE frame is answered with
    ACK_SUCCESS in every case and never touches the timed action or the HID
    device.  With no interrupt pending the command empties the queue and
    changes nothing else but the log channel; on an empty queue the FIFO
    content is as before.  With the interrupt flag set the command is
    skipped and the queue is left as it is. *)
Theorem clear_queue_frame (s : State) (data : list Z) (len : Z) :
  1 <= len <= 31 ->
  byte_at data 0 = CMD_CLEAR_QUEUE ->
  let s' := processPacket data len s in
  acks (out s') = acks (out s) ++ [ACK_SUCCESS]
  /\ hids (out s') = hids (out s)
  /\ timedAction s' = timedAction s
  /\ (g_interrupt_flag s = false ->
      contents (cmdQueue s') = []
      /\ isEmpty (cmdQueue s') = true
      /\ core s' = core (emit (Ack ACK_SUCCESS) (with_queue (clear (cmdQueue s)) s))
      /\ (contents (cmdQueue s) = [] -> contents (cmdQueue s') = contents (cmdQueue s))
      /\ forall mid pkt, cmd pkt = CMD_CLEAR_QUEUE ->
           executeCommand mid pkt s
           = print (exec_line s "QUEUE_CLEARED" None)
                   (with_queue (clear (cmdQueue s)) s))
  /\ (g_interrupt_flag s = true -> cmdQueue s' = cmdQueue s).
Proof.
  intros Hlen Hc s'.
  pose proof (processPacket_control data len s Hlen (or_intror (or_intror Hc))) as Heq.
  cbv zeta in Heq. fold s' in Heq. rewrite Hc in Heq.
  set (pkt0 := mkPacket CMD_CLEAR_QUEUE _ _ _) in Heq.
  set (s1 := logPacketData data len s) in Heq.
  assert (Hcore1 : core s1 = core s) by (subst s1; apply core_logPacketData).
  assert (Hexec : forall mid pkt x, cmd pkt = CMD_CLEAR_QUEUE -> g_interrupt_flag x = false ->
            executeCommand mid pkt x
            = print (exec_line x "QUEUE_CLEARED" None) (with_queue (clear (cmdQueue x)) x)).
  { intros mid pkt x Hp Hf. unfold executeCommand, dispatch. rewrite Hf, Hp. eval_cmd.
    now rewrite logCommand_eq. }
  assert (Hf1 : g_interrupt_flag s1 = g_interrupt_flag s)
    by (core_fields Hcore1; assumption).
  assert (Hq1 : cmdQueue s1 = cmdQueue s) by (core_fields Hcore1; assumption).
  assert (Hcases : core s' = core (emit (Ack ACK_SUCCESS)
            (if g_interrupt_flag s then s else with_queue (clear (cmdQueue s)) s))).
  { rewrite Heq, core_sendAck. apply emit_Ack_congr.
    destruct (g_interrupt_flag s) eqn:Hf.
    - rewrite executeCommand_skipped by congruence. now rewrite core_print.
    - rewrite (Hexec [] pkt0 s1 eq_refl) by congruence. rewrite core_print, Hq1.
      now apply with_queue_congr. }
  assert (Hacks : acks (out s') = acks (out s) ++ [ACK_SUCCESS]).
  { apply (f_equal c_acks) in Hcases. cbn [core c_acks] in Hcases. rewrite Hcases.
    destruct (g_interrupt_flag s); cbn; now rewrite acks_app. }
  assert (Hhids : hids (out s') = hids (out s)).
  { apply (f_equal c_hids) in Hcases. cbn [core c_hids] in Hcases. rewrite Hcases.
    destruct (g_interrupt_flag s); cbn; rewrite hids_app; cbn; now rewrite app_nil_r. }
  assert (Htimed : timedAction s' = timedAction s).
  { apply (f_equal c_timed) in Hcases. cbn [core c_timed] in Hcases. rewrite Hcases.
    destruct (g_interrupt_flag s); reflexivity. }
  split; [exact Hacks|]. split; [exact Hhids|]. split; [exact Htimed|]. split.
  - intros Hf. rewrite Hf in Hcases.
    assert (Hq : cmdQueue s' = clear (cmdQueue s))
      by (apply (f_equal c_queue) in Hcases; exact Hcases).
    rewrite Hq. split; [reflexivity|]. split; [reflexivity|]. split; [exact Hcases|].
    split; [intros He; now rewrite He|].
    intros mid pkt Hp. now apply Hexec.
  - intros Hf. rewrite Hf in Hcases.
    apply (f_equal c_queue) in Hcases. exact Hcases.
Qed.

Lemma clear_queue_frame_witness :
  let s := receive (quiet (frame [CMD_MOUSE_CLICK; 1])) init_state in
  contents (cmdQueue s) = [mkPacket CMD_MOUSE_CLICK [1] 1 0]
  /\ contents (cmdQueue (processPacket [CMD_CLEAR_QUEUE] 1 s)) = []
  /\ cmdQueue (processPacket [CMD_CLEAR_QUEUE] 1 (with_flag true s))
     = cmdQueue (with_flag true s).
Proof.
  intros s.
  assert (Hlen : 1 <= 1 <= 31) by lia.
  pose proof (clear_queue_frame s [CMD_CLEAR_QUEUE] 1 Hlen eq_refl) as (_ & _ & _ & H0 & _).
  pose proof (clear_queue_frame (with_flag true s) [CMD_CLEAR_QUEUE] 1 Hlen eq_refl)
    as (_ & _ & _ & _ & H1).
  split; [reflexivity|]. split.
  - exact (proj1 (H0 eq_refl)).
  - exact (H1 eq_refl).
Defined.

(** C8, the claim as stated fails.  With one command in the queue the
    button fires, then a CLEAR_QUEUE frame arrives in the same receive
    loop: the frame is answered with ACK_SUCCESS and the queue still holds
    the command.  And on a queue that is empty after one push and one pop,
    CLEAR_QUEUE moves [head] and [tail] from 1 to 0: the FIFO content is
    as before, the state of the queue is not. *)
Lemma clear_queue_skipped_when_interrupted :
  let s := asyncs [Tick 100; Button]
             (receive (quiet (frame [CMD_MOUSE_CLICK; 1])) init_state) in
  let s' := receive (quiet (frame [CMD_CLEAR_QUEUE])) s in
  let e := loop (mkInput [] [] (quiet (frame [CMD_MOUSE_CLICK; 1])) [] [] [])
                init_state in
  let e' := receive (quiet (frame [CMD_CLEAR_QUEUE])) e in
  (g_interrupt_flag s = true
   /\ contents (cmdQueue s) = [mkPacket CMD_MOUSE_CLICK [1] 1 0]
   /\ acks (out s') = acks (out s) ++ [ACK_SUCCESS]
   /\ contents (cmdQueue s') = [mkPacket CMD_MOUSE_CLICK [1] 1 0]
   /\ logged "CMD_SKIPPED" (out s') = true)
  /\ (g_interrupt_flag e = false
      /\ contents (cmdQueue e) = [] /\ contents (cmdQueue e') = []
      /\ head (cmdQueue e) = 1 /\ tail (cmdQueue e) = 1
      /\ head (cmdQueue e') = 0 /\ tail (cmdQueue e') = 0).
Proof. vm_compute. repeat split; reflexivity. Qed.

(** ** The log channel and the protocol *)

(** On the protocol side a PAUSE_LOG or RESUME_LOG frame does nothing
    but its ACK_SUCCESS, whatever the logging switch was. *)
Lemma log_control_protocol data len s :
  1 <= len <= 31 ->
  byte_at data 0 = CMD_PAUSE_LOG \/ byte_at data 0 = CMD_RESUME_LOG ->
  core (processPacket data len s) = core (emit (Ack ACK_SUCCESS) s).
Proof.
  intros Hlen Hc.
  rewrite processPacket_control by tauto.
  rewrite core_sendAck. apply emit_Ack_congr.
  unfold executeCommand. case_match; [now autorewrite with coredb|].
  unfold dispatch. cbn [cmd].
  destruct Hc as [->| ->]; eval_cmd; now autorewrite with coredb.
Qed.

(** C9: two runs on the same inputs (the same bytes, the same button
    events at the same points, the same passing of time) from states that
    differ only on the side of the log channel (the logging switch, the
    counters of the logger, the text written so far) send the same ACK
    bytes and make the same HID calls, and stay equal on the protocol
    side. *)
Theorem logging_is_protocol_neutral (inputs : list LoopInput) (s1 s2 : State) :
  core s1 = core s2 ->
  acks (out (run inputs s1)) = acks (out (run inputs s2))
  /\ hids (out (run inputs s1)) = hids (out (run inputs s2))
  /\ core (run inputs s1) = core (run inputs s2).
Proof.
  intros H. pose proof (run_congr inputs s1 s2 H) as Hr.
  split; [exact (f_equal c_acks Hr)|]. split; [exact (f_equal c_hids Hr)|exact Hr].
Qed.

Lemma logging_is_protocol_neutral_witness :
  let inputs :=
    [ mkInput [] [] (quiet (frame [CMD_KB_PRESS_TIMED; 65; 19; 136])) [] [] [];
      mkInput [Tick 100; Button] [] (quiet (frame [CMD_MOUSE_MOVE; 5; 251; 0])) [] [] [] ] in
  acks (out (run inputs init_state))
  = acks (out (run inputs (with_log_enabled false init_state)))
  /\ hids (out (run inputs init_state))
     = hids (out (run inputs (with_log_enabled false init_state))).
Proof.
  intros inputs.
  pose proof (logging_is_protocol_neutral inputs init_state
                (with_log_enabled false init_state) eq_refl) as (Ha & Hh & _).
  split; [exact Ha | exact Hh].
Defined.

(** ** Servicing the interrupt *)

Lemma land_ldiff_same a b : Z.land (Z.ldiff a b) b = 0.
Proof.
  apply Z.bits_inj'. intros n Hn.
  rewrite Z.land_spec, Z.ldiff_spec, Z.bits_0. now destruct (Z.testbit b n), (Z.testbit a n).
Qed.

Lemma land_ldiff_ldiff a b c : Z.land (Z.ldiff (Z.ldiff a b) c) b = 0.
Proof.
  apply Z.bits_inj'. intros n Hn.
  rewrite Z.land_spec, !Z.ldiff_spec, Z.bits_0.
  now destruct (Z.testbit b n), (Z.testbit a n), (Z.testbit c n).
Qed.

Lemma held_app tr1 tr2 :
  HidModel.held (tr1 ++ tr2) = fold_left HidModel.step (hids tr2) (HidModel.held tr1).
Proof. unfold HidModel.held. now rewrite hids_app, fold_left_app. Qed.

(** What the servicing emits, in order. *)
Lemma out_service_interrupt s :
  g_interrupt_flag s = true ->
  out (service_interrupt s)
  = out s ++ map Log (interrupt_line s)
          ++ [Hid KbReleaseAll; Hid (MouseRelease 7)]
          ++ (if active (timedAction s)
              then [Hid (if action_type (timedAction s) =? 0
                         then MouseRelease (button_or_key (timedAction s))
                         else KbRelease (button_or_key (timedAction s)))]
              else [])
          ++ [Ack ACK_INTERRUPTED]
          ++ map Log (ack_line s ACK_INTERRUPTED).
Proof.
  intros Hf. unfold service_interrupt. rewrite Hf.
  cbn [out with_flag]. rewrite out_sendAck.
  pose proof (core_logInterrupt s) as Hc1.
  pose proof (enabled_logInterrupt s) as He1.
  pose proof (out_logInterrupt s) as Ho1.
  generalize dependent (logInterrupt s). intros s1 Hc1 He1 Ho1.
  core_fields Hc1.
  cbn [timedAction hid emit with_out with_queue]. rewrite Htimed.
  assert (Hal : forall x, millis x = millis s -> g_log_enabled x = g_log_enabled s ->
                  ack_line x ACK_INTERRUPTED = ack_line s ACK_INTERRUPTED).
  { intros x Hm He. unfold ack_line, stamp. now rewrite Hm, He. }
  destruct (active (timedAction s)); [destruct (action_type (timedAction s) =? 0)|];
    cbn [out hid emit with_out with_queue with_timed];
    rewrite Ho1, Hal by (cbn; assumption);
    rewrite <- !app_assoc; reflexivity.
Qed.

Lemma queue_service_interrupt s :
  g_interrupt_flag s = true -> cmdQueue (service_interrupt s) = clear (cmdQueue s).
Proof.
  destruct s as [fl [|] lbp q lg rb rs rl ri [[|] ty bk st du] lst ms o];
    cbn [g_interrupt_flag]; intros ->; unfold service_interrupt; cbn;
    try destruct (ty =? 0); reflexivity.
Qed.

Lemma timed_service_interrupt s :
  g_interrupt_flag s = true -> active (timedAction (service_interrupt s)) = false.
Proof.
  destruct s as [fl [|] lbp q lg rb rs rl ri [[|] ty bk st du] lst ms o];
    cbn [g_interrupt_flag]; intros ->; unfold service_interrupt; cbn;
    try destruct (ty =? 0); reflexivity.
Qed.

Lemma flag_service_interrupt s : g_interrupt_flag (service_interrupt s) = false.
Proof.
  unfold service_interrupt. destruct (g_interrupt_flag s) eqn:Hf; [reflexivity|exact Hf].
Qed.

(** What the HID device holds after the releases of the servicing. *)
Lemma held_service tr ls release c ls2 :
  HidModel.held (tr ++ map Log ls ++ [Hid KbReleaseAll; Hid (MouseRelease 7)]
                    ++ release ++ [Ack c] ++ map Log ls2)
  = fold_left HidModel.step (hids release)
      (HidModel.mkHeld [] (Z.ldiff (HidModel.buttons (HidModel.held tr)) 7)).
Proof.
  rewrite held_app. rewrite !hids_app, !hids_log.
  autorewrite with tracedb.
  cbn [app fold_left HidModel.step HidModel.keys HidModel.buttons].
  reflexivity.
Qed.

(** C1: servicing a pending interrupt writes the interrupt line on the
    log channel, clears the queue, calls [Keyboard.releaseAll()] and
    [Mouse.release] on the three buttons, releases the target of an active
    timed action and deactivates it, sends the one byte ACK_INTERRUPTED
    and clears the flag, in this order.  Afterwards the queue is empty,
    the timed action is inactive, no key is held, none of the three mouse
    buttons is held and the button of the timed action is not held. *)
Theorem interrupt_service (s : State) :
  g_interrupt_flag s = true ->
  let s' := service_interrupt s in
  let t := timedAction s in
  let release :=
    if active t
    then [Hid (if action_type t =? 0 then MouseRelease (button_or_key t)
               else KbRelease (button_or_key t))]
    else [] in
  out s' = out s ++ map Log (interrupt_line s)
                 ++ [Hid KbReleaseAll; Hid (MouseRelease 7)]
                 ++ release
                 ++ [Ack ACK_INTERRUPTED]
                 ++ map Log (ack_line s ACK_INTERRUPTED)
  /\ acks (out s') = acks (out s) ++ [0xF4]
  /\ cmdQueue s' = clear (cmdQueue s)
  /\ contents (cmdQueue s') = []
  /\ isEmpty (cmdQueue s') = true
  /\ active (timedAction s') = false
  /\ g_interrupt_flag s' = false
  /\ HidModel.keys (HidModel.held (out s')) = []
  /\ Z.land (HidModel.buttons (HidModel.held (out s'))) 7 = 0
  /\ (active t = true -> action_type t = 0 ->
      Z.land (HidModel.buttons (HidModel.held (out s'))) (button_or_key t) = 0).
Proof.
  intros Hf s' t release.
  pose proof (out_service_interrupt s Hf) as Hout.
  pose proof (queue_service_interrupt s Hf) as Hq.
  fold s' in Hout, Hq. fold t in Hout. fold release in Hout.
  split; [exact Hout|]. split.
  { rewrite Hout. autorewrite with tracedb. subst release.
    destruct (active t); autorewrite with tracedb; reflexivity. }
  split; [exact Hq|]. split; [now rewrite Hq|]. split; [now rewrite Hq|].
  split; [exact (timed_service_interrupt s Hf)|].
  split; [exact (flag_service_interrupt s)|].
  rewrite Hout, held_service. subst release.
  destruct (active t) eqn:Ea.
  - destruct (action_type t =? 0) eqn:Ety;
      cbn [hids flat_map app fold_left HidModel.step HidModel.keys HidModel.buttons filter].
    + split; [reflexivity|]. split; [apply land_ldiff_ldiff|]. intros _ _.
      apply land_ldiff_same.
    + split; [reflexivity|]. split; [apply land_ldiff_same|]. intros _ Hty.
      rewrite Hty in Ety. discriminate.
  - cbn [hids flat_map app fold_left HidModel.step HidModel.keys HidModel.buttons].
    split; [reflexivity|]. split; [apply land_ldiff_same|]. intros Hx. discriminate.
Qed.

Lemma interrupt_service_witness :
  let s := asyncs [Tick 100; Button]
             (run [mkInput [] [] (quiet (frame [CMD_MOUSE_PRESS_TIMED; 8; 19; 136]
                                         ++ frame [CMD_MOUSE_CLICK; 1])) [] [] []]
                  init_state) in
  g_interrupt_flag s = true
  /\ acks (out (service_interrupt s)) = acks (out s) ++ [0xF4]
  /\ contents (cmdQueue (service_interrupt s)) = []
  /\ active (timedAction (service_interrupt s)) = false.
Proof.
  intros s.
  assert (Hf : g_interrupt_flag s = true) by (vm_compute; reflexivity).
  pose proof (interrupt_service s Hf) as (_ & Ha & _ & Hc & _ & Ht & _).
  split; [exact Hf|]. split; [exact Ha|]. split; [exact Hc | exact Ht].
Defined.

(** ** Frame parser: S_PAYLOAD *)

(** [crc8] reads the first [len] bytes only. *)
Lemma crc8_loop_ext n d1 d2 i crc :
  0 <= i ->
  (forall j, i <= j < i + Z.of_nat n -> byte_at d1 j = byte_at d2 j) ->
  crc8_loop n d1 i crc = crc8_loop n d2 i crc.
Proof.
  revert i crc. induction n as [|n IH]; intros i crc Hi H; [reflexivity|].
  cbn [crc8_loop]. rewrite (H i) by lia. apply IH; [lia|].
  intros j Hj. apply H. lia.
Qed.

Lemma crc8_prefix payload rest :
  crc8 (payload ++ rest) (Z.of_nat (length payload))
  = crc8 payload (Z.of_nat (length payload)).
Proof.
  unfold crc8. apply crc8_loop_ext; [lia|].
  intros j Hj. unfold byte_at. rewrite lookup_app_l by lia. reflexivity.
Qed.

(** What is asynchronous does not touch the parser, and the reverse. *)
Lemma async_with_rx_idx a v s : async a (with_rx_idx v s) = with_rx_idx v (async a s).
Proof. destruct a; cbn; [unfold buttonISR; cbn; case_match|]; reflexivity. Qed.

Lemma async_with_rx_buffer a v s :
  async a (with_rx_buffer v s) = with_rx_buffer v (async a s).
Proof. destruct a; cbn; [unfold buttonISR; cbn; case_match|]; reflexivity. Qed.

Lemma asyncs_with_rx_idx l v s : asyncs l (with_rx_idx v s) = with_rx_idx v (asyncs l s).
Proof.
  revert s. induction l as [|a l IH]; intros s; [reflexivity|].
  cbn. rewrite async_with_rx_idx. apply IH.
Qed.

Lemma asyncs_with_rx_buffer l v s :
  asyncs l (with_rx_buffer v s) = with_rx_buffer v (asyncs l s).
Proof.
  revert s. induction l as [|a l IH]; intros s; [reflexivity|].
  cbn. rewrite async_with_rx_buffer. apply IH.
Qed.

Lemma asyncs_app l1 l2 s : asyncs (l1 ++ l2) s = asyncs l2 (asyncs l1 s).
Proof. apply fold_left_app. Qed.

Lemma queue_asyncs l s : cmdQueue (asyncs l s) = cmdQueue s.
Proof.
  revert s. induction l as [|a l IH]; intros s; [reflexivity|].
  cbn. change (fold_left _ l (async a s)) with (asyncs l (async a s)). rewrite IH.
  destruct a; cbn; [unfold buttonISR; case_match|]; reflexivity.
Qed.

Lemma rx_async a s :
  rx_buffer (async a s) = rx_buffer s /\ rx_state (async a s) = rx_state s
  /\ rx_len (async a s) = rx_len s /\ rx_idx (async a s) = rx_idx s.
Proof. destruct a; cbn; [unfold buttonISR; case_match|]; auto. Qed.

Lemma rx_asyncs l s :
  rx_buffer (asyncs l s) = rx_buffer s /\ rx_state (asyncs l s) = rx_state s
  /\ rx_len (asyncs l s) = rx_len s /\ rx_idx (asyncs l s) = rx_idx s.
Proof.
  revert s. induction l as [|a l IH]; intros s; [auto|].
  cbn. change (fold_left _ l (async a s)) with (asyncs l (async a s)).
  destruct (IH (async a s)) as (H1 & H2 & H3 & H4), (rx_async a s) as (A1 & A2 & A3 & A4).
  repeat split; congruence.
Qed.

(** A byte of the payload that is not the last one is stored, no more. *)
Lemma rx_byte_store b s :
  rx_state s = 2 -> 0 <= rx_idx s < rx_len s -> rx_len s <= 31 ->
  rx_byte b s
  = with_rx_idx (rx_idx s + 1)
      (with_rx_buffer (<[Z.to_nat (rx_idx s) := b]> (rx_buffer s)) s).
Proof.
  intros Hs Hi Hl. unfold rx_byte. rewrite Hs. cbn [Z.eqb Pos.eqb].
  assert (Hu : u8 (rx_idx s + 1) = rx_idx s + 1) by (unfold u8; apply Z.mod_small; lia).
  rewrite Hu. cbn [rx_idx rx_len with_rx_idx with_rx_buffer].
  destruct (rx_idx s + 1 =? rx_len s + 1) eqn:E; [lia|reflexivity].
Qed.

(** The byte after the payload closes the frame. *)
Lemma rx_byte_close b s :
  rx_state s = 2 -> rx_idx s = rx_len s -> 0 <= rx_len s <= 31 ->
  let s1 := with_rx_idx (rx_len s + 1)
              (with_rx_buffer (<[Z.to_nat (rx_len s) := b]> (rx_buffer s)) s) in
  rx_byte b s
  = with_rx_idx 0 (with_rx_state 0
      (if byte_at (rx_buffer s1) (rx_len s) =? crc8 (rx_buffer s1) (rx_len s)
       then processPacket (rx_buffer s1) (rx_len s) s1
       else sendAck ACK_CRC_ERROR
              (logCRCError (crc8 (rx_buffer s1) (rx_len s))
                           (byte_at (rx_buffer s1) (rx_len s)) s1))).
Proof.
  intros Hs Hi Hl s1. unfold rx_byte. rewrite Hs. cbn [Z.eqb Pos.eqb].
  rewrite Hi.
  assert (Hu : u8 (rx_len s + 1) = rx_len s + 1) by (unfold u8; apply Z.mod_small; lia).
  rewrite Hu. fold s1.
  change (rx_idx s1) with (rx_len s + 1). change (rx_len s1) with (rx_len s).
  rewrite Z.eqb_refl. reflexivity.
Qed.

Lemma with_rx_twice a B a' B' s :
  with_rx_idx a (with_rx_buffer B (with_rx_idx a' (with_rx_buffer B' s)))
  = with_rx_idx a (with_rx_buffer B s).
Proof. reflexivity. Qed.

Lemma with_rx_same s : with_rx_idx (rx_idx s) (with_rx_buffer (rx_buffer s) s) = s.
Proof. destruct s; reflexivity. Qed.

(** The bytes of a payload, up to the last one, accumulate in
    [rx_buffer]; nothing else happens. *)
Lemma receive_store input : forall s,
  rx_state s = 2 -> 0 <= rx_idx s ->
  rx_idx s + Z.of_nat (length input) <= rx_len s -> rx_len s <= 31 ->
  length (rx_buffer s) = 32%nat ->
  receive input s
  = with_rx_idx (rx_idx s + Z.of_nat (length input))
      (with_rx_buffer
         (take (Z.to_nat (rx_idx s)) (rx_buffer s)
          ++ map (fun x => u8 (snd x)) input
          ++ drop (Z.to_nat (rx_idx s) + length input) (rx_buffer s))
         (asyncs (concat (map fst input)) s)).
Proof.
  induction input as [|[before b] input IH]; intros s Hs Hi Hk Hl Hlen.
  - cbn [receive length map concat asyncs fold_left app].
    rewrite Z.add_0_r, Nat.add_0_r, take_drop. symmetry. apply with_rx_same.
  - cbn [receive length map concat fst snd]. cbn [length] in Hk.
    destruct (rx_asyncs before s) as (Rb & Rs & Rl & Ri).
    set (s1 := asyncs before s) in *.
    rewrite rx_byte_store by lia.
    rewrite IH; cbn [rx_state rx_idx rx_len rx_buffer with_rx_idx with_rx_buffer];
      try lia; try (rewrite length_insert; congruence).
    rewrite asyncs_app. fold s1.
    rewrite asyncs_with_rx_idx, asyncs_with_rx_buffer, with_rx_twice.
    rewrite Ri, Rb. f_equal; [lia|]. f_equal.
    replace (Z.to_nat (rx_idx s + 1)) with (S (Z.to_nat (rx_idx s))) by lia.
    assert (Hlt : (Z.to_nat (rx_idx s) < length (rx_buffer s))%nat) by lia.
    rewrite (take_S_r (<[Z.to_nat (rx_idx s) := u8 b]> (rx_buffer s))
                      (Z.to_nat (rx_idx s)) (u8 b))
      by (now apply list_lookup_insert_eq).
    rewrite take_insert_ge by lia. rewrite drop_insert_lt by lia.
    rewrite <- app_assoc. cbn [app].
    replace (S (Z.to_nat (rx_idx s)) + length input)%nat
      with (Z.to_nat (rx_idx s) + S (length input))%nat by lia.
    reflexivity.
Qed.

Lemma receive_app input1 input2 s :
  receive (input1 ++ input2) s = receive input2 (receive input1 s).
Proof.
  revert s. induction input1 as [|[before b] input1 IH]; intros s; [reflexivity|].
  cbn [app receive]. apply IH.
Qed.

Lemma out_logCRCError e r s :
  out (logCRCError e r s)
  = out s ++ map Log (error_line s "CRC_MISMATCH"
                        (Some (TFmt "Expected: 0x%02X, Got: 0x%02X" [AInt e; AInt r]))).
Proof.
  unfold logCRCError. destruct (g_log_enabled s) eqn:He; cbn [negb].
  - apply out_logError.
  - unfold error_line. rewrite He. cbn. now rewrite app_nil_r.
Qed.

(** C6: in S_PAYLOAD the parser stores the bytes and nothing else
    happens until [rx_len + 1] of them are in.  The last one is the CRC
    byte [c]: the payload goes to [processPacket] if and only if [c] is
    the table-driven CRC-8 of the [rx_len] bytes before it; otherwise a
    CRC_MISMATCH line with the two values goes to the log channel and
    ACK_CRC_ERROR is sent.  Either way the parser is back in S_SYNC. *)
Theorem payload_complete (s : State) (input : list (list Async * Z))
    (payload : list Z) (c : Z) :
  rx_state s = 2 -> rx_idx s = 0 -> 1 <= rx_len s <= 31 ->
  length (rx_buffer s) = 32%nat ->
  map (fun x => u8 (snd x)) input = payload ++ [c] ->
  Z.of_nat (length payload) = rx_len s ->
  let L := rx_len s in
  let s1 := with_rx_idx (L + 1)
              (with_rx_buffer (payload ++ c :: drop (S (length payload)) (rx_buffer s))
                 (asyncs (concat (map fst input)) s)) in
  (forall k, (k <= length payload)%nat ->
      rx_state (receive (take k input) s) = 2
      /\ out (receive (take k input) s) = out s)
  /\ receive input s
     = with_rx_idx 0 (with_rx_state 0
         (if c =? crc8 payload L
          then processPacket (rx_buffer s1) L s1
          else sendAck ACK_CRC_ERROR (logCRCError (crc8 payload L) c s1)))
  /\ rx_state (receive input s) = 0
  /\ (c <> crc8 payload L ->
      out (receive input s)
      = out s ++ map Log (error_line s1 "CRC_MISMATCH"
                            (Some (TFmt "Expected: 0x%02X, Got: 0x%02X"
                                        [AInt (crc8 payload L); AInt c])))
              ++ [Ack ACK_CRC_ERROR]
              ++ map Log (ack_line s1 ACK_CRC_ERROR)
      /\ cmdQueue (receive input s) = cmdQueue s).
Proof.
  intros Hs Hi Hl Hlen Hmap Hpl L s1.
  (* the prefixes *)
  assert (Hpre : forall k, (k <= length payload)%nat ->
            receive (take k input) s
            = with_rx_idx (Z.of_nat k)
                (with_rx_buffer (take k payload ++ drop k (rx_buffer s))
                   (asyncs (concat (map fst (take k input))) s))).
  { intros k Hk.
    assert (Hlk : length (take k input) = k).
    { rewrite length_take. apply (f_equal (@length Z)) in Hmap.
      rewrite length_map, length_app in Hmap. cbn in Hmap. lia. }
    rewrite receive_store; rewrite ?Hlk; try lia; try assumption.
    rewrite Hi. cbn [Z.to_nat take app Nat.add Z.add]. do 2 f_equal.
    rewrite <- (firstn_map (fun x => u8 (snd x))), Hmap.
    change (firstn k) with (@take Z k).
    rewrite take_app_le by lia. reflexivity. }
  (* the closing byte *)
  apply map_eq_app in Hmap. destruct Hmap as (init & last & Hin & Hinit & Hlast).
  destruct last as [|[before bc] [|? ?]]; try discriminate.
  cbn in Hlast. injection Hlast as Hc.
  assert (Hli : length init = length payload) by (rewrite <- Hinit; now rewrite length_map).
  assert (Hall : receive input s
     = with_rx_idx 0 (with_rx_state 0
         (if c =? crc8 payload L
          then processPacket (rx_buffer s1) L s1
          else sendAck ACK_CRC_ERROR (logCRCError (crc8 payload L) c s1)))).
  { rewrite Hin, receive_app.
    pose proof (Hpre (length payload) (Nat.le_refl _)) as Hp.
    rewrite Hin, !take_app_length' in Hp by (symmetry; exact Hli).
    rewrite Hp. cbn [receive]. rewrite Hc.
    rewrite asyncs_with_rx_idx, asyncs_with_rx_buffer, <- asyncs_app.
    rewrite firstn_all, Hpl.
    replace (concat (map fst init) ++ before)
      with (concat (map fst input))
      by (rewrite Hin, map_app, concat_app; cbn; now rewrite app_nil_r).
    set (X := asyncs (concat (map fst input)) s).
    destruct (rx_asyncs (concat (map fst input)) s) as (Rb & Rs & Rl & Ri). fold X in Rb, Rs, Rl, Ri.
    rewrite rx_byte_close;
      cbn [rx_state rx_idx rx_len rx_buffer with_rx_idx with_rx_buffer];
      try congruence; try (rewrite Rl; fold L; lia).
    rewrite with_rx_twice, Rl. fold L.
    assert (HB : <[Z.to_nat L := c]> (payload ++ drop (length payload) (rx_buffer s))
               = payload ++ c :: drop (S (length payload)) (rx_buffer s)).
    { rewrite insert_app_r_alt by lia.
      replace (Z.to_nat L - length payload)%nat with 0%nat by lia.
      destruct (lookup_lt_is_Some_2 (rx_buffer s) (length payload) ltac:(lia)) as [y Hy].
      rewrite (drop_S _ y _ Hy). reflexivity. }
    rewrite HB.
    assert (Hrcv : byte_at (payload ++ c :: drop (S (length payload)) (rx_buffer s)) L = c).
    { unfold byte_at. rewrite list_lookup_middle by lia. reflexivity. }
    assert (Hcrc : crc8 (payload ++ c :: drop (S (length payload)) (rx_buffer s)) L
                 = crc8 payload L).
    { unfold L. rewrite <- Hpl. apply crc8_prefix. }
    rewrite Hrcv, Hcrc. reflexivity. }
  split; [|split; [exact Hall|split]].
  - intros k Hk. rewrite (Hpre k Hk).
    cbn [rx_state out with_rx_idx with_rx_buffer].
    destruct (rx_asyncs (concat (map fst (take k input))) s) as (_ & Rs & _).
    rewrite Rs, out_asyncs. auto.
  - rewrite Hall. reflexivity.
  - intros Hne. rewrite Hall.
    destruct (c =? crc8 payload L) eqn:E; [lia|].
    cbn [out cmdQueue with_rx_idx with_rx_state]. split.
    + rewrite out_sendAck, out_logCRCError.
      assert (Ho : out s1 = out s) by (subst s1; cbn; apply out_asyncs).
      rewrite Ho, <- !app_assoc.
      rewrite (ack_line_core (logCRCError (crc8 payload L) c s1) s1 ACK_CRC_ERROR
                 (core_logCRCError _ _ _) (enabled_logCRCError _ _ _)).
      reflexivity.
    + simp_core. subst s1. cbn [cmdQueue with_rx_idx with_rx_buffer].
      apply queue_asyncs.
Qed.

Lemma payload_complete_witness :
  let s := receive (quiet [SYNC_BYTE; 2]) init_state in
  rx_state (receive (quiet [CMD_MOUSE_CLICK; 1; 0x65]) s) = 0
  /\ cmdQueue (receive (quiet [CMD_MOUSE_CLICK; 1; 0x66]) s) = cmdQueue s.
Proof.
  intros s.
  assert (H1 : rx_state s = 2) by (vm_compute; reflexivity).
  assert (H2 : rx_idx s = 0) by (vm_compute; reflexivity).
  assert (H3 : 1 <= rx_len s <= 31) by (vm_compute; split; discriminate).
  assert (H4 : length (rx_buffer s) = 32%nat) by (vm_compute; reflexivity).
  assert (H5 : Z.of_nat (length [CMD_MOUSE_CLICK; 1]) = rx_len s)
    by (vm_compute; reflexivity).
  assert (H6 : map (fun x => u8 (snd x)) (quiet [CMD_MOUSE_CLICK; 1; 0x65])
             = [CMD_MOUSE_CLICK; 1] ++ [0x65]) by (vm_compute; reflexivity).
  assert (H7 : map (fun x => u8 (snd x)) (quiet [CMD_MOUSE_CLICK; 1; 0x66])
             = [CMD_MOUSE_CLICK; 1] ++ [0x66]) by (vm_compute; reflexivity).
  assert (H8 : 0x66 <> crc8 [CMD_MOUSE_CLICK; 1] (rx_len s))
    by (vm_compute; discriminate).
  pose proof (payload_complete s _ _ _ H1 H2 H3 H4 H6 H5) as (_ & _ & Hgood & _).
  pose proof (payload_complete s _ _ _ H1 H2 H3 H4 H7 H5) as (_ & _ & _ & Hbad).
  split; [exact Hgood|]. exact (proj2 (Hbad H8)).
Defined.

(** ** The parser and the rest of the sketch

    Only the receive loop writes the parser's variables. *)

Lemma rx_with_flag v s : rx_of (core (with_flag v s)) = rx_of (core s).
Proof. reflexivity. Qed.
Lemma rx_with_last_button_press v s :
  rx_of (core (with_last_button_press v s)) = rx_of (core s).
Proof. reflexivity. Qed.
Lemma rx_with_queue v s : rx_of (core (with_queue v s)) = rx_of (core s).
Proof. reflexivity. Qed.
Lemma rx_with_timed v s : rx_of (core (with_timed v s)) = rx_of (core s).
Proof. reflexivity. Qed.
Lemma rx_with_last_stats_time v s :
  rx_of (core (with_last_stats_time v s)) = rx_of (core s).
Proof. reflexivity. Qed.
Lemma rx_with_millis v s : rx_of (core (with_millis v s)) = rx_of (core s).
Proof. reflexivity. Qed.
Lemma rx_emit e s : rx_of (core (emit e s)) = rx_of (core s).
Proof. reflexivity. Qed.
Lemma rx_hid c s : rx_of (core (hid c s)) = rx_of (core s).
Proof. reflexivity. Qed.

Create Rewrite HintDb rxdb.
#[local] Hint Rewrite rx_with_flag rx_with_last_button_press rx_with_queue rx_with_timed
  rx_with_last_stats_time rx_with_millis rx_emit rx_hid : rxdb.

Ltac rx_frame := unfold rx_view; autorewrite with coredb rxdb; try reflexivity.

Lemma rx_view_async a s : rx_view (async a s) = rx_view s.
Proof. destruct a; cbn [async]; [unfold buttonISR; case_match|]; rx_frame. Qed.

Lemma rx_view_asyncs l s : rx_view (asyncs l s) = rx_view s.
Proof.
  revert s. induction l as [|a l IH]; intros s; [reflexivity|].
  cbn. change (fold_left _ l (async a s)) with (asyncs l (async a s)).
  now rewrite IH, rx_view_async.
Qed.

Lemma rx_view_kb_print_loop n mid p i s : rx_view (kb_print_loop n mid p i s) = rx_view s.
Proof.
  revert mid i s. induction n as [|n IH]; intros mid i s; [reflexivity|].
  cbn [kb_print_loop]. case_match; [apply rx_view_asyncs|].
  rewrite IH. unfold rx_view at 1. rewrite rx_hid. apply rx_view_asyncs.
Qed.

Lemma rx_view_dispatch mid pkt s : rx_view (dispatch mid pkt s) = rx_view s.
Proof.
  unfold dispatch. repeat case_match; try (rx_frame; fail).
  rewrite rx_view_kb_print_loop. rx_frame.
Qed.

Lemma rx_view_executeCommand mid pkt s : rx_view (executeCommand mid pkt s) = rx_view s.
Proof.
  unfold executeCommand. case_match; [rx_frame|apply rx_view_dispatch].
Qed.

Lemma rx_view_processPacket data len s : rx_view (processPacket data len s) = rx_view s.
Proof.
  unfold processPacket. case_match; [rx_frame|].
  case_match.
  - unfold rx_view at 1. rewrite core_sendAck, rx_emit.
    change (rx_of (core ?x)) with (rx_view x). rewrite rx_view_executeCommand. rx_frame.
  - destruct (push _ _) as [[|] q']; rx_frame.
Qed.

Lemma rx_view_setup s : rx_view (setup s) = rx_view s.
Proof. unfold setup. rx_frame. Qed.

Lemma rx_view_service_interrupt s : rx_view (service_interrupt s) = rx_view s.
Proof. unfold service_interrupt. repeat case_match; rx_frame. Qed.

Lemma rx_view_poll_timed s : rx_view (poll_timed s) = rx_view s.
Proof. unfold poll_timed. repeat case_match; rx_frame. Qed.

Lemma rx_view_run_queue mid s : rx_view (run_queue mid s) = rx_view s.
Proof.
  unfold run_queue. case_match; [|reflexivity].
  destruct (pop _) as [[pkt q']|]; [|reflexivity].
  rewrite rx_view_executeCommand. rx_frame.
Qed.

Lemma rx_view_report_stats s : rx_view (report_stats s) = rx_view s.
Proof. unfold report_stats. case_match; rx_frame. Qed.

Lemma rx_view_fields s1 s2 :
  rx_view s1 = rx_view s2 ->
  rx_buffer s1 = rx_buffer s2 /\ rx_state s1 = rx_state s2
  /\ rx_len s1 = rx_len s2 /\ rx_idx s1 = rx_idx s2.
Proof.
  unfold rx_view, rx_of. cbn [core c_rx_buffer c_rx_state c_rx_len c_rx_idx].
  intros Hv. injection Hv as Eb Es El Ei. auto.
Qed.

Lemma rx_ok_view s1 s2 : rx_view s1 = rx_view s2 -> rx_ok s2 -> rx_ok s1.
Proof.
  intros Hv Hok. apply rx_view_fields in Hv. destruct Hv as (Eb & Es & El & Ei).
  unfold rx_ok. rewrite Eb, Es, El, Ei. exact Hok.
Qed.

Lemma u8_range b : 0 <= u8 b < 256.
Proof. unfold u8. apply Z.mod_pos_bound. lia. Qed.

(** The link between [dispatch_call] and [rx_byte]. *)
Lemma rx_byte_dispatch_call b s data len s1 :
  dispatch_call b s = Some (data, len, s1) ->
  rx_byte b s = with_rx_idx 0 (with_rx_state 0 (processPacket data len s1)).
Proof.
  unfold dispatch_call, rx_byte.
  destruct (rx_state s =? 2) eqn:E2; [|discriminate].
  assert (rx_state s = 2) as -> by lia. cbn [Z.eqb Pos.eqb].
  cbv zeta. destruct (_ =? _ + 1); [|discriminate].
  destruct (_ =? crc8 _ _); [|discriminate].
  intros Hsome. injection Hsome as <- <- <-. reflexivity.
Qed.

(** The receive loop keeps the parser within its bounds. *)
Lemma rx_ok_rx_byte b s : rx_ok s -> rx_ok (rx_byte (u8 b) s).
Proof.
  pose proof (u8_range b) as Hb. generalize dependent (u8 b). clear b. intros b Hb.
  intros (Hlen & Hst). unfold MAX_PACKET_SIZE in *.
  destruct Hst as [H0|[H1|(H2 & Hl & Hi)]].
  - unfold rx_byte. rewrite H0. cbn [Z.eqb]. case_match.
    + split; [exact Hlen|]. right; left; reflexivity.
    + split; [exact Hlen|]. left; exact H0.
  - unfold rx_byte. rewrite H1. cbn [Z.eqb Pos.eqb].
    cbn [rx_len with_rx_len]. unfold MAX_PACKET_SIZE.
    destruct ((b =? 0) || (32 - 1 <? b)) eqn:E.
    + assert (Hv : rx_view (sendAck ACK_PARAM_ERROR
                               (logError "INVALID_LENGTH" None (with_rx_len b s)))
                   = rx_view (with_rx_len b s)) by rx_frame.
      apply rx_view_fields in Hv. destruct Hv as (Vb & _).
      split; [|left; reflexivity].
      cbn [rx_buffer with_rx_state]. rewrite Vb. exact Hlen.
    + assert (Hv : rx_view (logPacketReceived b (with_rx_len b s))
                   = rx_view (with_rx_len b s)) by rx_frame.
      apply rx_view_fields in Hv. destruct Hv as (Vb & _ & Vl & _).
      split; [cbn [rx_buffer with_rx_state with_rx_idx]; rewrite Vb; exact Hlen|].
      right; right. cbn [rx_state rx_len rx_idx with_rx_state with_rx_idx].
      rewrite Vl. cbn [rx_len with_rx_len].
      apply orb_false_iff in E. destruct E as (E0 & E1).
      unfold MAX_PACKET_SIZE. lia.
  - destruct (Z.eq_dec (rx_idx s) (rx_len s)) as [He|Hne].
    + rewrite rx_byte_close by lia.
      set (s1 := with_rx_idx _ (with_rx_buffer _ s)).
      set (s2 := if _ =? _ then _ else _).
      assert (Hv : rx_view s2 = rx_view s1).
      { subst s2. case_match; [apply rx_view_processPacket|rx_frame]. }
      apply rx_view_fields in Hv. destruct Hv as (Hvb & _).
      split; [|left; reflexivity].
      cbn [rx_buffer with_rx_idx with_rx_state]. rewrite Hvb. subst s1.
      cbn [rx_buffer with_rx_idx with_rx_buffer]. now rewrite length_insert.
    + rewrite rx_byte_store by lia.
      split; [cbn; now rewrite length_insert|].
      right; right. cbn. unfold MAX_PACKET_SIZE. lia.
Qed.

Lemma reachable_rx_ok s : reachable s -> rx_ok s.
Proof.
  induction 1 as [|s _ IH|a s _ IH|s _ IH|s _ IH|b s _ IH|mid s _ IH|s _ IH].
  - unfold rx_ok, init_state, MAX_PACKET_SIZE. cbn. split; [reflexivity|left; reflexivity].
  - exact (rx_ok_view _ _ (rx_view_setup s) IH).
  - exact (rx_ok_view _ _ (rx_view_async a s) IH).
  - exact (rx_ok_view _ _ (rx_view_service_interrupt s) IH).
  - exact (rx_ok_view _ _ (rx_view_poll_timed s) IH).
  - exact (rx_ok_rx_byte b s IH).
  - exact (rx_ok_view _ _ (rx_view_run_queue mid s) IH).
  - exact (rx_ok_view _ _ (rx_view_report_stats s) IH).
Qed.

(** The states the loop passes through are reachable. *)
Lemma reachable_asyncs l s : reachable s -> reachable (asyncs l s).
Proof.
  revert s. induction l as [|a l IH]; intros s H; [exact H|].
  cbn. apply IH. now constructor.
Qed.

Lemma reachable_receive input s : reachable s -> reachable (receive input s).
Proof.
  revert s. induction input as [|[before b] input IH]; intros s H; [exact H|].
  cbn [receive]. apply IH. constructor. now apply reachable_asyncs.
Qed.

Lemma reachable_loop i s : reachable s -> reachable (loop i s).
Proof.
  intros H. unfold loop.
  apply reach_stats, reachable_asyncs, reach_queue, reachable_asyncs,
        reachable_receive, reach_poll, reachable_asyncs, reach_service,
        reachable_asyncs, H.
Qed.

Lemma reachable_run inputs s : reachable s -> reachable (run inputs s).
Proof.
  revert s. induction inputs as [|i inputs IH]; intros s H; [exact H|].
  cbn. apply IH, reachable_loop, H.
Qed.

(** C10: in every state the program passes through, the parser in
    S_PAYLOAD has a length of 1..31 and an index of at most that length, so
    the payload and its CRC byte stay inside the 32 bytes of [rx_buffer];
    and every call of [processPacket] by the receive loop passes a length
    of 1..31, so its [len < 1] branch (EMPTY_PACKET, ACK_PARAM_ERROR) is
    never taken. *)
Theorem parser_bounds (s : State) :
  reachable s ->
  length (rx_buffer s) = 32%nat
  /\ (rx_state s = 2 ->
      1 <= rx_len s <= 31 /\ 0 <= rx_idx s <= rx_len s
      /\ (Z.to_nat (rx_idx s) < length (rx_buffer s))%nat
      /\ (Z.to_nat (rx_len s) < length (rx_buffer s))%nat)
  /\ (forall b data len s1,
        dispatch_call (u8 b) s = Some (data, len, s1) ->
        1 <= len <= 31
        /\ (len <? 1) = false
        /\ length data = 32%nat
        /\ rx_byte (u8 b) s = with_rx_idx 0 (with_rx_state 0 (processPacket data len s1)))
  /\ (forall inputs, reachable (run inputs s)).
Proof.
  intros Hr. destruct (reachable_rx_ok s Hr) as (Hlen & Hst).
  unfold MAX_PACKET_SIZE in *. change (Z.to_nat 32) with 32%nat in Hlen.
  assert (H2 : rx_state s = 2 -> 1 <= rx_len s <= 31 /\ 0 <= rx_idx s <= rx_len s).
  { intros E. destruct Hst as [H|[H|(_ & Hl & Hi)]]; lia. }
  split; [exact Hlen|]. split; [|split].
  - intros E. destruct (H2 E) as (Hl & Hi). repeat split; lia.
  - intros b data len s1 Hcall.
    pose proof (rx_byte_dispatch_call _ _ _ _ _ Hcall) as Heq.
    unfold dispatch_call in Hcall.
    destruct (rx_state s =? 2) eqn:E2; [|discriminate].
    destruct (H2 ltac:(lia)) as (Hl & Hi).
    cbv zeta in Hcall.
    destruct (_ =? _ + 1); [|discriminate]. destruct (_ =? crc8 _ _); [|discriminate].
    injection Hcall as <- <- <-.
    cbn [rx_len rx_buffer with_rx_idx with_rx_buffer] in *.
    rewrite length_insert. repeat split; try lia. exact Heq.
  - intros inputs. now apply reachable_run.
Qed.

Lemma parser_bounds_witness :
  let s := receive (quiet [SYNC_BYTE; 2; CMD_MOUSE_CLICK; 1]) (setup init_state) in
  reachable s /\ 1 <= rx_len s <= 31 /\ 0 <= rx_idx s <= rx_len s.
Proof.
  intros s.
  assert (Hr : reachable s).
  { apply reachable_receive. apply reach_setup, reach_init. }
  assert (H2 : rx_state s = 2) by (vm_compute; reflexivity).
  destruct (parser_bounds s Hr) as (_ & Hb & _).
  destruct (Hb H2) as (Hl & Hi & _).
  split; [exact Hr|]. split; [exact Hl | exact Hi].
Defined.

(** ** The queue in every reachable state *)

Lemma q_with_flag v s : c_queue (core (with_flag v s)) = c_queue (core s).
Proof. reflexivity. Qed.
Lemma q_with_last_button_press v s :
  c_queue (core (with_last_button_press v s)) = c_queue (core s).
Proof. reflexivity. Qed.
Lemma q_with_queue v s : c_queue (core (with_queue v s)) = v.
Proof. reflexivity. Qed.
Lemma q_with_timed v s : c_queue (core (with_timed v s)) = c_queue (core s).
Proof. reflexivity. Qed.
Lemma q_with_last_stats_time v s :
  c_queue (core (with_last_stats_time v s)) = c_queue (core s).
Proof. reflexivity. Qed.
Lemma q_with_millis v s : c_queue (core (with_millis v s)) = c_queue (core s).
Proof. reflexivity. Qed.
Lemma q_with_rx_idx v s : c_queue (core (with_rx_idx v s)) = c_queue (core s).
Proof. reflexivity. Qed.
Lemma q_with_rx_state v s : c_queue (core (with_rx_state v s)) = c_queue (core s).
Proof. reflexivity. Qed.
Lemma q_with_rx_len v s : c_queue (core (with_rx_len v s)) = c_queue (core s).
Proof. reflexivity. Qed.
Lemma q_with_rx_buffer v s : c_queue (core (with_rx_buffer v s)) = c_queue (core s).
Proof. reflexivity. Qed.
Lemma q_emit e s : c_queue (core (emit e s)) = c_queue (core s).
Proof. reflexivity. Qed.
Lemma q_hid c s : c_queue (core (hid c s)) = c_queue (core s).
Proof. reflexivity. Qed.

Create Rewrite HintDb qdb.
#[local] Hint Rewrite q_with_flag q_with_last_button_press q_with_queue q_with_timed
  q_with_last_stats_time q_with_millis q_with_rx_idx q_with_rx_state q_with_rx_len
  q_with_rx_buffer q_emit q_hid : qdb.

Ltac q_frame := rewrite ?lift_queue; autorewrite with coredb qdb; try reflexivity.

Lemma queue_kb_print_loop n mid p i s : cmdQueue (kb_print_loop n mid p i s) = cmdQueue s.
Proof.
  revert mid i s. induction n as [|n IH]; intros mid i s; [reflexivity|].
  cbn [kb_print_loop]. case_match; [apply queue_asyncs|].
  rewrite IH. q_frame. rewrite <- lift_queue. apply queue_asyncs.
Qed.

(** A command leaves the queue as it is, or clears it. *)
Lemma queue_dispatch mid pkt s :
  cmdQueue (dispatch mid pkt s) = cmdQueue s
  \/ cmdQueue (dispatch mid pkt s) = clear (cmdQueue s).
Proof.
  unfold dispatch. repeat case_match;
    try (left; q_frame; fail); try (right; q_frame; fail).
  left. rewrite queue_kb_print_loop. q_frame.
Qed.

Lemma queue_executeCommand mid pkt s :
  cmdQueue (executeCommand mid pkt s) = cmdQueue s
  \/ cmdQueue (executeCommand mid pkt s) = clear (cmdQueue s).
Proof.
  unfold executeCommand. case_match; [left; q_frame|apply queue_dispatch].
Qed.

Lemma queue_inv_step s s' :
  cmdQueue s' = cmdQueue s \/ cmdQueue s' = clear (cmdQueue s) ->
  queue_inv s -> queue_inv s'.
Proof.
  intros Hq (Hok & Hall). split.
  - destruct Hq as [->| ->]; [exact Hok|now apply queue_ok_clear].
  - destruct Hq as [->| ->]; [exact Hall|constructor].
Qed.

Lemma queue_inv_init : queue_inv init_state.
Proof. split; [exact queue_ok_init|constructor]. Qed.

Lemma queue_async a s : cmdQueue (async a s) = cmdQueue s.
Proof. exact (queue_asyncs [a] s). Qed.

Lemma queue_inv_run_queue mid s : queue_inv s -> queue_inv (run_queue mid s).
Proof.
  intros Hs. pose proof Hs as (Hok & Hall). unfold run_queue, isEmpty.
  case_match; [|exact Hs].
  destruct (count (cmdQueue s) =? 0) eqn:E;
    [rewrite andb_false_r in *; discriminate|].
  destruct (pop_ok (cmdQueue s) Hok ltac:(lia)) as (pkt & q' & Hpop & Hc & _ & Hok').
  rewrite Hpop.
  apply (queue_inv_step (with_queue q' s)).
  - apply queue_executeCommand.
  - split; [exact Hok'|].
    cbn [cmdQueue with_queue]. rewrite Hc in Hall. now inversion Hall.
Qed.

Lemma queue_inv_processPacket data len s :
  1 <= len <= 31 -> length data = 32%nat ->
  queue_inv s -> queue_inv (processPacket data len s).
Proof.
  intros Hlen Hd Hs. pose proof Hs as (Hok & Hall).
  destruct (Z.eq_dec (byte_at data 0) CMD_PAUSE_LOG) as [E1|E1];
    [|destruct (Z.eq_dec (byte_at data 0) CMD_RESUME_LOG) as [E2|E2];
      [|destruct (Z.eq_dec (byte_at data 0) CMD_CLEAR_QUEUE) as [E3|E3]]].
  1-3: rewrite processPacket_control by tauto;
       apply (queue_inv_step s);
       [ rewrite lift_queue, core_sendAck, q_emit, <- lift_queue;
         destruct (queue_executeCommand []
                     (mkPacket (byte_at data 0) (take (Z.to_nat (len - 1)) (drop 1 data))
                               (len - 1) (millis s))
                     (logPacketData data len s)) as [->| ->];
         [left|right]; q_frame
       | exact Hs ].
  rewrite processPacket_data_plane by assumption.
  destruct (Z_lt_le_dec (count (cmdQueue s)) QUEUE_SIZE) as [Hlt|Hge].
  - destruct (push_ok (mkPacket (byte_at data 0) (take (Z.to_nat (len - 1)) (drop 1 data))
                                (len - 1) (millis s)) (cmdQueue s) Hok Hlt)
      as (q' & Hp & Hc & _ & Hok').
    rewrite Hp.
    assert (Hq : cmdQueue (sendAck ACK_SUCCESS
                   (logQueueStatus (with_queue q' (logPacketData data len s)))) = q')
      by q_frame.
    split; [rewrite Hq; exact Hok'|].
    rewrite Hq, Hc. apply Forall_app. split; [exact Hall|].
    constructor; [|constructor]. unfold packet_ok. cbn [params param_len].
    rewrite length_take, length_drop. lia.
  - rewrite push_full by exact Hge.
    apply (queue_inv_step s); [left; q_frame|exact Hs].
Qed.

(** Without a call of [processPacket] the receive loop leaves the queue
    alone. *)
Lemma queue_rx_byte_no_call b s :
  dispatch_call b s = None -> cmdQueue (rx_byte b s) = cmdQueue s.
Proof.
  unfold dispatch_call, rx_byte.
  destruct (rx_state s =? 0); [intros _; case_match; q_frame|].
  destruct (rx_state s =? 1); [intros _; repeat case_match; q_frame|].
  destruct (rx_state s =? 2); [|reflexivity].
  cbv zeta. destruct (_ =? _ + 1); [|intros _; q_frame].
  destruct (_ =? crc8 _ _); [discriminate|]. intros _. q_frame.
Qed.

Lemma queue_inv_rx_byte b s : rx_ok s -> queue_inv s -> queue_inv (rx_byte (u8 b) s).
Proof.
  intros Hr Hs.
  destruct (dispatch_call (u8 b) s) as [[[data len] s1]|] eqn:Hcall.
  - rewrite (rx_byte_dispatch_call _ _ _ _ _ Hcall).
    assert (Hargs : 1 <= len <= 31 /\ length data = 32%nat /\ cmdQueue s1 = cmdQueue s).
    { unfold dispatch_call in Hcall.
      destruct (rx_state s =? 2) eqn:E2; [|discriminate].
      destruct Hr as (Hl32 & [H|[H|(_ & Hl & Hi)]]); try lia.
      unfold MAX_PACKET_SIZE in *. cbv zeta in Hcall.
      destruct (_ =? _ + 1); [|discriminate]. destruct (_ =? crc8 _ _); [|discriminate].
      injection Hcall as <- <- <-.
      cbn [rx_len rx_buffer cmdQueue with_rx_idx with_rx_buffer].
      rewrite length_insert. repeat split; try lia; try exact Hl32. }
    destruct Hargs as (Hlen & Hd & Hq).
    apply (queue_inv_step (processPacket data len s1)); [left; reflexivity|].
    apply queue_inv_processPacket; try assumption.
    apply (queue_inv_step s); [left; exact Hq|exact Hs].
  - apply (queue_inv_step s); [left; now apply queue_rx_byte_no_call|exact Hs].
Qed.

Lemma queue_service_interrupt_step s :
  cmdQueue (service_interrupt s) = cmdQueue s
  \/ cmdQueue (service_interrupt s) = clear (cmdQueue s).
Proof.
  destruct (g_interrupt_flag s) eqn:Hf.
  - right. now apply queue_service_interrupt.
  - left. unfold service_interrupt. now rewrite Hf.
Qed.

Lemma queue_poll_timed s : cmdQueue (poll_timed s) = cmdQueue s.
Proof. unfold poll_timed. repeat case_match; q_frame. Qed.

Lemma queue_report_stats s : cmdQueue (report_stats s) = cmdQueue s.
Proof. unfold report_stats. case_match; q_frame. Qed.

Lemma queue_setup s : cmdQueue (setup s) = cmdQueue s.
Proof. unfold setup. q_frame. Qed.

(** In every state the program passes through, the ring buffer is in
    order, the packets in it are well formed and the parser is within its
    bounds. *)
Lemma reachable_state_ok s : reachable s -> state_ok s.
Proof.
  intros Hr. split; [|now apply reachable_rx_ok].
  induction Hr as [|s _ IH|a s _ IH|s _ IH|s _ IH|b s Hr IH|mid s _ IH|s _ IH].
  - exact queue_inv_init.
  - apply (queue_inv_step s); [left; apply queue_setup|exact IH].
  - apply (queue_inv_step s); [left; apply queue_async|exact IH].
  - apply (queue_inv_step s); [apply queue_service_interrupt_step|exact IH].
  - apply (queue_inv_step s); [left; apply queue_poll_timed|exact IH].
  - apply queue_inv_rx_byte; [now apply reachable_rx_ok|exact IH].
  - now apply queue_inv_run_queue.
  - apply (queue_inv_step s); [left; apply queue_report_stats|exact IH].
Qed.

(** The command the executor takes from the queue is well formed. *)
Lemma popped_packet_ok s pkt q' :
  reachable s -> pop (cmdQueue s) = Some (pkt, q') -> packet_ok pkt.
Proof.
  intros Hr Hpop. destruct (reachable_state_ok s Hr) as ((Hok & Hall) & _).
  assert (Hc : count (cmdQueue s) <> 0).
  { intros Hc. unfold pop in Hpop. rewrite Hc in Hpop. discriminate. }
  destruct (pop_ok (cmdQueue s) Hok Hc) as (p & q & Hp & Hcont & _).
  rewrite Hp in Hpop. injection Hpop as <- <-.
  rewrite Hcont in Hall. now inversion Hall.
Qed.

(** * Further properties *)

(** ** The checksum *)

Lemma is_byte_lxor a b : is_byte a -> is_byte b -> is_byte (Z.lxor a b).
Proof.
  unfold is_byte. intros Ha Hb.
  assert (E : Z.lxor a b = Z.lxor a b mod 2 ^ 8).
  { apply Z.bits_inj'. intros n Hn.
    destruct (Z_lt_le_dec n 8) as [Hlt|Hge].
    - now rewrite Z.mod_pow2_bits_low by lia.
    - rewrite Z.mod_pow2_bits_high by lia. rewrite Z.lxor_spec.
      rewrite <- (Z.mod_small a (2 ^ 8)), <- (Z.mod_small b (2 ^ 8)) by (change (2 ^ 8) with 256; lia).
      now rewrite !Z.mod_pow2_bits_high by lia. }
  rewrite E. apply Z.mod_pos_bound. reflexivity.
Qed.

Lemma bytes_below n : forall i, 0 <= i < Z.of_nat n -> In i (map Z.of_nat (seq 0 n)).
Proof.
  intros i Hi. apply in_map_iff. exists (Z.to_nat i). split; [lia|].
  apply in_seq. lia.
Qed.

(** The table holds bytes. *)
Lemma pgm_read_byte_is_byte i : is_byte (pgm_read_byte i).
Proof.
  unfold pgm_read_byte, is_byte.
  destruct (CRC8_TABLE !! Z.to_nat i) as [v|] eqn:E; cbn; [|lia].
  assert (H : Forall (fun v => 0 <= v < 256) CRC8_TABLE).
  { apply List.Forall_forall. intros x Hx.
    assert (Hb : forallb (fun v => (0 <=? v) && (v <? 256)) CRC8_TABLE = true)
      by (vm_compute; reflexivity).
    rewrite forallb_forall in Hb. specialize (Hb x Hx). lia. }
  rewrite Forall_lookup in H. exact (H _ _ E).
Qed.

(** Each entry of the table is the eight bit steps of its index. *)
Lemma table_is_maxim i : is_byte i -> pgm_read_byte i = Nat.iter 8 maxim_bit i.
Proof.
  intros Hi.
  assert (Hb : forallb (fun i => pgm_read_byte i =? Nat.iter 8 maxim_bit i)
                       (map Z.of_nat (seq 0 256)) = true) by (vm_compute; reflexivity).
  rewrite forallb_forall in Hb. apply Z.eqb_eq, Hb, bytes_below. exact Hi.
Qed.

(** No two entries of the table are equal. *)
Lemma table_injective i j :
  is_byte i -> is_byte j -> pgm_read_byte i = pgm_read_byte j -> i = j.
Proof.
  intros Hi Hj.
  assert (Hb : forallb (fun i => forallb (fun j =>
                  negb (pgm_read_byte i =? pgm_read_byte j) || (i =? j))
                  (map Z.of_nat (seq 0 256))) (map Z.of_nat (seq 0 256)) = true)
    by (vm_compute; reflexivity).
  rewrite forallb_forall in Hb. specialize (Hb i (bytes_below 256 i Hi)).
  rewrite forallb_forall in Hb. specialize (Hb j (bytes_below 256 j Hj)).
  intros E. rewrite E, Z.eqb_refl in Hb. cbn in Hb. lia.
Qed.

(** The loop of [crc8] as a fold over the bytes it reads. *)
Lemma crc8_loop_fold n : forall data i crc,
  (i + n <= length data)%nat ->
  crc8_loop n data (Z.of_nat i) crc = fold_left crc8_step (take n (drop i data)) crc.
Proof.
  induction n as [|n IH]; intros data i crc Hlen; [reflexivity|].
  cbn [crc8_loop].
  destruct (lookup_lt_is_Some_2 data i ltac:(lia)) as [b Hb].
  rewrite (drop_S data b i Hb). cbn [take fold_left].
  replace (Z.of_nat i + 1) with (Z.of_nat (S i)) by lia.
  rewrite IH by lia. unfold crc8_step at 2, byte_at. now rewrite Nat2Z.id, Hb.
Qed.

Lemma crc8_fold data : crc8 data (Z.of_nat (length data)) = fold_left crc8_step data 0.
Proof.
  unfold crc8. rewrite Nat2Z.id.
  pose proof (crc8_loop_fold (length data) data 0 0 ltac:(lia)) as E.
  change (Z.of_nat 0) with 0 in E. rewrite E.
  now rewrite drop_0, firstn_all.
Qed.

Lemma crc8_step_is_byte crc b : is_byte (crc8_step crc b).
Proof. apply pgm_read_byte_is_byte. Qed.

Lemma fold_crc8_step_is_byte data crc : is_byte crc -> is_byte (fold_left crc8_step data crc).
Proof.
  revert crc. induction data as [|b data IH]; intros crc Hc; [exact Hc|].
  cbn. apply IH, crc8_step_is_byte.
Qed.

(** X1: on bytes, the table-driven [crc8] computes CRC-8/MAXIM. *)
Theorem crc8_is_maxim (data : list Z) :
  Forall is_byte data ->
  crc8 data (Z.of_nat (length data)) = crc8_maxim data.
Proof.
  intros Hd. rewrite crc8_fold. unfold crc8_maxim.
  assert (H0 : is_byte 0) by (unfold is_byte; lia).
  revert H0. generalize 0 at 1 2 3. induction Hd as [|b data Hb _ IH]; intros crc Hc.
  - reflexivity.
  - cbn [fold_left].
    assert (E : crc8_step crc b = maxim_byte crc b).
    { unfold crc8_step, maxim_byte. apply table_is_maxim, is_byte_lxor; assumption. }
    rewrite <- E. apply IH, crc8_step_is_byte.
Qed.

Lemma crc8_is_maxim_witness :
  crc8 [49; 50; 51; 52; 53; 54; 55; 56; 57] 9 = 0xA1
  /\ crc8_maxim [49; 50; 51; 52; 53; 54; 55; 56; 57] = 0xA1.
Proof.
  assert (Hd : Forall is_byte [49; 50; 51; 52; 53; 54; 55; 56; 57])
    by (repeat constructor; unfold is_byte; lia).
  pose proof (crc8_is_maxim _ Hd) as E.
  split; [reflexivity|]. rewrite <- E. reflexivity.
Defined.

(** X2: the CRC of a payload followed by its CRC byte is 0. *)
Theorem crc8_residue (data : list Z) :
  let n := Z.of_nat (length data) in
  crc8 (data ++ [crc8 data n]) (n + 1) = 0.
Proof.
  intros n. subst n.
  replace (Z.of_nat (length data) + 1)
    with (Z.of_nat (length (data ++ [crc8 data (Z.of_nat (length data))])))
    by (rewrite length_app; cbn; lia).
  rewrite !crc8_fold, fold_left_app. cbn [fold_left].
  unfold crc8_step at 1. now rewrite Z.lxor_nilpotent.
Qed.

Lemma lxor_cancel_r a b c : Z.lxor a c = Z.lxor b c -> a = b.
Proof.
  intros E. apply (f_equal (fun x => Z.lxor x c)) in E.
  now rewrite !Z.lxor_assoc, !Z.lxor_nilpotent, !Z.lxor_0_r in E.
Qed.

Lemma lxor_cancel_l a b c : Z.lxor c a = Z.lxor c b -> a = b.
Proof. rewrite !(Z.lxor_comm c). apply lxor_cancel_r. Qed.

(** Two different checksums stay different over the same bytes. *)
Lemma fold_crc8_step_injective data : forall c1 c2,
  Forall is_byte data -> is_byte c1 -> is_byte c2 -> c1 <> c2 ->
  fold_left crc8_step data c1 <> fold_left crc8_step data c2.
Proof.
  induction data as [|b data IH]; intros c1 c2 Hd H1 H2 Hne; [exact Hne|].
  cbn [fold_left]. inversion Hd as [|? ? Hb Hd']; subst.
  apply IH; try assumption; try apply crc8_step_is_byte.
  unfold crc8_step. intros E.
  apply table_injective in E; try (apply is_byte_lxor; assumption).
  apply Hne. exact (lxor_cancel_r _ _ _ E).
Qed.

Lemma crc8_one_byte_differs (data : list Z) (i : nat) (b b' : Z) :
  Forall is_byte data -> data !! i = Some b -> is_byte b' -> b' <> b ->
  crc8 (<[i := b']> data) (Z.of_nat (length data))
  <> crc8 data (Z.of_nat (length data)).
Proof.
  intros Hd Hi Hb' Hne.
  assert (Hlt : (i < length data)%nat) by (apply lookup_lt_is_Some_1; eauto).
  rewrite <- (length_insert data i b') at 1. rewrite !crc8_fold.
  rewrite <- (take_drop_middle data i b Hi) at 2.
  rewrite insert_take_drop by exact Hlt.
  rewrite !fold_left_app. cbn [fold_left].
  assert (Hpre : is_byte (fold_left crc8_step (take i data) 0))
    by (apply fold_crc8_step_is_byte; unfold is_byte; lia).
  assert (Hb : is_byte b) by (rewrite Forall_lookup in Hd; exact (Hd _ _ Hi)).
  apply fold_crc8_step_injective; try apply crc8_step_is_byte.
  - now apply Forall_drop.
  - unfold crc8_step. intros E.
    apply table_injective in E; try (apply is_byte_lxor; assumption).
    apply Hne. exact (lxor_cancel_l _ _ _ E).
Qed.

(** X3: a payload with one byte changed has another CRC. *)
Theorem crc8_detects_one_byte (data : list Z) (i : nat) (b b' : Z) :
  Forall is_byte data -> data !! i = Some b -> is_byte b' -> b' <> b ->
  crc8 (<[i := b']> data) (Z.of_nat (length data))
  <> crc8 data (Z.of_nat (length data)).
Proof. apply crc8_one_byte_differs. Qed.

Lemma crc8_detects_one_byte_witness :
  crc8 (<[1%nat := 2]> [CMD_MOUSE_CLICK; 1]) 2 <> crc8 [CMD_MOUSE_CLICK; 1] 2.
Proof.
  assert (Hd : Forall is_byte [CMD_MOUSE_CLICK; 1])
    by (repeat constructor; unfold is_byte, CMD_MOUSE_CLICK; lia).
  assert (Hb : is_byte 2) by (unfold is_byte; lia).
  assert (Hne : 2 <> 1) by lia.
  exact (crc8_detects_one_byte [CMD_MOUSE_CLICK; 1] 1 1 2 Hd eq_refl Hb Hne).
Defined.

(** ** The ring buffer is a bounded FIFO *)

Lemma queue_step_fifo op q :
  queue_ok q ->
  let (r, q') := queue_step op q in
  let (r', l') := fifo_step op (contents q) in
  r = r' /\ contents q' = l' /\ queue_ok q'.
Proof.
  intros Hok. pose proof Hok as (Hl & Hh & Hc & Ht).
  pose proof (contents_length q) as Hlen.
  destruct op as [p| |]; cbn [queue_step fifo_step].
  - destruct (Z_lt_le_dec (count q) QUEUE_SIZE) as [Hlt|Hge].
    + destruct (push_ok p q Hok Hlt) as (q' & Hp & Hcont & _ & Hok').
      rewrite Hp. destruct (Nat.leb_spec (Z.to_nat QUEUE_SIZE) (length (contents q))); [lia|].
      auto.
    + rewrite (push_full p q Hge).
      destruct (Nat.leb_spec (Z.to_nat QUEUE_SIZE) (length (contents q))); [auto|lia].
  - destruct (Z.eq_dec (count q) 0) as [E|Hne].
    + unfold pop. rewrite E. cbn [Z.eqb].
      destruct (contents q) as [|x l]; [auto|]. cbn in Hlen. lia.
    + destruct (pop_ok q Hok Hne) as (p & q' & Hp & Hcont & _ & Hok').
      rewrite Hp, Hcont. auto.
  - split; [reflexivity|]. split; [reflexivity|]. now apply queue_ok_clear.
Qed.

(** X4: whatever is pushed, popped and cleared, in any order and for any
    length of time, the ring buffer answers as a FIFO list of at most 16
    packets does, and [size], [isEmpty] and [isFull] report the length of
    that list. *)
Theorem queue_refines_fifo (ops : list QueueOp) :
  let (rs, q) := queue_run ops queue_init in
  let (rs', l) := fifo_run ops [] in
  rs = rs'
  /\ contents q = l
  /\ (length l <= 16)%nat
  /\ size q = Z.of_nat (length l)
  /\ isEmpty q = bool_decide (l = [])
  /\ isFull q = bool_decide (length l = 16%nat).
Proof.
  assert (Hgen : forall ops q, queue_ok q ->
            let (rs, q') := queue_run ops q in
            let (rs', l) := fifo_run ops (contents q) in
            rs = rs' /\ contents q' = l /\ queue_ok q').
  { clear ops. induction ops as [|op ops IH]; intros q Hok.
    - cbn. auto.
    - cbn [queue_run fifo_run].
      pose proof (queue_step_fifo op q Hok) as Hs.
      destruct (queue_step op q) as [r q1], (fifo_step op (contents q)) as [r' l1].
      destruct Hs as (-> & <- & Hok1).
      specialize (IH q1 Hok1).
      destruct (queue_run ops q1) as [rs q2], (fifo_run ops (contents q1)) as [rs' l2].
      destruct IH as (-> & <- & Hok2). auto. }
  specialize (Hgen ops queue_init queue_ok_init).
  change (contents queue_init) with (@nil CommandPacket) in Hgen.
  destruct (queue_run ops queue_init) as [rs q], (fifo_run ops []) as [rs' l].
  destruct Hgen as (-> & <- & Hok).
  pose proof (contents_length q) as Hlen. destruct Hok as (_ & _ & Hc & _).
  unfold QUEUE_SIZE in Hc. unfold size, isEmpty, isFull, QUEUE_SIZE.
  split; [reflexivity|]. split; [reflexivity|]. split; [lia|]. split; [lia|]. split.
  - destruct (Z.eqb_spec (count q) 0) as [E|E].
    + symmetry. apply bool_decide_eq_true. apply length_zero_iff_nil. lia.
    + symmetry. apply bool_decide_eq_false. intros H. rewrite H in Hlen. cbn in Hlen. lia.
  - destruct (Z.leb_spec 16 (count q)) as [E|E].
    + symmetry. apply bool_decide_eq_true. lia.
    + symmetry. apply bool_decide_eq_false. lia.
Qed.

(** ** The button *)

(** The time since [t0], read off a 32-bit millisecond counter. *)
Lemma u32_elapsed t0 e : 0 <= e < 4294967296 -> u32 (u32 (t0 + e) - t0) = e.
Proof.
  intros He. unfold u32. rewrite Zminus_mod_idemp_l.
  replace (t0 + e - t0) with e by lia. now apply Z.mod_small.
Qed.

(** X5: the ISR takes a press when more than 50 ms have passed since the
    last press it took, and ignores it otherwise; the count of the
    milliseconds is right across the wrap of the 32-bit counter.  The ISR
    sets the flag and never clears it, and emits nothing. *)
Theorem buttonISR_debounce (s : State) (e : Z) :
  0 <= e < 4294967296 ->
  millis s = u32 (last_button_press s + e) ->
  (e <= BUTTON_DEBOUNCE_MS -> buttonISR s = s)
  /\ (BUTTON_DEBOUNCE_MS < e ->
      buttonISR s = with_last_button_press (millis s) (with_flag true s))
  /\ (g_interrupt_flag s = true -> g_interrupt_flag (buttonISR s) = true)
  /\ out (buttonISR s) = out s.
Proof.
  intros He Hm.
  assert (E : u32 (millis s - last_button_press s) = e)
    by (rewrite Hm; now apply u32_elapsed).
  unfold buttonISR. cbv zeta. rewrite E.
  destruct (Z.ltb_spec BUTTON_DEBOUNCE_MS e) as [Hlt|Hge].
  - split; [lia|]. split; [reflexivity|]. split; reflexivity.
  - split; [reflexivity|]. split; [lia|]. split; [auto|reflexivity].
Qed.

Lemma buttonISR_debounce_witness :
  let s := async (Tick 50) init_state in
  let s' := async (Tick 4294967295) (buttonISR (async (Tick 100) init_state)) in
  buttonISR s = s
  /\ buttonISR s' = with_last_button_press (millis s') (with_flag true s').
Proof.
  intros s s'.
  assert (H1 : 0 <= 50 < 4294967296) by lia.
  assert (H2 : 0 <= 4294967295 < 4294967296) by lia.
  assert (M1 : millis s = u32 (last_button_press s + 50)) by reflexivity.
  assert (M2 : millis s' = u32 (last_button_press s' + 4294967295)) by reflexivity.
  assert (L1 : 50 <= BUTTON_DEBOUNCE_MS) by (unfold BUTTON_DEBOUNCE_MS; lia).
  assert (L2 : BUTTON_DEBOUNCE_MS < 4294967295) by (unfold BUTTON_DEBOUNCE_MS; lia).
  split.
  - exact (proj1 (buttonISR_debounce s 50 H1 M1) L1).
  - exact (proj1 (proj2 (buttonISR_debounce s' 4294967295 H2 M2)) L2).
Defined.

(** ** What each write leaves alone

    The ACK bytes, the HID calls and the timed action, write by write. *)

Lemma a_with_flag v s : c_acks (core (with_flag v s)) = c_acks (core s).
Proof. reflexivity. Qed.
Lemma a_with_log_enabled v s : c_acks (core (with_log_enabled v s)) = c_acks (core s).
Proof. reflexivity. Qed.
Lemma a_with_last_button_press v s : c_acks (core (with_last_button_press v s)) = c_acks (core s).
Proof. reflexivity. Qed.
Lemma a_with_queue v s : c_acks (core (with_queue v s)) = c_acks (core s).
Proof. reflexivity. Qed.
Lemma a_with_rx_buffer v s : c_acks (core (with_rx_buffer v s)) = c_acks (core s).
Proof. reflexivity. Qed.
Lemma a_with_rx_state v s : c_acks (core (with_rx_state v s)) = c_acks (core s).
Proof. reflexivity. Qed.
Lemma a_with_rx_len v s : c_acks (core (with_rx_len v s)) = c_acks (core s).
Proof. reflexivity. Qed.
Lemma a_with_rx_idx v s : c_acks (core (with_rx_idx v s)) = c_acks (core s).
Proof. reflexivity. Qed.
Lemma a_with_timed v s : c_acks (core (with_timed v s)) = c_acks (core s).
Proof. reflexivity. Qed.
Lemma a_with_last_stats_time v s : c_acks (core (with_last_stats_time v s)) = c_acks (core s).
Proof. reflexivity. Qed.
Lemma a_with_millis v s : c_acks (core (with_millis v s)) = c_acks (core s).
Proof. reflexivity. Qed.
Lemma a_emit c s : c_acks (core (emit (Ack c) s)) = c_acks (core s) ++ [c].
Proof. unfold core; cbn. now rewrite acks_app. Qed.
Lemma a_hid c s : c_acks (core (hid c s)) = c_acks (core s).
Proof. unfold core; cbn. rewrite acks_app; cbn. now rewrite app_nil_r. Qed.

Create Rewrite HintDb adb.
#[local] Hint Rewrite a_with_flag a_with_log_enabled a_with_last_button_press a_with_queue a_with_rx_buffer a_with_rx_state a_with_rx_len a_with_rx_idx a_with_timed a_with_last_stats_time a_with_millis a_emit a_hid : adb.

Lemma h_with_flag v s : c_hids (core (with_flag v s)) = c_hids (core s).
Proof. reflexivity. Qed.
Lemma h_with_log_enabled v s : c_hids (core (with_log_enabled v s)) = c_hids (core s).
Proof. reflexivity. Qed.
Lemma h_with_last_button_press v s : c_hids (core (with_last_button_press v s)) = c_hids (core s).
Proof. reflexivity. Qed.
Lemma h_with_queue v s : c_hids (core (with_queue v s)) = c_hids (core s).
Proof. reflexivity. Qed.
Lemma h_with_rx_buffer v s : c_hids (core (with_rx_buffer v s)) = c_hids (core s).
Proof. reflexivity. Qed.
Lemma h_with_rx_state v s : c_hids (core (with_rx_state v s)) = c_hids (core s).
Proof. reflexivity. Qed.
Lemma h_with_rx_len v s : c_hids (core (with_rx_len v s)) = c_hids (core s).
Proof. reflexivity. Qed.
Lemma h_with_rx_idx v s : c_hids (core (with_rx_idx v s)) = c_hids (core s).
Proof. reflexivity. Qed.
Lemma h_with_timed v s : c_hids (core (with_timed v s)) = c_hids (core s).
Proof. reflexivity. Qed.
Lemma h_with_last_stats_time v s : c_hids (core (with_last_stats_time v s)) = c_hids (core s).
Proof. reflexivity. Qed.
Lemma h_with_millis v s : c_hids (core (with_millis v s)) = c_hids (core s).
Proof. reflexivity. Qed.
Lemma h_emit c s : c_hids (core (emit (Ack c) s)) = c_hids (core s).
Proof. unfold core; cbn. rewrite hids_app; cbn. now rewrite app_nil_r. Qed.
Lemma h_hid c s : c_hids (core (hid c s)) = c_hids (core s) ++ [c].
Proof. unfold core; cbn. now rewrite hids_app. Qed.

Create Rewrite HintDb hdb.
#[local] Hint Rewrite h_with_flag h_with_log_enabled h_with_last_button_press h_with_queue h_with_rx_buffer h_with_rx_state h_with_rx_len h_with_rx_idx h_with_timed h_with_last_stats_time h_with_millis h_emit h_hid : hdb.

Lemma t_with_flag v s : c_timed (core (with_flag v s)) = c_timed (core s).
Proof. reflexivity. Qed.
Lemma t_with_log_enabled v s : c_timed (core (with_log_enabled v s)) = c_timed (core s).
Proof. reflexivity. Qed.
Lemma t_with_last_button_press v s : c_timed (core (with_last_button_press v s)) = c_timed (core s).
Proof. reflexivity. Qed.
Lemma t_with_queue v s : c_timed (core (with_queue v s)) = c_timed (core s).
Proof. reflexivity. Qed.
Lemma t_with_rx_buffer v s : c_timed (core (with_rx_buffer v s)) = c_timed (core s).
Proof. reflexivity. Qed.
Lemma t_with_rx_state v s : c_timed (core (with_rx_state v s)) = c_timed (core s).
Proof. reflexivity. Qed.
Lemma t_with_rx_len v s : c_timed (core (with_rx_len v s)) = c_timed (core s).
Proof. reflexivity. Qed.
Lemma t_with_rx_idx v s : c_timed (core (with_rx_idx v s)) = c_timed (core s).
Proof. reflexivity. Qed.
Lemma t_with_timed v s : c_timed (core (with_timed v s)) = v.
Proof. reflexivity. Qed.
Lemma t_with_last_stats_time v s : c_timed (core (with_last_stats_time v s)) = c_timed (core s).
Proof. reflexivity. Qed.
Lemma t_with_millis v s : c_timed (core (with_millis v s)) = c_timed (core s).
Proof. reflexivity. Qed.
Lemma t_emit e s : c_timed (core (emit e s)) = c_timed (core s).
Proof. reflexivity. Qed.
Lemma t_hid c s : c_timed (core (hid c s)) = c_timed (core s).
Proof. reflexivity. Qed.

Create Rewrite HintDb tdb.
#[local] Hint Rewrite t_with_flag t_with_log_enabled t_with_last_button_press t_with_queue t_with_rx_buffer t_with_rx_state t_with_rx_len t_with_rx_idx t_with_timed t_with_last_stats_time t_with_millis t_emit t_hid : tdb.

Ltac a_frame := rewrite ?lift_acks; autorewrite with coredb adb; try reflexivity.
Ltac h_frame := rewrite ?lift_hids; autorewrite with coredb hdb; try reflexivity.
Ltac t_frame := rewrite ?lift_timed; autorewrite with coredb tdb; try reflexivity.

(** ** The timed action *)

(** Two bytes, high byte first. *)
Lemma be16 hi lo :
  is_byte hi -> is_byte lo -> u16 (Z.lor (Z.shiftl hi 8) lo) = 256 * hi + lo.
Proof.
  unfold is_byte. intros Hh Hl.
  assert (Hd : Z.land (Z.shiftl hi 8) lo = 0).
  { apply Z.bits_inj'. intros n Hn. rewrite Z.land_spec, Z.bits_0.
    destruct (Z_lt_le_dec n 8) as [Hlt|Hge].
    - now rewrite Z.shiftl_spec_low by lia.
    - rewrite <- (Z.mod_small lo (2 ^ 8)) by (change (2 ^ 8) with 256; lia).
      rewrite Z.mod_pow2_bits_high by lia. apply andb_false_r. }
  rewrite <- Z.lxor_lor, <- Z.add_nocarry_lxor by exact Hd.
  rewrite Z.shiftl_mul_pow2 by lia. change (2 ^ 8) with 256.
  unfold u16. rewrite Z.mod_small; lia.
Qed.

Lemma timed_async a s : timedAction (async a s) = timedAction s.
Proof. destruct a; cbn; [unfold buttonISR; case_match|]; reflexivity. Qed.

Lemma timed_asyncs l s : timedAction (asyncs l s) = timedAction s.
Proof.
  revert s. induction l as [|a l IH]; intros s; [reflexivity|].
  cbn. change (fold_left _ l (async a s)) with (asyncs l (async a s)).
  now rewrite IH, timed_async.
Qed.

Lemma timed_kb_print_loop n mid p i s :
  timedAction (kb_print_loop n mid p i s) = timedAction s.
Proof.
  revert mid i s. induction n as [|n IH]; intros mid i s; [reflexivity|].
  cbn [kb_print_loop]. case_match; [apply timed_asyncs|].
  rewrite IH. t_frame. rewrite <- lift_timed. apply timed_asyncs.
Qed.

Lemma acks_kb_print_loop n mid p i s :
  acks (out (kb_print_loop n mid p i s)) = acks (out s).
Proof.
  revert mid i s. induction n as [|n IH]; intros mid i s; [reflexivity|].
  cbn [kb_print_loop]. case_match; [now rewrite out_asyncs|].
  rewrite IH. a_frame. rewrite <- lift_acks. now rewrite out_asyncs.
Qed.

(** The executor sends no ACK. *)
Lemma acks_dispatch mid pkt s : acks (out (dispatch mid pkt s)) = acks (out s).
Proof.
  unfold dispatch. repeat case_match; try (a_frame; fail).
  rewrite acks_kb_print_loop. a_frame.
Qed.

Lemma acks_executeCommand mid pkt s : acks (out (executeCommand mid pkt s)) = acks (out s).
Proof. unfold executeCommand. case_match; [a_frame|apply acks_dispatch]. Qed.

(** X6: a timed press of three parameter bytes (the target, then the
    duration in milliseconds, high byte first) presses the target and
    arms the timed action with the time of the press; no release is made
    and no ACK sent. *)
Theorem timed_press_starts (mid : list (list Async)) (pkt : CommandPacket) (s : State)
    (b hi lo : Z) :
  g_interrupt_flag s = false ->
  cmd pkt = CMD_MOUSE_PRESS_TIMED \/ cmd pkt = CMD_KB_PRESS_TIMED ->
  param_len pkt = 3 -> params pkt = [b; hi; lo] ->
  is_byte hi -> is_byte lo ->
  let s' := executeCommand mid pkt s in
  let ty := if cmd pkt =? CMD_MOUSE_PRESS_TIMED then 0 else 1 in
  timedAction s' = mkTimed true ty b (millis s) (256 * hi + lo)
  /\ hids (out s') = hids (out s) ++ [press_of (timedAction s')]
  /\ press_of (timedAction s') = (if ty =? 0 then MousePress b else KbPress b)
  /\ acks (out s') = acks (out s)
  /\ cmdQueue s' = cmdQueue s.
Proof.
  intros Hf Hc Hn Hp Hhi Hlo s' ty.
  assert (Ht : timedAction s' = mkTimed true ty b (millis s) (256 * hi + lo)).
  { subst s' ty. unfold executeCommand, dispatch. rewrite Hf, Hn, Hp.
    destruct Hc as [-> | ->]; eval_cmd; cbn [negb];
      t_frame; unfold byte_at; cbn [lookup list_lookup Z.to_nat Pos.to_nat
        Pos.iter_op Nat.add default from_option id];
      now rewrite be16 by assumption. }
  split; [exact Ht|]. rewrite Ht. unfold press_of. cbn [action_type button_or_key].
  split; [|split; [reflexivity|split]].
  - subst s' ty. unfold executeCommand, dispatch. rewrite Hf, Hn, Hp.
    destruct Hc as [-> | ->]; eval_cmd; cbn [negb]; h_frame.
  - apply acks_executeCommand.
  - subst s'. unfold executeCommand, dispatch. rewrite Hf, Hn, Hp.
    destruct Hc as [-> | ->]; eval_cmd; cbn [negb]; q_frame.
Qed.

Lemma timed_press_starts_witness :
  let pkt := mkPacket CMD_KB_PRESS_TIMED [65; 19; 136] 3 0 in
  let s' := executeCommand [] pkt (async (Tick 7) init_state) in
  timedAction s' = mkTimed true 1 65 7 5000
  /\ hids (out s') = [KbPress 65].
Proof.
  intros pkt s'.
  assert (Hhi : is_byte 19) by (unfold is_byte; lia).
  assert (Hlo : is_byte 136) by (unfold is_byte; lia).
  pose proof (timed_press_starts [] pkt (async (Tick 7) init_state) 65 19 136
                eq_refl (or_intror eq_refl) eq_refl eq_refl Hhi Hlo) as (Ht & Hh & Hp & _).
  split; [exact Ht|]. rewrite Hp in Hh. exact Hh.
Defined.

(** X7: an active timed action is left alone until its duration has
    passed since the press; at the first poll from then on its target is
    released, by the call that matches the kind of the action, and the
    action is over.  The count of the milliseconds is right across the
    wrap of the 32-bit counter. *)
Theorem timed_release_when_due (s : State) (e : Z) :
  active (timedAction s) = true ->
  0 <= e < 4294967296 ->
  millis s = u32 (start_time (timedAction s) + e) ->
  let t := timedAction s in
  let s' := poll_timed s in
  (e < duration_ms t -> s' = s)
  /\ (duration_ms t <= e ->
      hids (out s') = hids (out s) ++ [release_of t]
      /\ acks (out s') = acks (out s)
      /\ timedAction s'
         = mkTimed false (action_type t) (button_or_key t) (start_time t) (duration_ms t)
      /\ cmdQueue s' = cmdQueue s
      /\ g_interrupt_flag s' = g_interrupt_flag s).
Proof.
  intros Ha He Hm t s'.
  assert (E : u32 (millis s - start_time t) = e)
    by (subst t; rewrite Hm; now apply u32_elapsed).
  destruct (Z.leb_spec (duration_ms t) e) as [Hle|Hlt].
  - split; [lia|]. intros _.
    assert (Hc : core s'
                 = core (with_timed (mkTimed false (action_type t) (button_or_key t)
                                             (start_time t) (duration_ms t))
                                    (hid (release_of t) s))).
    { subst s'. unfold poll_timed. cbv zeta. fold t. fold t in Ha. rewrite Ha, E.
      destruct (Z.leb_spec (duration_ms t) e); [|lia].
      unfold release_of. destruct (action_type t =? 0); core_congr. }
    core_fields Hc. cbn [out with_timed hid emit with_out] in Hacks, Hhids.
    rewrite acks_app in Hacks. rewrite hids_app in Hhids. cbn in Hacks, Hhids.
    rewrite app_nil_r in Hacks. auto.
  - split; [|lia]. intros _.
    subst s'. unfold poll_timed. cbv zeta. fold t. fold t in Ha. rewrite Ha, E.
    destruct (Z.leb_spec (duration_ms t) e); [lia|reflexivity].
Qed.

Lemma timed_release_when_due_witness :
  let s0 := executeCommand [] (mkPacket CMD_MOUSE_PRESS_TIMED [1; 0; 200] 3 0) init_state in
  poll_timed (async (Tick 199) s0) = async (Tick 199) s0
  /\ hids (out (poll_timed (async (Tick 200) s0))) = [MousePress 1; MouseRelease 1].
Proof.
  intros s0.
  assert (H1 : 0 <= 199 < 4294967296) by lia.
  assert (H2 : 0 <= 200 < 4294967296) by lia.
  assert (L1 : 199 < duration_ms (timedAction (async (Tick 199) s0))) by reflexivity.
  assert (L2 : duration_ms (timedAction (async (Tick 200) s0)) <= 200)
    by (vm_compute; discriminate).
  split.
  - exact (proj1 (timed_release_when_due (async (Tick 199) s0) 199 eq_refl H1 eq_refl) L1).
  - exact (proj1 (proj2 (timed_release_when_due (async (Tick 200) s0) 200 eq_refl H2 eq_refl) L2)).
Defined.

Lemma timed_inv_frame s s' :
  timedAction s' = timedAction s -> hids (out s') = hids (out s) ->
  timed_inv s -> timed_inv s'.
Proof. unfold timed_inv. intros -> ->. auto. Qed.

Lemma timed_inv_off s : active (timedAction s) = false -> timed_inv s.
Proof. unfold timed_inv. intros ->. discriminate. Qed.

Lemma hids_kb_print_loop_timed n mid p i s :
  active (timedAction s) = false -> timed_inv (kb_print_loop n mid p i s).
Proof.
  intros Ha. apply timed_inv_off. now rewrite timed_kb_print_loop.
Qed.

Lemma u16_range z : 0 <= u16 z < 65536.
Proof. unfold u16. apply Z.mod_pos_bound. lia. Qed.

(** A command run with no timed action active leaves none active, or
    starts one with its press. *)
Lemma timed_inv_dispatch mid pkt s :
  active (timedAction s) = false -> timed_inv (dispatch mid pkt s).
Proof.
  intros Ha. unfold dispatch.
  repeat case_match;
    try (apply timed_inv_off; t_frame; rewrite <- lift_timed; exact Ha);
    try (apply timed_inv_off; rewrite timed_kb_print_loop; t_frame;
         rewrite <- lift_timed; exact Ha).
  - intros _. split; [|split].
    + h_frame. t_frame. unfold press_of. cbn [action_type button_or_key Z.eqb].
      apply last_snoc.
    + t_frame. cbn [action_type]. auto.
    + t_frame. cbn [duration_ms]. apply u16_range.
  - intros _. split; [|split].
    + h_frame. t_frame. unfold press_of. cbn [action_type button_or_key Z.eqb].
      apply last_snoc.
    + t_frame. cbn [action_type]. auto.
    + t_frame. cbn [duration_ms]. apply u16_range.
Qed.

Lemma timed_inv_executeCommand mid pkt s :
  active (timedAction s) = false -> timed_inv (executeCommand mid pkt s).
Proof.
  intros Ha. unfold executeCommand. case_match; [|now apply timed_inv_dispatch].
  apply timed_inv_off. t_frame. rewrite <- lift_timed. exact Ha.
Qed.

(** The commands of the control plane make no HID call and leave the
    timed action alone. *)
Lemma control_no_hid mid pkt s :
  (cmd pkt =? CMD_PAUSE_LOG) || (cmd pkt =? CMD_RESUME_LOG) || (cmd pkt =? CMD_CLEAR_QUEUE) = true ->
  hids (out (executeCommand mid pkt s)) = hids (out s)
  /\ timedAction (executeCommand mid pkt s) = timedAction s.
Proof.
  intros Hc. unfold executeCommand. case_match; [split; [h_frame|t_frame]|].
  unfold dispatch.
  assert (Hcmd : cmd pkt = CMD_PAUSE_LOG \/ cmd pkt = CMD_RESUME_LOG
                 \/ cmd pkt = CMD_CLEAR_QUEUE).
  { apply orb_true_iff in Hc. destruct Hc as [Hc|Hc]; [apply orb_true_iff in Hc; destruct Hc|];
      lia. }
  destruct Hcmd as [-> |[-> | ->]]; eval_cmd; (split; [h_frame | t_frame]).
Qed.

(** The dispatcher makes no HID call and leaves the timed action alone. *)
Lemma processPacket_no_hid data len s :
  hids (out (processPacket data len s)) = hids (out s)
  /\ timedAction (processPacket data len s) = timedAction s.
Proof.
  unfold processPacket. case_match; [split; [h_frame|t_frame]|].
  case_match.
  - match goal with H : _ || _ || _ = true |- _ =>
      destruct (control_no_hid [] _ (logPacketData data len s) H) as (Hh & Ht) end.
    split.
    + rewrite lift_hids, core_sendAck, h_emit, <- lift_hids, Hh. h_frame.
    + rewrite lift_timed, core_sendAck, t_emit, <- lift_timed, Ht. t_frame.
  - destruct (push _ _) as [[|] q']; (split; [h_frame | t_frame]).
Qed.

(** The receive loop makes no HID call and leaves the
    timed action alone, whatever it receives. *)
Lemma rx_byte_no_hid b s :
  hids (out (rx_byte b s)) = hids (out s)
  /\ timedAction (rx_byte b s) = timedAction s.
Proof.
  unfold rx_byte.
  destruct (rx_state s =? 0); [case_match; (split; [h_frame | t_frame])|].
  destruct (rx_state s =? 1); [case_match; (split; [h_frame | t_frame])|].
  destruct (rx_state s =? 2); [|split; reflexivity].
  cbv zeta. case_match; [|split; [h_frame | t_frame]].
  case_match.
  - match goal with |- context [processPacket ?d ?l ?x] =>
      destruct (processPacket_no_hid d l x) as (Hh & Ht) end.
    split.
    + rewrite lift_hids. autorewrite with hdb. rewrite <- lift_hids, Hh. h_frame.
    + rewrite lift_timed. autorewrite with tdb. rewrite <- lift_timed, Ht. t_frame.
  - split; [h_frame | t_frame].
Qed.

Lemma receive_no_hid input : forall s,
  hids (out (receive input s)) = hids (out s)
  /\ timedAction (receive input s) = timedAction s.
Proof.
  induction input as [|[before b] input IH]; intros s; [split; reflexivity|].
  cbn [receive]. destruct (IH (rx_byte (u8 b) (asyncs before s))) as (Hh & Ht).
  destruct (rx_byte_no_hid (u8 b) (asyncs before s)) as (Hh' & Ht').
  rewrite Hh, Ht, Hh', Ht', out_asyncs, timed_asyncs. split; reflexivity.
Qed.

(** X8: receiving makes no HID call and leaves the timed action alone,
    whatever arrives and whatever happens asynchronously in between. *)
Theorem receive_makes_no_hid_call (input : list (list Async * Z)) (s : State) :
  hids (out (receive input s)) = hids (out s)
  /\ timedAction (receive input s) = timedAction s.
Proof. apply receive_no_hid. Qed.

Lemma timed_inv_reachable s : reachable s -> timed_inv s.
Proof.
  induction 1 as [|s _ IH|a s _ IH|s _ IH|s _ IH|b s _ IH|mid s _ IH|s _ IH].
  - now apply timed_inv_off.
  - apply (timed_inv_frame s); [unfold setup; t_frame|unfold setup; h_frame|exact IH].
  - apply (timed_inv_frame s); [apply timed_async|now rewrite out_async|exact IH].
  - destruct (g_interrupt_flag s) eqn:Hf.
    + apply timed_inv_off. now apply timed_service_interrupt.
    + unfold service_interrupt. now rewrite Hf.
  - unfold poll_timed. cbv zeta. destruct (active (timedAction s)) eqn:Ha; [|exact IH].
    case_match; [|exact IH].
    apply timed_inv_off. reflexivity.
  - destruct (rx_byte_no_hid (u8 b) s) as (Hh & Ht).
    now apply (timed_inv_frame s).
  - unfold run_queue. destruct (active (timedAction s)) eqn:Ha; [exact IH|].
    cbn [negb andb]. case_match; [|exact IH].
    destruct (pop (cmdQueue s)) as [[pkt q']|]; [|exact IH].
    apply timed_inv_executeCommand. exact Ha.
  - apply (timed_inv_frame s); [| |exact IH].
    + unfold report_stats. case_match; t_frame.
    + unfold report_stats. case_match; h_frame.
Qed.

(** X9: in every state the program passes through, while a timed action
    is active the press that started it is the last call the HID library
    has received: nothing is pressed, released, moved or typed during the
    hold.  The action is a mouse or a keyboard action and its duration fits
    16 bits. *)
Theorem timed_hold_is_exclusive (s : State) :
  reachable s ->
  active (timedAction s) = true ->
  last (hids (out s)) = Some (press_of (timedAction s))
  /\ (action_type (timedAction s) = 0 \/ action_type (timedAction s) = 1)
  /\ 0 <= duration_ms (timedAction s) < 65536.
Proof. intros Hr. exact (timed_inv_reachable s Hr). Qed.

Lemma timed_hold_is_exclusive_witness :
  let s := run [mkInput [] [] (quiet (frame [CMD_MOUSE_CLICK; 1]
                                      ++ frame [CMD_KB_PRESS_TIMED; 65; 19; 136]
                                      ++ frame [CMD_KB_WRITE; 66])) [] [] [];
                mkInput [] [] [] [] [] [];
                mkInput [Button] [Tick 100] [] [] [] []] init_state in
  last (hids (out s)) = Some (KbPress 65).
Proof.
  intros s.
  assert (Hr : reachable s) by (apply reachable_run, reach_init).
  assert (Ha : active (timedAction s) = true) by (vm_compute; reflexivity).
  exact (proj1 (timed_hold_is_exclusive s Hr Ha)).
Defined.

(** ** Whole frames *)

(** The bytes after the length byte, up to the CRC byte. *)
Lemma receive_payload s input payload c :
  rx_state s = 2 -> rx_idx s = 0 -> 1 <= rx_len s <= 31 ->
  length (rx_buffer s) = 32%nat ->
  map (fun x => u8 (snd x)) input = payload ++ [c] ->
  Z.of_nat (length payload) = rx_len s ->
  let L := rx_len s in
  let s1 := with_rx_idx (L + 1)
              (with_rx_buffer (payload ++ c :: drop (S (length payload)) (rx_buffer s))
                 (asyncs (concat (map fst input)) s)) in
  receive input s
  = with_rx_idx 0 (with_rx_state 0
      (if c =? crc8 payload L
       then processPacket (rx_buffer s1) L s1
       else sendAck ACK_CRC_ERROR (logCRCError (crc8 payload L) c s1))).
Proof.
  intros Hs Hi Hl Hlen Hmap Hpl L s1.
  apply map_eq_app in Hmap. destruct Hmap as (init & last & Hin & Hinit & Hlast).
  destruct last as [|[before bc] [|? ?]]; try discriminate.
  cbn in Hlast. injection Hlast as Hc.
  assert (Hli : length init = length payload) by (rewrite <- Hinit; now rewrite length_map).
  rewrite Hin, receive_app.
  rewrite (receive_store init s); try lia; try assumption.
  rewrite Hi, Hinit. change (Z.to_nat 0) with 0%nat.
  rewrite take_0, Z.add_0_l. cbn [app Nat.add].
  cbn [receive]. rewrite Hc.
  rewrite asyncs_with_rx_idx, asyncs_with_rx_buffer, <- asyncs_app.
  replace (concat (map fst init) ++ before)
    with (concat (map fst input))
    by (rewrite Hin, map_app, concat_app; cbn; now rewrite app_nil_r).
  set (X := asyncs (concat (map fst input)) s).
  destruct (rx_asyncs (concat (map fst input)) s) as (Rb & Rs & Rl & Ri).
  fold X in Rb, Rs, Rl, Ri.
  rewrite rx_byte_close;
    cbn [rx_state rx_idx rx_len rx_buffer with_rx_idx with_rx_buffer];
    try congruence; try (rewrite Rl; fold L; lia).
  rewrite with_rx_twice, Rl. fold L. rewrite Hli.
  assert (HB : <[Z.to_nat L := c]> (payload ++ drop (length payload) (rx_buffer s))
             = payload ++ c :: drop (S (length payload)) (rx_buffer s)).
  { rewrite insert_app_r_alt by lia.
    replace (Z.to_nat L - length payload)%nat with 0%nat by lia.
    destruct (lookup_lt_is_Some_2 (rx_buffer s) (length payload) ltac:(lia)) as [y Hy].
    rewrite (drop_S _ y _ Hy). reflexivity. }
  rewrite HB.
  assert (Hrcv : byte_at (payload ++ c :: drop (S (length payload)) (rx_buffer s)) L = c).
  { unfold byte_at. rewrite list_lookup_middle by lia. reflexivity. }
  assert (Hcrc : crc8 (payload ++ c :: drop (S (length payload)) (rx_buffer s)) L
               = crc8 payload L).
  { unfold L. rewrite <- Hpl. apply crc8_prefix. }
  rewrite Hrcv, Hcrc. reflexivity.
Qed.

(** The SYNC byte and a length byte of 1..31. *)
Lemma receive_header a0 b0 a1 b1 s L :
  rx_state s = 0 -> u8 b0 = SYNC_BYTE -> u8 b1 = L -> 1 <= L <= 31 ->
  receive [(a0, b0); (a1, b1)] s
  = with_rx_idx 0 (with_rx_state 2
      (logPacketReceived L
         (with_rx_len L (asyncs a1 (with_rx_idx 0 (with_rx_state 1 (asyncs a0 s))))))).
Proof.
  intros Hs H0 H1 HL. cbn [receive]. rewrite H0, H1.
  destruct (rx_asyncs a0 s) as (_ & Rs & _).
  unfold rx_byte at 2. rewrite Rs, Hs. cbn [Z.eqb]. rewrite Z.eqb_refl.
  set (X := asyncs a1 _).
  assert (Rx : rx_state X = 1) by (subst X; now destruct (rx_asyncs a1 (with_rx_idx 0
             (with_rx_state 1 (asyncs a0 s)))) as (_ & -> & _)).
  unfold rx_byte. rewrite Rx. cbn [Z.eqb Pos.eqb]. cbv zeta.
  cbn [rx_len with_rx_len]. unfold MAX_PACKET_SIZE.
  destruct (Z.eqb_spec L 0); [lia|]. destruct (Z.ltb_spec (32 - 1) L); [lia|].
  reflexivity.
Qed.

(** The dispatcher answers every payload with one ACK byte. *)
Lemma processPacket_one_ack data len s :
  exists a, acks (out (processPacket data len s)) = acks (out s) ++ [a]
            /\ (a = ACK_SUCCESS \/ a = ACK_PARAM_ERROR).
Proof.
  unfold processPacket. case_match.
  - exists ACK_PARAM_ERROR. split; [a_frame|auto].
  - case_match.
    + exists ACK_SUCCESS. split; [|auto].
      rewrite lift_acks, core_sendAck, a_emit, <- lift_acks, acks_executeCommand. a_frame.
    + destruct (push _ _) as [[|] q'].
      * exists ACK_SUCCESS. split; [a_frame|auto].
      * exists ACK_PARAM_ERROR. split; [a_frame|auto].
Qed.

Lemma acks_asyncs l s : acks (out (asyncs l s)) = acks (out s).
Proof. now rewrite out_asyncs. Qed.

(** X10: a frame with a length byte of 1..31 is answered by exactly one
    ACK byte once its CRC byte is in, and by none before: ACK_CRC_ERROR
    exactly when the CRC byte is not the CRC of the payload, ACK_SUCCESS or
    ACK_PARAM_ERROR otherwise.  No HID call is made and the parser is back
    at the start, whatever happens asynchronously in between. *)
Theorem one_ack_per_frame (s : State) (input : list (list Async * Z))
    (L : Z) (payload : list Z) (c : Z) :
  rx_state s = 0 -> length (rx_buffer s) = 32%nat ->
  map (fun x => u8 (snd x)) input = SYNC_BYTE :: L :: payload ++ [c] ->
  1 <= L <= 31 -> Z.of_nat (length payload) = L ->
  let s' := receive input s in
  exists a,
    acks (out s') = acks (out s) ++ [a]
    /\ (a = ACK_CRC_ERROR <-> c <> crc8 payload L)
    /\ (a = ACK_SUCCESS \/ a = ACK_CRC_ERROR \/ a = ACK_PARAM_ERROR)
    /\ hids (out s') = hids (out s)
    /\ rx_state s' = 0
    /\ (forall k, (k < length input)%nat ->
          acks (out (receive (take k input) s)) = acks (out s)).
Proof.
  intros Hs Hlen Hmap HL Hpl s'.
  destruct input as [|[a0 b0] [|[a1 b1] rest]]; try discriminate.
  cbn [map snd] in Hmap. injection Hmap as H0 H1 Hrest.
  pose proof (receive_header a0 b0 a1 b1 s L Hs H0 H1 HL) as Hhead.
  set (s2 := receive [(a0, b0); (a1, b1)] s) in *.
  assert (Hall : s' = receive rest s2) by reflexivity.
  assert (Hs2 : forall k, receive ([(a0, b0); (a1, b1)] ++ take k rest) s
                          = receive (take k rest) s2) by (intros k; apply receive_app).
  clearbody s2.
  assert (Hv : rx_view s2 = rx_view (with_rx_idx 0 (with_rx_state 2 (with_rx_len L s)))).
  { rewrite Hhead. unfold rx_view.
    rewrite (with_rx_idx_congr 0 _ (with_rx_state 2 (with_rx_len L
               (asyncs a1 (with_rx_idx 0 (with_rx_state 1 (asyncs a0 s)))))))
      by core_congr.
    destruct (rx_asyncs a1 (with_rx_idx 0 (with_rx_state 1 (asyncs a0 s)))) as (Rb & _).
    destruct (rx_asyncs a0 s) as (Rb0 & _).
    unfold rx_of. cbn. now rewrite Rb, <- Rb0. }
  apply rx_view_fields in Hv. cbn in Hv. destruct Hv as (Vb & Vs & Vl & Vi).
  assert (Ha2 : acks (out s2) = acks (out s)).
  { rewrite Hhead. a_frame. rewrite <- lift_acks, acks_asyncs. a_frame.
    rewrite <- lift_acks. apply acks_asyncs. }
  assert (Hh2 : hids (out s2) = hids (out s)).
  { rewrite Hhead. h_frame. rewrite <- lift_hids, out_asyncs. h_frame.
    rewrite <- lift_hids. now rewrite out_asyncs. }
  pose proof (receive_payload s2 rest payload c Vs Vi ltac:(lia) ltac:(congruence) Hrest
                ltac:(lia)) as Hp.
  cbv zeta in Hp. rewrite Vl in Hp.
  set (s1 := with_rx_idx (L + 1) _) in Hp.
  assert (Ha1 : acks (out s1) = acks (out s)) by (subst s1; cbn; now rewrite out_asyncs).
  assert (Hh1 : hids (out s1) = hids (out s)) by (subst s1; cbn; now rewrite out_asyncs).
  assert (Hpre : forall k, (k < length ((a0, b0) :: (a1, b1) :: rest))%nat ->
            acks (out (receive (take k ((a0, b0) :: (a1, b1) :: rest)) s)) = acks (out s)).
  { intros k Hk. cbn [length] in Hk.
    destruct k as [|[|k]]; [reflexivity| |].
    - cbn [take receive]. unfold rx_byte.
      destruct (rx_asyncs a0 s) as (_ & -> & _). rewrite Hs. cbn [Z.eqb].
      rewrite H0, Z.eqb_refl. a_frame. rewrite <- lift_acks. apply acks_asyncs.
    - change (take (S (S k)) ((a0, b0) :: (a1, b1) :: rest))
        with ([(a0, b0); (a1, b1)] ++ take k rest).
      rewrite Hs2.
      assert (Hlr : length rest = S (length payload)).
      { apply (f_equal (@length Z)) in Hrest.
        rewrite length_map, length_app in Hrest. cbn in Hrest. lia. }
      rewrite (receive_store (take k rest) s2); rewrite ?length_take; try lia; try congruence.
      cbn [out with_rx_idx with_rx_buffer]. now rewrite out_asyncs. }
  destruct (Z.eqb_spec c (crc8 payload L)) as [Ec|Ec].
  - destruct (processPacket_one_ack (rx_buffer s1) L s1) as (a & Hpa & Hcode).
    destruct (processPacket_no_hid (rx_buffer s1) L s1) as (Hph & _).
    exists a. rewrite Hall, Hp. cbn [out rx_state with_rx_idx with_rx_state].
    rewrite Hpa, Hph, Ha1, Hh1.
    split; [reflexivity|]. split.
    + split; [|tauto]. intros ->. destruct Hcode as [Hx|Hx]; discriminate Hx.
    + split; [tauto|]. split; [reflexivity|]. split; [reflexivity|exact Hpre].
  - exists ACK_CRC_ERROR. rewrite Hall, Hp. cbn [out rx_state with_rx_idx with_rx_state].
    split; [a_frame; rewrite <- lift_acks, Ha1; reflexivity|].
    split; [tauto|]. split; [tauto|].
    split; [h_frame; rewrite <- lift_hids; exact Hh1|]. split; [reflexivity|exact Hpre].
Qed.

Lemma one_ack_per_frame_witness :
  exists a,
    acks (out (receive (quiet [SYNC_BYTE; 2; CMD_MOUSE_CLICK; 1; 0x66]) init_state)) = [] ++ [a]
    /\ (a = ACK_CRC_ERROR <-> 0x66 <> crc8 [CMD_MOUSE_CLICK; 1] 2).
Proof.
  assert (HL : 1 <= 2 <= 31) by lia.
  destruct (one_ack_per_frame init_state
              (quiet [SYNC_BYTE; 2; CMD_MOUSE_CLICK; 1; 0x66]) 2 [CMD_MOUSE_CLICK; 1] 0x66
              eq_refl eq_refl eq_refl HL eq_refl) as (a & Ha & Hc & _).
  exists a. split; [exact Ha | exact Hc].
Defined.

(** ** The ACK bytes *)

Lemma ack_sent_app l1 l2 : Forall ack_sent l1 -> Forall ack_sent l2 -> Forall ack_sent (l1 ++ l2).
Proof. intros. now apply Forall_app. Qed.

Lemma rx_byte_acks b s :
  exists l, acks (out (rx_byte b s)) = acks (out s) ++ l /\ Forall ack_sent l.
Proof.
  unfold rx_byte.
  destruct (rx_state s =? 0).
  { exists []. split; [|constructor]. rewrite app_nil_r. case_match; a_frame. }
  destruct (rx_state s =? 1).
  { cbv zeta. case_match.
    - exists [ACK_PARAM_ERROR]. split; [a_frame|].
      constructor; [unfold ack_sent; auto|constructor].
    - exists []. split; [|constructor]. rewrite app_nil_r. a_frame. }
  destruct (rx_state s =? 2); [|exists []; split; [now rewrite app_nil_r|constructor]].
  cbv zeta. case_match.
  - case_match.
    + match goal with |- context [processPacket ?d ?l ?x] =>
        destruct (processPacket_one_ack d l x) as (a & Ha & Hc) end.
      exists [a]. split.
      * rewrite lift_acks. autorewrite with adb. rewrite <- lift_acks, Ha. a_frame.
      * constructor; [unfold ack_sent; tauto|constructor].
    + exists [ACK_CRC_ERROR]. split; [a_frame|].
      constructor; [unfold ack_sent; auto|constructor].
  - exists []. split; [|constructor]. rewrite app_nil_r. a_frame.
Qed.

Lemma ack_sent_reachable s : reachable s -> Forall ack_sent (acks (out s)).
Proof.
  induction 1 as [|s _ IH|a s _ IH|s _ IH|s _ IH|b s _ IH|mid s _ IH|s _ IH].
  - constructor.
  - replace (acks (out (setup s))) with (acks (out s)); [exact IH|].
    unfold setup. a_frame.
  - now rewrite out_async.
  - destruct (g_interrupt_flag s) eqn:Hf.
    + rewrite (out_service_interrupt s Hf). rewrite !acks_app, !acks_log.
      apply ack_sent_app; [exact IH|]. cbn [app acks flat_map].
      destruct (active (timedAction s)); cbn [app acks flat_map];
        (constructor; [unfold ack_sent; auto|constructor]).
    + unfold service_interrupt. now rewrite Hf.
  - replace (acks (out (poll_timed s))) with (acks (out s)); [exact IH|].
    unfold poll_timed. repeat case_match; a_frame.
  - destruct (rx_byte_acks (u8 b) s) as (l & -> & Hl). now apply ack_sent_app.
  - replace (acks (out (run_queue mid s))) with (acks (out s)); [exact IH|].
    unfold run_queue. case_match; [|reflexivity].
    destruct (pop _) as [[pkt q']|]; [|reflexivity].
    now rewrite acks_executeCommand.
  - replace (acks (out (report_stats s))) with (acks (out s)); [exact IH|].
    unfold report_stats. case_match; a_frame.
Qed.

(** X11: the only bytes the sketch ever writes on the primary channel
    are ACK_SUCCESS, ACK_CRC_ERROR, ACK_PARAM_ERROR and ACK_INTERRUPTED;
    ACK_INVALID_CMD (0xF2) is defined and never sent. *)
Theorem acks_sent_are_known (s : State) :
  reachable s ->
  Forall ack_sent (acks (out s))
  /\ ~ In ACK_INVALID_CMD (acks (out s)).
Proof.
  intros Hr. pose proof (ack_sent_reachable s Hr) as H.
  split; [exact H|]. intros Hin.
  rewrite List.Forall_forall in H. specialize (H _ Hin).
  unfold ack_sent in H. destruct H as [H|[H|[H|H]]]; discriminate H.
Qed.

Lemma acks_sent_are_known_witness :
  let s := run [mkInput [] [] (quiet (frame [0x99; 1])) [] [] []] (setup init_state) in
  acks (out s) = [ACK_SUCCESS] /\ ~ In ACK_INVALID_CMD (acks (out s)).
Proof.
  intros s.
  assert (Hr : reachable s) by (apply reachable_run, reach_setup, reach_init).
  split; [reflexivity|]. exact (proj2 (acks_sent_are_known s Hr)).
Defined.

(** ** A frame from the wire to the queue *)

Lemma quiet_bytes l : Forall is_byte l -> map (fun x => u8 (snd x)) (quiet l) = l.
Proof.
  induction 1 as [|b l Hb _ IH]; [reflexivity|].
  cbn [quiet map snd]. f_equal; [unfold u8; apply Z.mod_small; exact Hb|].
  exact IH.
Qed.

Lemma quiet_asyncs l : concat (map fst (quiet l)) = [].
Proof. induction l as [|b l IH]; [reflexivity|exact IH]. Qed.

Lemma crc8_is_byte data len : is_byte (crc8 data len).
Proof.
  unfold crc8. generalize 0 at 1. generalize (Z.to_nat len) as n.
  assert (H : forall n i crc, is_byte crc -> is_byte (crc8_loop n data i crc)).
  { induction n as [|n IH]; intros i crc Hc; [exact Hc|].
    cbn [crc8_loop]. apply IH, pgm_read_byte_is_byte. }
  intros n i. apply H. unfold is_byte. lia.
Qed.

(** The state in which the dispatcher is called on a frame that arrives
    with nothing asynchronous in between. *)
Lemma receive_quiet_frame s payload c :
  rx_state s = 0 -> length (rx_buffer s) = 32%nat ->
  Forall is_byte payload -> is_byte c ->
  (1 <= length payload <= 31)%nat ->
  let L := Z.of_nat (length payload) in
  let s2 := with_rx_idx 0 (with_rx_state 2 (logPacketReceived L
              (with_rx_len L (with_rx_idx 0 (with_rx_state 1 s))))) in
  let s1 := with_rx_idx (L + 1)
              (with_rx_buffer (payload ++ c :: drop (S (length payload)) (rx_buffer s)) s2) in
  receive (quiet (SYNC_BYTE :: L :: payload ++ [c])) s
  = with_rx_idx 0 (with_rx_state 0
      (if c =? crc8 payload L
       then processPacket (rx_buffer s1) L s1
       else sendAck ACK_CRC_ERROR (logCRCError (crc8 payload L) c s1))).
Proof.
  intros Hs Hlen Hp Hc Hl L s2 s1.
  change (quiet (SYNC_BYTE :: L :: payload ++ [c]))
    with ([([], SYNC_BYTE); ([], L)] ++ quiet (payload ++ [c])).
  rewrite receive_app.
  assert (HL : 1 <= L <= 31) by (subst L; lia).
  rewrite (receive_header [] SYNC_BYTE [] L s L Hs eq_refl
             ltac:(unfold u8; apply Z.mod_small; lia) HL).
  cbn [asyncs fold_left]. fold s2.
  assert (Hv : rx_view s2 = rx_view (with_rx_idx 0 (with_rx_state 2 (with_rx_len L s)))).
  { subst s2. unfold rx_view.
    rewrite (with_rx_idx_congr 0 _ (with_rx_state 2 (with_rx_len L
               (with_rx_idx 0 (with_rx_state 1 s))))) by core_congr.
    reflexivity. }
  apply rx_view_fields in Hv.
  cbn [rx_buffer rx_state rx_len rx_idx with_rx_idx with_rx_state with_rx_len] in Hv.
  destruct Hv as (Vb & Vs & Vl & Vi).
  assert (Hb : Forall is_byte (payload ++ [c]))
    by (apply Forall_app; split; [exact Hp|constructor; [exact Hc|constructor]]).
  pose proof (receive_payload s2 (quiet (payload ++ [c])) payload c Vs Vi
                ltac:(lia) ltac:(congruence) (quiet_bytes _ Hb) ltac:(lia)) as Hrp.
  cbv zeta in Hrp. rewrite Vl, Vb, quiet_asyncs in Hrp. exact Hrp.
Qed.

(** A frame with the right CRC reaches the dispatcher. *)
Lemma receive_good_frame s payload :
  rx_state s = 0 -> length (rx_buffer s) = 32%nat ->
  Forall is_byte payload -> (1 <= length payload <= 31)%nat ->
  let L := Z.of_nat (length payload) in
  let s2 := with_rx_idx 0 (with_rx_state 2 (logPacketReceived L
              (with_rx_len L (with_rx_idx 0 (with_rx_state 1 s))))) in
  let s1 := with_rx_idx (L + 1)
              (with_rx_buffer (payload ++ crc8 payload L
                                 :: drop (S (length payload)) (rx_buffer s)) s2) in
  receive (quiet (frame payload)) s
  = with_rx_idx 0 (with_rx_state 0 (processPacket (rx_buffer s1) L s1)).
Proof.
  intros Hs Hlen Hb Hl L s2 s1.
  pose proof (receive_quiet_frame s payload (crc8 payload L) Hs Hlen Hb
                (crc8_is_byte _ _) Hl) as Hrq.
  cbv zeta in Hrq. fold L in Hrq. rewrite Z.eqb_refl in Hrq. exact Hrq.
Qed.

(** What the dispatcher is handed for the payload [op :: ps]. *)
Lemma good_frame_packet s op ps B X :
  let s1 := with_rx_idx X (with_rx_buffer ((op :: ps) ++ B) s) in
  byte_at (rx_buffer s1) 0 = op
  /\ take (length ps) (drop 1 (rx_buffer s1)) = ps.
Proof.
  intros s1. subst s1. cbn [rx_buffer with_rx_idx with_rx_buffer]. split; [reflexivity|].
  cbn [drop app]. apply take_app_length.
Qed.

(** X12: a frame built as SYNC, length, payload, CRC of the payload,
    whose first payload byte is a data-plane opcode, received by the idle
    parser while the queue has room: the command (the opcode, the bytes
    after it as parameters, the time of arrival) is appended to the queue
    and ACK_SUCCESS is sent; no HID call is made yet. *)
Theorem frame_enqueues_command (s : State) (op : Z) (ps : list Z) :
  rx_state s = 0 -> length (rx_buffer s) = 32%nat ->
  queue_ok (cmdQueue s) -> (length (contents (cmdQueue s)) < 16)%nat ->
  Forall is_byte (op :: ps) -> (length ps <= 30)%nat ->
  op <> CMD_PAUSE_LOG -> op <> CMD_RESUME_LOG -> op <> CMD_CLEAR_QUEUE ->
  let s' := receive (quiet (frame (op :: ps))) s in
  contents (cmdQueue s')
  = contents (cmdQueue s) ++ [mkPacket op ps (Z.of_nat (length ps)) (millis s)]
  /\ acks (out s') = acks (out s) ++ [ACK_SUCCESS]
  /\ hids (out s') = hids (out s)
  /\ rx_state s' = 0.
Proof.
  intros Hs Hlen Hok Hroom Hb Hl H1 H2 H3 s'.
  pose proof (receive_good_frame s (op :: ps) Hs Hlen Hb ltac:(cbn [length]; lia)) as Hrq.
  cbv zeta in Hrq. fold s' in Hrq. clearbody s'.
  assert (HL : 1 <= Z.of_nat (length (op :: ps)) <= 31
               /\ Z.of_nat (length (op :: ps)) - 1 = Z.of_nat (length ps))
    by (cbn [length]; lia).
  generalize dependent (Z.of_nat (length (op :: ps))). intros L Hrq HL.
  generalize dependent (crc8 (op :: ps) L :: drop (S (length (op :: ps))) (rx_buffer s)).
  intros B Hrq.
  pose proof (good_frame_packet
                (with_rx_idx 0 (with_rx_state 2 (logPacketReceived L
                   (with_rx_len L (with_rx_idx 0 (with_rx_state 1 s))))))
                op ps B (L + 1)) as Hpk.
  cbv zeta in Hpk.
  set (s1 := with_rx_idx (L + 1) _) in *.
  destruct Hpk as (Hop & Hps).
  assert (Hq1 : cmdQueue s1 = cmdQueue s) by (subst s1; q_frame).
  assert (Hm1 : millis s1 = millis s)
    by (subst s1; cbn [millis with_rx_idx with_rx_buffer with_rx_state];
        rewrite lift_millis, core_logPacketReceived; reflexivity).
  assert (Ha1 : acks (out s1) = acks (out s)) by (subst s1; a_frame).
  assert (Hh1 : hids (out s1) = hids (out s)) by (subst s1; h_frame).
  clearbody s1.
  pose proof (processPacket_data_plane (rx_buffer s1) L s1 ltac:(lia)
                ltac:(now rewrite Hop) ltac:(now rewrite Hop) ltac:(now rewrite Hop)) as Hpp.
  cbv zeta in Hpp.
  replace (Z.to_nat (L - 1)) with (length ps) in Hpp by lia.
  rewrite Hop, Hps, Hq1, Hm1 in Hpp.
  replace (L - 1) with (Z.of_nat (length ps)) in Hpp by lia.
  assert (Hcount : count (cmdQueue s) < QUEUE_SIZE).
  { rewrite contents_length in Hroom. destruct Hok as (_ & _ & Hc & _).
    unfold QUEUE_SIZE in *. lia. }
  destruct (push_ok (mkPacket op ps (Z.of_nat (length ps)) (millis s)) (cmdQueue s) Hok Hcount)
    as (q' & Hpush & Hcont & _).
  rewrite Hpush in Hpp. rewrite Hrq, Hpp.
  split; [|split; [|split]].
  - rewrite <- Hcont. f_equal. q_frame.
  - a_frame. rewrite <- lift_acks, Ha1. a_frame.
  - h_frame. rewrite <- lift_hids, Hh1. h_frame.
  - reflexivity.
Qed.

Lemma frame_enqueues_command_witness :
  let s' := receive (quiet (frame [CMD_MOUSE_MOVE; 5; 251; 0])) init_state in
  contents (cmdQueue s') = [] ++ [mkPacket CMD_MOUSE_MOVE [5; 251; 0] 3 0]
  /\ acks (out s') = [] ++ [ACK_SUCCESS].
Proof.
  intros s'.
  assert (Hok : queue_ok (cmdQueue init_state))
    by (vm_compute; repeat split; congruence).
  assert (Hroom : (length (contents (cmdQueue init_state)) < 16)%nat)
    by (change (0 < 16)%nat; lia).
  assert (Hb : Forall is_byte [CMD_MOUSE_MOVE; 5; 251; 0])
    by (repeat constructor; unfold is_byte, CMD_MOUSE_MOVE; lia).
  assert (Hl : (length [5; 251; 0] <= 30)%nat) by (cbn; lia).
  assert (H1 : CMD_MOUSE_MOVE <> CMD_PAUSE_LOG) by discriminate.
  assert (H2 : CMD_MOUSE_MOVE <> CMD_RESUME_LOG) by discriminate.
  assert (H3 : CMD_MOUSE_MOVE <> CMD_CLEAR_QUEUE) by discriminate.
  pose proof (frame_enqueues_command init_state CMD_MOUSE_MOVE [5; 251; 0]
                eq_refl eq_refl Hok Hroom Hb Hl H1 H2 H3) as (Hc & Ha & _).
  split; [exact Hc | exact Ha].
Defined.

(** X13: a frame in which one payload byte was changed on the way is
    answered with ACK_CRC_ERROR; nothing reaches the queue, no HID call is
    made and the parser is back at the start. *)
Theorem corrupted_frame_rejected (s : State) (payload : list Z) (i : nat) (b b' : Z) :
  rx_state s = 0 -> length (rx_buffer s) = 32%nat ->
  Forall is_byte payload -> (1 <= length payload <= 31)%nat ->
  payload !! i = Some b -> is_byte b' -> b' <> b ->
  let L := Z.of_nat (length payload) in
  let s' := receive (quiet (SYNC_BYTE :: L :: <[i := b']> payload ++ [crc8 payload L])) s in
  acks (out s') = acks (out s) ++ [ACK_CRC_ERROR]
  /\ cmdQueue s' = cmdQueue s
  /\ hids (out s') = hids (out s)
  /\ rx_state s' = 0.
Proof.
  intros Hs Hlen Hb Hl Hi Hb' Hne L s'.
  assert (Hb2 : Forall is_byte (<[i := b']> payload)).
  { rewrite Forall_lookup. intros j x Hj.
    destruct (decide (i = j)) as [->|Hij].
    - rewrite list_lookup_insert_eq in Hj by (apply lookup_lt_is_Some_1; eauto).
      now injection Hj as <-.
    - rewrite list_lookup_insert_ne in Hj by exact Hij.
      rewrite Forall_lookup in Hb. exact (Hb _ _ Hj). }
  pose proof (crc8_one_byte_differs payload i b b' Hb Hi Hb' Hne) as Hcrc. fold L in Hcrc.
  pose proof (receive_quiet_frame s (<[i := b']> payload) (crc8 payload L) Hs Hlen Hb2
                (crc8_is_byte _ _) ltac:(rewrite length_insert; exact Hl)) as Hrq.
  cbv zeta in Hrq. rewrite length_insert in Hrq. fold L in Hrq. fold s' in Hrq.
  destruct (Z.eqb_spec (crc8 payload L) (crc8 (<[i := b']> payload) L)) as [E|_];
    [congruence|].
  clearbody s'. rewrite Hrq.
  split; [a_frame|]. split; [q_frame|]. split; [h_frame|reflexivity].
Qed.

Lemma corrupted_frame_rejected_witness :
  let s' := receive (quiet (SYNC_BYTE :: 2 :: [CMD_MOUSE_CLICK; 2]
                                   ++ [crc8 [CMD_MOUSE_CLICK; 1] 2])) init_state in
  acks (out s') = [] ++ [ACK_CRC_ERROR] /\ cmdQueue s' = cmdQueue init_state.
Proof.
  intros s'.
  assert (Hb : Forall is_byte [CMD_MOUSE_CLICK; 1])
    by (repeat constructor; unfold is_byte, CMD_MOUSE_CLICK; lia).
  assert (Hl : (1 <= length [CMD_MOUSE_CLICK; 1%Z] <= 31)%nat) by (cbn [length]; lia).
  assert (Hb' : is_byte 2) by (unfold is_byte; lia).
  assert (Hne : 2 <> 1) by lia.
  pose proof (corrupted_frame_rejected init_state [CMD_MOUSE_CLICK; 1] 1 1 2
                eq_refl eq_refl Hb Hl eq_refl Hb' Hne) as (Ha & Hq & _).
  split; [exact Ha | exact Hq].
Defined.

(** ** The statistics *)

Lemma hms_of_seconds S :
  0 <= S ->
  let h := (S / 60 / 60) mod 24 in
  let m := (S / 60) mod 60 in
  let sec := S mod 60 in
  0 <= h < 24 /\ 0 <= m < 60 /\ 0 <= sec < 60
  /\ h * 3600 + m * 60 + sec = S mod 86400.
Proof.
  intros HS h m sec.
  pose proof (Z.mod_pos_bound (S / 60 / 60) 24 ltac:(lia)) as Hh.
  pose proof (Z.mod_pos_bound (S / 60) 60 ltac:(lia)) as Hm.
  pose proof (Z.mod_pos_bound S 60 ltac:(lia)) as Hs.
  fold h in Hh. fold m in Hm. fold sec in Hs.
  split; [exact Hh|]. split; [exact Hm|]. split; [exact Hs|].
  apply (Z.mod_unique S 86400 (S / 60 / 60 / 24)); [left; lia|].
  pose proof (Z.div_mod S 60 ltac:(lia)) as E1.
  pose proof (Z.div_mod (S / 60) 60 ltac:(lia)) as E2.
  pose proof (Z.div_mod (S / 60 / 60) 24 ltac:(lia)) as E3.
  fold h in E3. fold m in E2. fold sec in E1. lia.
Qed.

(** X14: the statistics end with the time since boot as hours, minutes
    and seconds: the whole seconds of the millisecond counter, the hours
    counted modulo 24. *)
Theorem uptime_line (s : State) :
  g_log_enabled s = true -> 0 <= millis s ->
  exists h m sec,
    In (Log (TFmt "%luh %lumin %lus" [AInt h; AInt m; AInt sec])) (out (logStats s))
    /\ 0 <= h < 24 /\ 0 <= m < 60 /\ 0 <= sec < 60
    /\ h * 3600 + m * 60 + sec = (millis s / 1000) mod 86400.
Proof.
  intros He Hm.
  exists ((millis s / 1000 / 60 / 60) mod 24), ((millis s / 1000 / 60) mod 60),
         ((millis s / 1000) mod 60).
  split; [|apply (hms_of_seconds (millis s / 1000)); apply Z.div_pos; lia].
  destruct s as [fl en lbp q lg rb rs rl ri ta lst ms o]. cbn in He, Hm. subst en.
  unfold logStats. cbn [g_log_enabled negb].
  cbn [out reset_counter with_logger print with_out millis logger cmdQueue].
  destruct (0 <? packet_counter lg);
    cbn [out reset_counter with_logger print with_out millis logger cmdQueue];
    apply in_or_app; right; left; reflexivity.
Qed.

Lemma uptime_line_witness :
  exists h m sec,
    In (Log (TFmt "%luh %lumin %lus" [AInt h; AInt m; AInt sec]))
       (out (logStats (async (Tick 90061000) init_state)))
    /\ 0 <= h < 24 /\ 0 <= m < 60 /\ 0 <= sec < 60
    /\ h * 3600 + m * 60 + sec = (90061000 / 1000) mod 86400.
Proof.
  assert (Hm : 0 <= millis (async (Tick 90061000) init_state)) by (vm_compute; discriminate).
  exact (uptime_line (async (Tick 90061000) init_state) eq_refl Hm).
Defined.

(** X15: the statistics are due when more than 30 s have passed since
    the last time they were due, wrap of the counter included.  When they
    are due the period starts again; with logging enabled the block is
    written and the three counters go back to 0, with logging paused
    nothing is written and the counters are kept. *)
Theorem stats_period (s : State) (e : Z) :
  0 <= e < 4294967296 ->
  millis s = u32 (last_stats_time s + e) ->
  let s' := report_stats s in
  (e <= STATS_INTERVAL -> s' = s)
  /\ (STATS_INTERVAL < e ->
      core s' = core (with_last_stats_time (millis s) s)
      /\ (g_log_enabled s = true ->
          logger s' = mkLogger 0 0 0
          /\ In (Log (TStr "--- Statistics ---")) (out s'))
      /\ (g_log_enabled s = false -> s' = with_last_stats_time (millis s) s)).
Proof.
  intros He Hm s'.
  assert (E : u32 (millis s - last_stats_time s) = e)
    by (rewrite Hm; now apply u32_elapsed).
  subst s'. unfold report_stats. rewrite E.
  destruct (Z.ltb_spec STATS_INTERVAL e) as [Hlt|Hge].
  - split; [lia|]. intros _. split; [|split].
    + cbv zeta. rewrite (lift_millis (logStats s)), core_logStats.
      apply with_last_stats_time_congr, core_logStats.
    + intros Hen.
      destruct s as [fl en lbp q lg rb rs rl ri ta lst ms o]. cbn in Hen. subst en.
      unfold logStats. cbn [g_log_enabled negb].
      cbn [out reset_counter with_logger print with_out millis logger cmdQueue].
      destruct (0 <? packet_counter lg);
        cbn [out reset_counter with_logger print with_out millis logger cmdQueue
             with_last_stats_time];
        (split; [reflexivity|]);
        apply in_or_app; left; apply in_or_app; left; apply in_or_app; right;
        right; left; reflexivity.
    + intros Hen. unfold logStats. rewrite Hen. reflexivity.
  - split; [reflexivity|lia].
Qed.

Lemma stats_period_witness :
  let s := async (Tick 30001) (processPacket [CMD_PAUSE_LOG] 1 init_state) in
  report_stats (async (Tick 30000) init_state) = async (Tick 30000) init_state
  /\ report_stats s = with_last_stats_time (millis s) s.
Proof.
  intros s.
  assert (H1 : 0 <= 30000 < 4294967296) by lia.
  assert (H2 : 0 <= 30001 < 4294967296) by lia.
  assert (L1 : 30000 <= STATS_INTERVAL) by (unfold STATS_INTERVAL; lia).
  assert (L2 : STATS_INTERVAL < 30001) by (unfold STATS_INTERVAL; lia).
  split.
  - exact (proj1 (stats_period (async (Tick 30000) init_state) 30000 H1 eq_refl) L1).
  - exact (proj2 (proj2 (proj2 (stats_period s 30001 H2 eq_refl) L2)) eq_refl).
Defined.

(** ** The logging switch

    The writes that leave [g_log_enabled] alone. *)

Lemma e_with_flag v s : g_log_enabled (with_flag v s) = g_log_enabled s.
Proof. reflexivity. Qed.
Lemma e_with_last_button_press v s : g_log_enabled (with_last_button_press v s) = g_log_enabled s.
Proof. reflexivity. Qed.
Lemma e_with_queue v s : g_log_enabled (with_queue v s) = g_log_enabled s.
Proof. reflexivity. Qed.
Lemma e_with_logger v s : g_log_enabled (with_logger v s) = g_log_enabled s.
Proof. reflexivity. Qed.
Lemma e_with_rx_buffer v s : g_log_enabled (with_rx_buffer v s) = g_log_enabled s.
Proof. reflexivity. Qed.
Lemma e_with_rx_state v s : g_log_enabled (with_rx_state v s) = g_log_enabled s.
Proof. reflexivity. Qed.
Lemma e_with_rx_len v s : g_log_enabled (with_rx_len v s) = g_log_enabled s.
Proof. reflexivity. Qed.
Lemma e_with_rx_idx v s : g_log_enabled (with_rx_idx v s) = g_log_enabled s.
Proof. reflexivity. Qed.
Lemma e_with_timed v s : g_log_enabled (with_timed v s) = g_log_enabled s.
Proof. reflexivity. Qed.
Lemma e_with_last_stats_time v s : g_log_enabled (with_last_stats_time v s) = g_log_enabled s.
Proof. reflexivity. Qed.
Lemma e_with_millis v s : g_log_enabled (with_millis v s) = g_log_enabled s.
Proof. reflexivity. Qed.
Lemma e_with_out v s : g_log_enabled (with_out v s) = g_log_enabled s.
Proof. reflexivity. Qed.
Lemma e_emit e s : g_log_enabled (emit e s) = g_log_enabled s.
Proof. reflexivity. Qed.
Lemma e_hid c s : g_log_enabled (hid c s) = g_log_enabled s.
Proof. reflexivity. Qed.
Lemma e_print ts s : g_log_enabled (print ts s) = g_log_enabled s.
Proof. reflexivity. Qed.
Lemma e_with_log_enabled v s : g_log_enabled (with_log_enabled v s) = v.
Proof. reflexivity. Qed.

Create Rewrite HintDb edb.
#[local] Hint Rewrite e_with_flag e_with_last_button_press e_with_queue e_with_logger e_with_rx_buffer e_with_rx_state e_with_rx_len e_with_rx_idx e_with_timed e_with_last_stats_time e_with_millis e_with_out e_emit e_hid e_print e_with_log_enabled : edb.

Ltac e_frame := autorewrite with coredb edb; try reflexivity.

Lemma enabled_async a s : g_log_enabled (async a s) = g_log_enabled s.
Proof. destruct a; cbn; [unfold buttonISR; case_match|]; reflexivity. Qed.

Lemma enabled_asyncs l s : g_log_enabled (asyncs l s) = g_log_enabled s.
Proof.
  revert s. induction l as [|a l IH]; intros s; [reflexivity|].
  cbn. change (fold_left _ l (async a s)) with (asyncs l (async a s)).
  now rewrite IH, enabled_async.
Qed.

Lemma enabled_kb_print_loop n mid p i s :
  g_log_enabled (kb_print_loop n mid p i s) = g_log_enabled s.
Proof.
  revert mid i s. induction n as [|n IH]; intros mid i s; [reflexivity|].
  cbn [kb_print_loop]. case_match; [apply enabled_asyncs|].
  rewrite IH. e_frame. apply enabled_asyncs.
Qed.

(** A command of the data plane leaves the logging switch alone. *)
Lemma enabled_executeCommand mid pkt s :
  data_plane pkt -> g_log_enabled (executeCommand mid pkt s) = g_log_enabled s.
Proof.
  intros (H1 & H2 & H3). unfold executeCommand. case_match; [e_frame|].
  unfold dispatch. repeat case_match; try lia; try (e_frame; fail).
  rewrite enabled_kb_print_loop. e_frame.
Qed.

(** ** What the queue holds *)

Lemma data_plane_step s s' :
  cmdQueue s' = cmdQueue s \/ cmdQueue s' = clear (cmdQueue s) ->
  Forall data_plane (contents (cmdQueue s)) ->
  Forall data_plane (contents (cmdQueue s')).
Proof. intros [-> | ->] H; [exact H|constructor]. Qed.

Lemma data_plane_processPacket data len s :
  1 <= len <= 31 -> queue_ok (cmdQueue s) ->
  Forall data_plane (contents (cmdQueue s)) ->
  Forall data_plane (contents (cmdQueue (processPacket data len s))).
Proof.
  intros Hlen Hok Hall.
  destruct (Z.eq_dec (byte_at data 0) CMD_PAUSE_LOG) as [E1|E1];
    [|destruct (Z.eq_dec (byte_at data 0) CMD_RESUME_LOG) as [E2|E2];
      [|destruct (Z.eq_dec (byte_at data 0) CMD_CLEAR_QUEUE) as [E3|E3]]].
  1-3: rewrite processPacket_control by tauto;
       apply (data_plane_step s);
       [ rewrite lift_queue, core_sendAck, q_emit, <- lift_queue;
         destruct (queue_executeCommand []
                     (mkPacket (byte_at data 0) (take (Z.to_nat (len - 1)) (drop 1 data))
                               (len - 1) (millis s))
                     (logPacketData data len s)) as [->| ->];
         [left|right]; q_frame
       | exact Hall ].
  rewrite processPacket_data_plane by assumption.
  destruct (Z_lt_le_dec (count (cmdQueue s)) QUEUE_SIZE) as [Hlt|Hge].
  - destruct (push_ok (mkPacket (byte_at data 0) (take (Z.to_nat (len - 1)) (drop 1 data))
                                (len - 1) (millis s)) (cmdQueue s) Hok Hlt)
      as (q' & Hp & Hc & _).
    rewrite Hp.
    assert (Hq : cmdQueue (sendAck ACK_SUCCESS
                   (logQueueStatus (with_queue q' (logPacketData data len s)))) = q')
      by q_frame.
    rewrite Hq, Hc. apply Forall_app. split; [exact Hall|].
    constructor; [|constructor]. unfold data_plane. cbn [cmd]. auto.
  - rewrite push_full by exact Hge.
    apply (data_plane_step s); [left; q_frame|exact Hall].
Qed.

Lemma data_plane_rx_byte b s :
  rx_ok s -> queue_ok (cmdQueue s) ->
  Forall data_plane (contents (cmdQueue s)) ->
  Forall data_plane (contents (cmdQueue (rx_byte (u8 b) s))).
Proof.
  intros Hr Hok Hall.
  destruct (dispatch_call (u8 b) s) as [[[data len] s1]|] eqn:Hcall.
  - rewrite (rx_byte_dispatch_call _ _ _ _ _ Hcall).
    assert (Hargs : 1 <= len <= 31 /\ cmdQueue s1 = cmdQueue s).
    { unfold dispatch_call in Hcall.
      destruct (rx_state s =? 2) eqn:E2; [|discriminate].
      destruct Hr as (Hl32 & [H|[H|(_ & Hl & Hi)]]); try lia.
      unfold MAX_PACKET_SIZE in *. cbv zeta in Hcall.
      destruct (_ =? _ + 1); [|discriminate]. destruct (_ =? crc8 _ _); [|discriminate].
      injection Hcall as <- <- <-.
      cbn [rx_len rx_buffer cmdQueue with_rx_idx with_rx_buffer]. split; [lia|reflexivity]. }
    destruct Hargs as (Hlen & Hq).
    apply (data_plane_step (processPacket data len s1)); [left; reflexivity|].
    apply data_plane_processPacket; rewrite ?Hq; assumption.
  - apply (data_plane_step s); [left; now apply queue_rx_byte_no_call|exact Hall].
Qed.

Lemma data_plane_reachable s : reachable s -> Forall data_plane (contents (cmdQueue s)).
Proof.
  induction 1 as [|s _ IH|a s _ IH|s _ IH|s _ IH|b s Hr IH|mid s Hr IH|s _ IH].
  - constructor.
  - apply (data_plane_step s); [left; apply queue_setup|exact IH].
  - apply (data_plane_step s); [left; apply queue_async|exact IH].
  - apply (data_plane_step s); [apply queue_service_interrupt_step|exact IH].
  - apply (data_plane_step s); [left; apply queue_poll_timed|exact IH].
  - destruct (reachable_state_ok s Hr) as ((Hok & _) & Hrx).
    now apply data_plane_rx_byte.
  - destruct (reachable_state_ok s Hr) as ((Hok & _) & _).
    unfold run_queue, isEmpty. case_match; [|exact IH].
    destruct (count (cmdQueue s) =? 0) eqn:E;
      [rewrite andb_false_r in *; discriminate|].
    destruct (pop_ok (cmdQueue s) Hok ltac:(lia)) as (pkt & q' & Hpop & Hc & _).
    rewrite Hpop. apply (data_plane_step (with_queue q' s)).
    + apply queue_executeCommand.
    + cbn [cmdQueue with_queue]. rewrite Hc in IH. now inversion IH.
  - apply (data_plane_step s); [left; apply queue_report_stats|exact IH].
Qed.

(** X16: in every state the program passes through, the ring buffer is
    in order and holds at most 16 commands, each with the number of
    parameter bytes its length field says, at most 30, and none with an
    opcode of the control plane. *)
Theorem queue_always_well_formed (s : State) :
  reachable s ->
  queue_ok (cmdQueue s)
  /\ (length (contents (cmdQueue s)) <= 16)%nat
  /\ Forall packet_ok (contents (cmdQueue s))
  /\ Forall data_plane (contents (cmdQueue s)).
Proof.
  intros Hr. destruct (reachable_state_ok s Hr) as ((Hok & Hall) & _).
  split; [exact Hok|]. split; [|split; [exact Hall|now apply data_plane_reachable]].
  rewrite contents_length. destruct Hok as (_ & _ & Hc & _). unfold QUEUE_SIZE in Hc. lia.
Qed.

Lemma queue_always_well_formed_witness :
  let s := run [mkInput [] [] (quiet (frame [CMD_KB_WRITE; 65] ++ frame [CMD_CLEAR_QUEUE]
                                      ++ frame [CMD_KB_WRITE; 66])) [] [] []]
               (setup init_state) in
  Forall data_plane (contents (cmdQueue s)).
Proof.
  intros s.
  assert (Hr : reachable s) by (apply reachable_run, reach_setup, reach_init).
  exact (proj2 (proj2 (proj2 (queue_always_well_formed s Hr)))).
Defined.

(** X17: in every state the program passes through, the logging switch
    is moved by the receive loop only: the servicing of the interrupt, the
    poll of the timed action, the executor, the statistics and what is
    asynchronous leave it as it is. *)
Theorem logging_switch_moves_on_reception_only (s : State) :
  reachable s ->
  (forall mid, g_log_enabled (run_queue mid s) = g_log_enabled s)
  /\ g_log_enabled (service_interrupt s) = g_log_enabled s
  /\ g_log_enabled (poll_timed s) = g_log_enabled s
  /\ g_log_enabled (report_stats s) = g_log_enabled s
  /\ (forall l, g_log_enabled (asyncs l s) = g_log_enabled s).
Proof.
  intros Hr. split; [|split; [|split; [|split]]].
  - intros mid. destruct (reachable_state_ok s Hr) as ((Hok & _) & _).
    pose proof (data_plane_reachable s Hr) as Hdp.
    unfold run_queue, isEmpty. case_match; [|reflexivity].
    destruct (count (cmdQueue s) =? 0) eqn:E;
      [rewrite andb_false_r in *; discriminate|].
    destruct (pop_ok (cmdQueue s) Hok ltac:(lia)) as (pkt & q' & Hpop & Hc & _).
    rewrite Hpop, enabled_executeCommand; [reflexivity|].
    rewrite Hc in Hdp. now inversion Hdp.
  - unfold service_interrupt. repeat case_match; e_frame.
  - unfold poll_timed. repeat case_match; e_frame.
  - unfold report_stats. case_match; e_frame.
  - intros l. apply enabled_asyncs.
Qed.

Lemma logging_switch_moves_on_reception_only_witness :
  let s := receive (quiet (frame [CMD_KB_WRITE; 65] ++ frame [CMD_PAUSE_LOG]))
             (setup init_state) in
  g_log_enabled s = false /\ g_log_enabled (run_queue [] s) = g_log_enabled s.
Proof.
  intros s.
  assert (Hr : reachable s) by (apply reachable_receive, reach_setup, reach_init).
  split; [reflexivity|]. exact (proj1 (logging_switch_moves_on_reception_only s Hr) []).
Defined.

(** ** The control plane: PAUSE_LOG and RESUME_LOG *)

Lemma out_print ts s : out (print ts s) = out s ++ map Log ts.
Proof. reflexivity. Qed.

(** X18: a PAUSE_LOG or RESUME_LOG frame is answered with ACK_SUCCESS
    and touches nothing of the protocol side.  With no interrupt pending
    it sets the logging switch and writes the line of the change, which is
    written even while logging is paused; with the interrupt flag set the
    command is skipped and the switch stays as it is. *)
Theorem log_switch_frame (s : State) (data : list Z) (len : Z) :
  1 <= len <= 31 ->
  byte_at data 0 = CMD_PAUSE_LOG \/ byte_at data 0 = CMD_RESUME_LOG ->
  let s' := processPacket data len s in
  let on := byte_at data 0 =? CMD_RESUME_LOG in
  core s' = core (emit (Ack ACK_SUCCESS) s)
  /\ (g_interrupt_flag s = false ->
      g_log_enabled s' = on
      /\ In (Log (TStr (if on then "✓ Logging ENABLED" else "✗ Logging PAUSED"))) (out s'))
  /\ (g_interrupt_flag s = true -> g_log_enabled s' = g_log_enabled s).
Proof.
  intros Hlen Hc s' on. subst s' on.
  split; [now apply log_control_protocol|].
  rewrite processPacket_control by tauto.
  assert (Hfl : g_interrupt_flag (logPacketData data len s) = g_interrupt_flag s)
    by (rewrite !lift_flag; now autorewrite with coredb).
  unfold executeCommand. rewrite Hfl. split.
  - intros ->. unfold dispatch. cbn [cmd].
    destruct Hc as [-> | ->]; eval_cmd; (split; [e_frame|]);
      rewrite out_sendAck; unfold logLogStateChange; rewrite out_print;
      apply in_or_app; left; apply in_or_app; right; cbn; tauto.
  - intros ->. e_frame.
Qed.

Lemma log_switch_frame_witness :
  let s := processPacket [CMD_PAUSE_LOG] 1 init_state in
  g_log_enabled s = false
  /\ g_log_enabled (processPacket [CMD_RESUME_LOG] 1 s) = true
  /\ g_log_enabled (processPacket [CMD_PAUSE_LOG] 1 (with_flag true init_state)) = true.
Proof.
  intros s.
  assert (Hlen : 1 <= 1 <= 31) by lia.
  pose proof (log_switch_frame init_state [CMD_PAUSE_LOG] 1 Hlen (or_introl eq_refl))
    as (_ & H1 & _).
  pose proof (log_switch_frame s [CMD_RESUME_LOG] 1 Hlen (or_intror eq_refl))
    as (_ & H2 & _).
  pose proof (log_switch_frame (with_flag true init_state) [CMD_PAUSE_LOG] 1 Hlen
                (or_introl eq_refl)) as (_ & _ & H3).
  split; [exact (proj1 (H1 eq_refl))|]. split; [exact (proj1 (H2 eq_refl))|].
  exact (H3 eq_refl).
Defined.

(** ** The executor, command by command *)

Lemma i8_u8 v : -128 <= v <= 127 -> i8 (u8 v) = v.
Proof.
  intros Hv. unfold i8, u8.
  destruct (Z_lt_le_dec v 0) as [Hneg|Hpos].
  - assert (E : v mod 256 = v + 256).
    { symmetry. apply (Z.mod_unique v 256 (-1)); [left|]; lia. }
    rewrite E. destruct (Z.leb_spec 128 (v + 256)); lia.
  - rewrite Z.mod_small by lia. destruct (Z.leb_spec 128 v); lia.
Qed.

Lemma byte_at_0 a l : byte_at (a :: l) 0 = a.
Proof. reflexivity. Qed.

Lemma byte_at_1 a b l : byte_at (a :: b :: l) 1 = b.
Proof. reflexivity. Qed.

Lemma byte_at_2 a b c l : byte_at (a :: b :: c :: l) 2 = c.
Proof. reflexivity. Qed.

(** X19: the three parameter bytes of MOUSE_MOVE are signed: the bytes
    of x, y and the wheel in two's complement move the pointer by x, y and
    the wheel, each from -128 to 127; nothing else changes on the protocol
    side. *)
Theorem mouse_move_is_signed (mid : list (list Async)) (pkt : CommandPacket) (s : State)
    (x y w : Z) :
  g_interrupt_flag s = false ->
  cmd pkt = CMD_MOUSE_MOVE -> param_len pkt = 3 ->
  params pkt = [u8 x; u8 y; u8 w] ->
  -128 <= x <= 127 -> -128 <= y <= 127 -> -128 <= w <= 127 ->
  core (executeCommand mid pkt s) = core (hid (MouseMove x y w) s).
Proof.
  intros Hf Hc Hn Hp Hx Hy Hw.
  unfold executeCommand, dispatch. rewrite Hf, Hc, Hn, Hp. eval_cmd. cbn [negb].
  rewrite byte_at_0, byte_at_1, byte_at_2, !i8_u8 by assumption. core_congr.
Qed.

Lemma mouse_move_is_signed_witness :
  hids (out (executeCommand [] (mkPacket CMD_MOUSE_MOVE [5; 251; 128] 3 0) init_state))
  = [MouseMove 5 (-5) (-128)].
Proof.
  assert (Hx : -128 <= 5 <= 127) by lia.
  assert (Hy : -128 <= -5 <= 127) by lia.
  assert (Hw : -128 <= -128 <= 127) by lia.
  exact (f_equal c_hids
           (mouse_move_is_signed [] (mkPacket CMD_MOUSE_MOVE [5; 251; 128] 3 0) init_state
              5 (-5) (-128) eq_refl eq_refl eq_refl eq_refl Hx Hy Hw)).
Defined.

(** X20: a command whose opcode the executor does not know changes
    nothing on the protocol side: no HID call, no ACK, the queue and the
    timed action as before.  With logging enabled and no interrupt pending
    it is counted as an error and an INVALID_CMD line is written. *)
Theorem unknown_opcode_is_only_logged (mid : list (list Async)) (pkt : CommandPacket)
    (s : State) :
  ~ In (cmd pkt) opcodes ->
  let s' := executeCommand mid pkt s in
  core s' = core s
  /\ (g_interrupt_flag s = false -> g_log_enabled s = true ->
      In (Log (TStr "INVALID_CMD")) (out s')
      /\ error_counter (logger s') = u32 (error_counter (logger s) + 1)).
Proof.
  intros Hc s'.
  assert (Hd : g_interrupt_flag s = false ->
               s' = logInvalidCommand (cmd pkt) s).
  { intros Hf. subst s'. unfold executeCommand, dispatch. rewrite Hf.
    unfold opcodes in Hc. cbn [In] in Hc.
    repeat (match goal with
            | |- context [cmd pkt =? ?c] =>
                destruct (Z.eqb_spec (cmd pkt) c) as [E|_];
                  [exfalso; apply Hc; intuition congruence|]
            end).
    reflexivity. }
  split.
  - destruct (g_interrupt_flag s) eqn:Hf.
    + subst s'. unfold executeCommand. rewrite Hf. apply core_logCommand.
    + rewrite (Hd eq_refl). apply core_logInvalidCommand.
  - intros Hf He. rewrite (Hd Hf). clear Hd s'.
    destruct s as [fl en lbp q lg rb rs rl ri ta lst ms o]. cbn in He. subst en.
    unfold logInvalidCommand, logError. cbn [g_log_enabled negb].
    cbn [out logger error_counter with_logger printTimestamp printLevel print with_out
         g_log_enabled negb millis].
    split; [|reflexivity].
    apply in_or_app; right; left; reflexivity.
Qed.

Lemma unknown_opcode_is_only_logged_witness :
  hids (out (executeCommand [] (mkPacket 0x99 [1] 1 0) init_state)) = []
  /\ acks (out (executeCommand [] (mkPacket 0x99 [1] 1 0) init_state)) = [].
Proof.
  assert (Hc : ~ In (cmd (mkPacket 0x99 [1] 1 0)) opcodes).
  { unfold opcodes. cbn [In cmd]. intros H.
    repeat (destruct H as [H|H]; [discriminate H|]). exact H. }
  pose proof (proj1 (unknown_opcode_is_only_logged [] (mkPacket 0x99 [1] 1 0) init_state Hc))
    as Hcore.
  split; [exact (f_equal c_hids Hcore) | exact (f_equal c_acks Hcore)].
Defined.

(** ** The parser on its own *)

Lemma rx_view_eq s : rx_view s = (rx_buffer s, rx_state s, rx_len s, rx_idx s).
Proof. reflexivity. Qed.

(** The parser's variables after a call that leaves them alone, under
    the writes of the receive loop. *)
Lemma rx_view_close v w s s0 :
  rx_view s = rx_view s0 ->
  rx_view (with_rx_idx v (with_rx_state w s)) = (rx_buffer s0, w, rx_len s0, v).
Proof.
  intros H. apply rx_view_fields in H. destruct H as (Hb & _ & Hl & _).
  rewrite rx_view_eq. cbn [rx_buffer rx_state rx_len rx_idx with_rx_idx with_rx_state].
  now rewrite Hb, Hl.
Qed.

Lemma rx_view_back w s s0 :
  rx_view s = rx_view s0 ->
  rx_view (with_rx_state w s) = (rx_buffer s0, w, rx_len s0, rx_idx s0).
Proof.
  intros H. apply rx_view_fields in H. destruct H as (Hb & _ & Hl & Hi).
  rewrite rx_view_eq. cbn [rx_buffer rx_state rx_len rx_idx with_rx_state].
  now rewrite Hb, Hl, Hi.
Qed.

(** One round of the receive loop moves the parser as [rx_next] says. *)
Lemma rx_view_rx_byte b s : rx_view (rx_byte b s) = rx_next b (rx_view s).
Proof.
  rewrite (rx_view_eq s). unfold rx_next, rx_byte.
  destruct (rx_state s =? 0); [destruct (b =? SYNC_BYTE); reflexivity|].
  destruct (rx_state s =? 1).
  { cbv zeta. cbn [rx_len with_rx_len].
    destruct ((b =? 0) || (MAX_PACKET_SIZE - 1 <? b)).
    - rewrite (rx_view_back 0 _ (with_rx_len b s)) by rx_frame. reflexivity.
    - rewrite (rx_view_close 0 2 _ (with_rx_len b s)) by rx_frame. reflexivity. }
  destruct (rx_state s =? 2); [|reflexivity].
  cbv zeta. cbn [rx_idx rx_len rx_buffer with_rx_idx with_rx_buffer].
  destruct (u8 (rx_idx s + 1) =? rx_len s + 1); [|reflexivity].
  set (s1 := with_rx_idx _ (with_rx_buffer _ s)).
  assert (Hv : rx_view (if byte_at (<[Z.to_nat (rx_idx s):=b]> (rx_buffer s)) (rx_len s)
                           =? crc8 (<[Z.to_nat (rx_idx s):=b]> (rx_buffer s)) (rx_len s)
                        then processPacket (<[Z.to_nat (rx_idx s):=b]> (rx_buffer s))
                               (rx_len s) s1
                        else sendAck ACK_CRC_ERROR
                               (logCRCError
                                  (crc8 (<[Z.to_nat (rx_idx s):=b]> (rx_buffer s)) (rx_len s))
                                  (byte_at (<[Z.to_nat (rx_idx s):=b]> (rx_buffer s)) (rx_len s))
                                  s1))
               = rx_view s1).
  { destruct (_ =? crc8 _ _); [apply rx_view_processPacket|rx_frame]. }
  rewrite (rx_view_close 0 0 _ s1 Hv). reflexivity.
Qed.

Lemma rx_view_receive input : forall s,
  rx_view (receive input s)
  = fold_left (fun v b => rx_next b v) (map (fun x => u8 (snd x)) input) (rx_view s).
Proof.
  induction input as [|[before b] input IH]; intros s; [reflexivity|].
  cbn [receive map fold_left snd]. now rewrite IH, rx_view_rx_byte, rx_view_asyncs.
Qed.

Lemma rx_view_loop i s :
  rx_view (loop i s)
  = fold_left (fun v b => rx_next b v) (map (fun x => u8 (snd x)) (at_rx i)) (rx_view s).
Proof.
  unfold loop.
  rewrite rx_view_report_stats, rx_view_asyncs, rx_view_run_queue, rx_view_asyncs,
    rx_view_receive, rx_view_poll_timed, rx_view_asyncs, rx_view_service_interrupt,
    rx_view_asyncs.
  reflexivity.
Qed.

Lemma rx_view_receive_run inputs : forall s,
  rx_view (run inputs s)
  = fold_left (fun v b => rx_next b v) (bytes_read inputs) (rx_view s).
Proof.
  induction inputs as [|i inputs IH]; intros s; [reflexivity|].
  cbn [run fold_left]. change (fold_left _ inputs (loop i s)) with (run inputs (loop i s)).
  rewrite IH, rx_view_loop. unfold bytes_read. cbn [map concat].
  now rewrite fold_left_app.
Qed.

(** X21: the parser is moved by the bytes read and by nothing else.
    After any run its variables are those of [rx_next] folded over the
    bytes the run has read: the button, the passing of time, the servicing
    of an interrupt, the commands executed and the statistics leave a frame
    that is half received as it is, across iterations of the loop. *)
Theorem parser_follows_the_bytes (inputs : list LoopInput) (s : State) :
  rx_view (run inputs s)
  = fold_left (fun v b => rx_next b v) (bytes_read inputs) (rx_view s).
Proof. apply rx_view_receive_run. Qed.

(** * The first version of the sketch *)

(** ** Its logger writes on the log channel only *)

Lemma v1_log_step_refl s : V1.log_step s s.
Proof.
  exists (V1.logger s), []. destruct s; cbn. now rewrite app_nil_r.
Qed.

Lemma v1_log_step_trans s1 s2 s3 :
  V1.log_step s1 s2 -> V1.log_step s2 s3 -> V1.log_step s1 s3.
Proof.
  intros (l & ts & ->) (l' & ts' & ->).
  exists l', (ts ++ ts'). destruct s1; cbn. now rewrite map_app, app_assoc.
Qed.

Lemma v1_log_step_print s0 s ts : V1.log_step s0 s -> V1.log_step s0 (V1.print ts s).
Proof.
  intros H. eapply v1_log_step_trans; [exact H|].
  exists (V1.logger s), ts. destruct s; reflexivity.
Qed.

Lemma v1_log_step_with_logger s0 s l :
  V1.log_step s0 s -> V1.log_step s0 (V1.with_logger l s).
Proof.
  intros H. eapply v1_log_step_trans; [exact H|].
  exists l, []. destruct s; cbn. now rewrite app_nil_r.
Qed.

Create HintDb v1log.
#[local] Hint Resolve v1_log_step_refl v1_log_step_print v1_log_step_with_logger : v1log.

Ltac v1_log_step_tac :=
  intros; repeat case_match; eauto 10 with v1log.

Lemma v1_printTimestamp_log s0 s : V1.log_step s0 s -> V1.log_step s0 (V1.printTimestamp s).
Proof. unfold V1.printTimestamp. v1_log_step_tac. Qed.

#[local] Hint Resolve v1_printTimestamp_log : v1log.

Lemma v1_printLevel_log s0 s level : V1.log_step s0 s -> V1.log_step s0 (V1.printLevel level s).
Proof. unfold V1.printLevel. v1_log_step_tac. Qed.

#[local] Hint Resolve v1_printLevel_log : v1log.

Lemma v1_begin_log s0 s : V1.log_step s0 s -> V1.log_step s0 (V1.begin s).
Proof. unfold V1.begin. v1_log_step_tac. Qed.

#[local] Hint Resolve v1_begin_log : v1log.

Lemma v1_logPacketReceived_log s0 s len : V1.log_step s0 s -> V1.log_step s0 (V1.logPacketReceived len s).
Proof. unfold V1.logPacketReceived. v1_log_step_tac. Qed.

#[local] Hint Resolve v1_logPacketReceived_log : v1log.

Lemma v1_logPacketData_log s0 s data len : V1.log_step s0 s -> V1.log_step s0 (V1.logPacketData data len s).
Proof. unfold V1.logPacketData. v1_log_step_tac. Qed.

#[local] Hint Resolve v1_logPacketData_log : v1log.

Lemma v1_logCommand_log s0 s name d : V1.log_step s0 s -> V1.log_step s0 (V1.logCommand name d s).
Proof. unfold V1.logCommand. v1_log_step_tac. Qed.

#[local] Hint Resolve v1_logCommand_log : v1log.

Lemma v1_logMouseMove_log s0 s x y w : V1.log_step s0 s -> V1.log_step s0 (V1.logMouseMove x y w s).
Proof. unfold V1.logMouseMove. v1_log_step_tac. Qed.

#[local] Hint Resolve v1_logMouseMove_log : v1log.

Lemma v1_logMouseButton_log s0 s a b : V1.log_step s0 s -> V1.log_step s0 (V1.logMouseButton a b s).
Proof. unfold V1.logMouseButton. v1_log_step_tac. Qed.

#[local] Hint Resolve v1_logMouseButton_log : v1log.

Lemma v1_logMouseButtonTimed_log s0 s b d : V1.log_step s0 s -> V1.log_step s0 (V1.logMouseButtonTimed b d s).
Proof. unfold V1.logMouseButtonTimed. v1_log_step_tac. Qed.

#[local] Hint Resolve v1_logMouseButtonTimed_log : v1log.

Lemma v1_logKeyboard_log s0 s a k : V1.log_step s0 s -> V1.log_step s0 (V1.logKeyboard a k s).
Proof. unfold V1.logKeyboard. v1_log_step_tac. Qed.

#[local] Hint Resolve v1_logKeyboard_log : v1log.

Lemma v1_logKeyboardTimed_log s0 s k d : V1.log_step s0 s -> V1.log_step s0 (V1.logKeyboardTimed k d s).
Proof. unfold V1.logKeyboardTimed. v1_log_step_tac. Qed.

#[local] Hint Resolve v1_logKeyboardTimed_log : v1log.

Lemma v1_logKeyboardPrint_log s0 s text len : V1.log_step s0 s -> V1.log_step s0 (V1.logKeyboardPrint text len s).
Proof. unfold V1.logKeyboardPrint. v1_log_step_tac. Qed.

#[local] Hint Resolve v1_logKeyboardPrint_log : v1log.

Lemma v1_logError_log s0 s ty d : V1.log_step s0 s -> V1.log_step s0 (V1.logError ty d s).
Proof. unfold V1.logError. v1_log_step_tac. Qed.

#[local] Hint Resolve v1_logError_log : v1log.

Lemma v1_logCRCError_log s0 s e r : V1.log_step s0 s -> V1.log_step s0 (V1.logCRCError e r s).
Proof. unfold V1.logCRCError. v1_log_step_tac. Qed.

#[local] Hint Resolve v1_logCRCError_log : v1log.

Lemma v1_logInvalidCommand_log s0 s c : V1.log_step s0 s -> V1.log_step s0 (V1.logInvalidCommand c s).
Proof. unfold V1.logInvalidCommand. v1_log_step_tac. Qed.

#[local] Hint Resolve v1_logInvalidCommand_log : v1log.

Lemma v1_logParamError_log s0 s c e r : V1.log_step s0 s -> V1.log_step s0 (V1.logParamError c e r s).
Proof. unfold V1.logParamError. v1_log_step_tac. Qed.

#[local] Hint Resolve v1_logParamError_log : v1log.

Lemma v1_logACK_log s0 s code : V1.log_step s0 s -> V1.log_step s0 (V1.logACK code s).
Proof. unfold V1.logACK. v1_log_step_tac. Qed.

#[local] Hint Resolve v1_logACK_log : v1log.

Lemma v1_logStats_log s0 s : V1.log_step s0 s -> V1.log_step s0 (V1.logStats s).
Proof. unfold V1.logStats. v1_log_step_tac. Qed.

#[local] Hint Resolve v1_logStats_log : v1log.

(** What a write on the log channel leaves as it is. *)
Lemma v1_log_step_frame s s' :
  V1.log_step s s' ->
  acks (V1.out s') = acks (V1.out s) /\ hids (V1.out s') = hids (V1.out s)
  /\ V1.millis s' = V1.millis s /\ V1.rx_view s' = V1.rx_view s
  /\ V1.last_stats_time s' = V1.last_stats_time s.
Proof.
  intros (l & ts & ->). cbn.
  rewrite acks_app, hids_app, acks_log, hids_log, !app_nil_r. auto.
Qed.

Ltac v1_log := eauto 10 with v1log.

(** Drop the logger calls under a view of the state. *)
Ltac v1_drop :=
  repeat match goal with
  | |- context [acks (V1.out (?f ?x))] =>
      rewrite (proj1 (v1_log_step_frame x (f x) ltac:(v1_log)))
  | |- context [hids (V1.out (?f ?x))] =>
      rewrite (proj1 (proj2 (v1_log_step_frame x (f x) ltac:(v1_log))))
  | |- context [V1.millis (?f ?x)] =>
      rewrite (proj1 (proj2 (proj2 (v1_log_step_frame x (f x) ltac:(v1_log)))))
  | |- context [V1.rx_view (?f ?x)] =>
      rewrite (proj1 (proj2 (proj2 (proj2 (v1_log_step_frame x (f x) ltac:(v1_log))))))
  end.

Lemma v1_acks_emit c s : acks (V1.out (V1.emit (Ack c) s)) = acks (V1.out s) ++ [c].
Proof. cbn. now rewrite acks_app. Qed.

Lemma v1_acks_hid c s : acks (V1.out (V1.hid c s)) = acks (V1.out s).
Proof. cbn. rewrite acks_app. cbn. now rewrite app_nil_r. Qed.

Lemma v1_hids_emit c s : hids (V1.out (V1.emit (Ack c) s)) = hids (V1.out s).
Proof. cbn. rewrite hids_app. cbn. now rewrite app_nil_r. Qed.

Lemma v1_hids_hid c s : hids (V1.out (V1.hid c s)) = hids (V1.out s) ++ [c].
Proof. cbn. now rewrite hids_app. Qed.

Lemma v1_out_delay d s : V1.out (V1.delay d s) = V1.out s.
Proof. reflexivity. Qed.

Lemma v1_out_with_rx_idx v s : V1.out (V1.with_rx_idx v s) = V1.out s.
Proof. reflexivity. Qed.

Lemma v1_out_with_rx_state v s : V1.out (V1.with_rx_state v s) = V1.out s.
Proof. reflexivity. Qed.

Lemma v1_out_with_rx_len v s : V1.out (V1.with_rx_len v s) = V1.out s.
Proof. reflexivity. Qed.

Lemma v1_out_with_rx_buffer v s : V1.out (V1.with_rx_buffer v s) = V1.out s.
Proof. reflexivity. Qed.

Lemma v1_acks_sendAck c s : acks (V1.out (V1.sendAck c s)) = acks (V1.out s) ++ [c].
Proof. unfold V1.sendAck. v1_drop. apply v1_acks_emit. Qed.

Lemma v1_hids_sendAck c s : hids (V1.out (V1.sendAck c s)) = hids (V1.out s).
Proof. unfold V1.sendAck. v1_drop. apply v1_hids_emit. Qed.

Create Rewrite HintDb v1db.
#[local] Hint Rewrite v1_acks_sendAck v1_hids_sendAck v1_acks_emit v1_acks_hid
  v1_hids_emit v1_hids_hid v1_out_delay v1_out_with_rx_idx v1_out_with_rx_state
  v1_out_with_rx_len v1_out_with_rx_buffer : v1db.

Ltac v1_simp := repeat (progress (autorewrite with v1db; v1_drop)).

(** ** Every payload is answered *)

Lemma v1_acks_kb_print_loop n p i s :
  acks (V1.out (V1.kb_print_loop n p i s)) = acks (V1.out s).
Proof.
  revert i s. induction n as [|n IH]; intros i s; [reflexivity|].
  cbn [V1.kb_print_loop]. now rewrite IH, v1_acks_hid.
Qed.

(** Two tests of the same value that cannot both hold. *)
Ltac cmd_absurd :=
  exfalso;
  unfold CMD_MOUSE_MOVE, CMD_MOUSE_PRESS, CMD_MOUSE_RELEASE, CMD_MOUSE_CLICK,
    CMD_MOUSE_PRESS_TIMED, CMD_KB_PRESS, CMD_KB_RELEASE, CMD_KB_WRITE,
    CMD_KB_RELEASE_ALL, CMD_KB_PRINT, CMD_KB_PRESS_TIMED, CMD_PAUSE_LOG,
    CMD_RESUME_LOG, CMD_CLEAR_QUEUE in *;
  lia.

(** Go through the tests of the opcode and of the number of parameters. *)
Ltac v1_cases data len :=
  repeat (match goal with
          | |- context [byte_at data 0 =? ?c] =>
              destruct (Z.eqb_spec (byte_at data 0) c); cbn [orb negb]
          | |- context [u8 (len - 1) =? ?k] =>
              destruct (Z.eqb_spec (u8 (len - 1)) k); cbn [orb negb]
          end);
  try cmd_absurd.

Lemma v1_processPacket_acks data len s :
  acks (V1.out (V1.processPacket data len s)) = acks (V1.out s) ++ [V1.answer data len].
Proof.
  unfold V1.processPacket, V1.answer, V1.arity.
  destruct (len <? 1); [now v1_simp|]. cbv zeta.
  v1_cases data len;
    try (v1_simp; reflexivity);
    try (v1_simp; rewrite v1_acks_kb_print_loop; v1_simp; reflexivity).
Qed.

Lemma v1_rx_hid c s : V1.rx_view (V1.hid c s) = V1.rx_view s.
Proof. reflexivity. Qed.

Lemma v1_rx_emit e s : V1.rx_view (V1.emit e s) = V1.rx_view s.
Proof. reflexivity. Qed.

Lemma v1_rx_delay d s : V1.rx_view (V1.delay d s) = V1.rx_view s.
Proof. reflexivity. Qed.

Lemma v1_rx_sendAck c s : V1.rx_view (V1.sendAck c s) = V1.rx_view s.
Proof. unfold V1.sendAck. v1_drop. reflexivity. Qed.

#[local] Hint Rewrite v1_rx_hid v1_rx_emit v1_rx_delay v1_rx_sendAck : v1db.

Lemma v1_rx_kb_print_loop n p i s :
  V1.rx_view (V1.kb_print_loop n p i s) = V1.rx_view s.
Proof.
  revert i s. induction n as [|n IH]; intros i s; [reflexivity|].
  cbn [V1.kb_print_loop]. now rewrite IH.
Qed.

(** What [sendAck] emits: the byte, then a line on the log channel. *)
Lemma v1_out_sendAck c s :
  exists l, V1.out (V1.sendAck c s) = V1.out s ++ Ack c :: map Log l.
Proof.
  destruct s as [lg rb rs rl ri lst ms o].
  unfold V1.sendAck, V1.logACK, V1.printTimestamp, V1.printLevel.
  cbn [Z.ltb Z.compare CURRENT_LOG_LEVEL LOG_LEVEL_DEBUG Pos.compare Pos.compare_cont].
  destruct (c =? ACK_SUCCESS); cbn; eexists;
    rewrite <- !app_assoc; cbn [app];
    (f_equal; f_equal;
     match goal with |- ?l = map Log ?e =>
       unify e (logs l); cbn; reflexivity end).
Qed.

(** The dispatcher ends every path with [sendAck]: the state before it
    has every HID call of the command in its trace and no ACK. *)
Lemma v1_processPacket_shape data len s :
  exists X,
    V1.processPacket data len s = V1.sendAck (V1.answer data len) X
    /\ acks (V1.out X) = acks (V1.out s)
    /\ (V1.answer data len <> ACK_SUCCESS -> hids (V1.out X) = hids (V1.out s))
    /\ V1.rx_view X = V1.rx_view s.
Proof.
  unfold V1.processPacket, V1.answer, V1.arity.
  destruct (len <? 1).
  { eexists. split; [reflexivity|]. split; [now v1_simp|]. split; [intros _|]; now v1_simp. }
  cbv zeta.
  v1_cases data len;
    (eexists; split; [reflexivity|]; split; [|split; [intros Hne|]];
     try (exfalso; apply Hne; reflexivity);
     rewrite ?v1_acks_kb_print_loop, ?v1_rx_kb_print_loop; v1_simp; reflexivity).
Qed.

(** X22: the first version answers every payload with one ACK byte,
    decided by the opcode and the number of parameter bytes: ACK_PARAM_ERROR
    for an empty payload or a number of parameters the opcode does not
    take, ACK_INVALID_CMD for an opcode that is not known, ACK_SUCCESS
    otherwise.  The ACK is sent after every HID call of the command, and a
    payload that is not answered with ACK_SUCCESS makes no HID call.  The
    parser is not moved. *)
Theorem v1_answers_every_payload (data : list Z) (len : Z) (s : V1.State) :
  let s' := V1.processPacket data len s in
  acks (V1.out s') = acks (V1.out s) ++ [V1.answer data len]
  /\ (exists tr l, V1.out s' = tr ++ Ack (V1.answer data len) :: map Log l
                   /\ acks tr = acks (V1.out s) /\ hids tr = hids (V1.out s'))
  /\ (V1.answer data len <> ACK_SUCCESS -> hids (V1.out s') = hids (V1.out s))
  /\ V1.rx_view s' = V1.rx_view s.
Proof.
  intros s'. subst s'.
  destruct (v1_processPacket_shape data len s) as (X & -> & Ha & Hh & Hv).
  split; [now rewrite v1_acks_sendAck, Ha|]. split; [|split].
  - destruct (v1_out_sendAck (V1.answer data len) X) as (l & Hl).
    exists (V1.out X), l. split; [exact Hl|]. split; [exact Ha|].
    now rewrite v1_hids_sendAck.
  - intros Hne. now rewrite v1_hids_sendAck, Hh.
  - now rewrite v1_rx_sendAck.
Qed.




(** ** The parser of the first version *)

Lemma v1_rx_view_back w s s0 :
  V1.rx_view s = V1.rx_view s0 ->
  V1.rx_view (V1.with_rx_state w s) = (V1.rx_buffer s0, w, V1.rx_len s0, V1.rx_idx s0).
Proof.
  unfold V1.rx_view. intros H. injection H as Hb _ Hl Hi.
  cbn [V1.rx_buffer V1.rx_state V1.rx_len V1.rx_idx V1.with_rx_state].
  now rewrite Hb, Hl, Hi.
Qed.

Lemma v1_rx_view_close v w s s0 :
  V1.rx_view s = V1.rx_view s0 ->
  V1.rx_view (V1.with_rx_idx v (V1.with_rx_state w s))
  = (V1.rx_buffer s0, w, V1.rx_len s0, v).
Proof.
  unfold V1.rx_view. intros H. injection H as Hb _ Hl _.
  cbn [V1.rx_buffer V1.rx_state V1.rx_len V1.rx_idx V1.with_rx_idx V1.with_rx_state].
  now rewrite Hb, Hl.
Qed.

Lemma v1_rx_view_processPacket data len s :
  V1.rx_view (V1.processPacket data len s) = V1.rx_view s.
Proof.
  destruct (v1_processPacket_shape data len s) as (X & -> & _ & _ & Hv).
  now rewrite v1_rx_sendAck.
Qed.

Lemma v1_rx_view_rx_byte b s : V1.rx_view (V1.rx_byte b s) = rx_next b (V1.rx_view s).
Proof.
  unfold rx_next, V1.rx_byte. unfold V1.rx_view at 2.
  destruct (V1.rx_state s =? 0); [destruct (b =? SYNC_BYTE); reflexivity|].
  destruct (V1.rx_state s =? 1).
  { cbv zeta. cbn [V1.rx_len V1.with_rx_len].
    destruct ((b =? 0) || (MAX_PACKET_SIZE - 1 <? b)).
    - rewrite (v1_rx_view_back 0 _ (V1.with_rx_len b s)) by (now v1_simp). reflexivity.
    - rewrite (v1_rx_view_close 0 2 _ (V1.with_rx_len b s)) by (now v1_simp). reflexivity. }
  destruct (V1.rx_state s =? 2); [|reflexivity].
  cbv zeta. cbn [V1.rx_idx V1.rx_len V1.rx_buffer V1.with_rx_idx V1.with_rx_buffer].
  destruct (u8 (V1.rx_idx s + 1) =? V1.rx_len s + 1); [|reflexivity].
  set (s1 := V1.with_rx_idx _ (V1.with_rx_buffer _ s)).
  rewrite (v1_rx_view_close 0 0 _ s1); [reflexivity|].
  destruct (_ =? crc8 _ _); [apply v1_rx_view_processPacket|now v1_simp].
Qed.

Lemma v1_rx_view_receive input : forall s,
  V1.rx_view (V1.receive input s)
  = fold_left (fun v b => rx_next b v) (map (fun x => u8 (snd x)) input) (V1.rx_view s).
Proof.
  induction input as [|[dt b] input IH]; intros s; [reflexivity|].
  cbn [V1.receive map fold_left snd]. now rewrite IH, v1_rx_view_rx_byte.
Qed.

(** X24: the two versions of the sketch parse alike: fed the same
    bytes from the same parser state, the queue-mode sketch after any run
    of its loop and the first version after its receive loop have the same
    buffer, state, length and index, whatever the timing, the button and
    the commands carried. *)
Theorem both_versions_parse_alike (inputs : list LoopInput) (s : State)
    (input : list (Z * Z)) (v : V1.State) :
  rx_view s = V1.rx_view v ->
  bytes_read inputs = map (fun x => u8 (snd x)) input ->
  rx_view (run inputs s) = V1.rx_view (V1.receive input v).
Proof.
  intros Hv Hb. rewrite rx_view_receive_run, v1_rx_view_receive, Hv, Hb. reflexivity.
Qed.

Lemma both_versions_parse_alike_witness :
  rx_view (run [mkInput [] [] (quiet [SYNC_BYTE; 2; CMD_MOUSE_CLICK]) [] [] [];
                mkInput [Tick 100; Button] [] (quiet [1]) [] [] []] init_state)
  = V1.rx_view (V1.receive [(0, SYNC_BYTE); (5, 2); (0, CMD_MOUSE_CLICK); (7, 1)]
                           V1.init_state).
Proof.
  exact (both_versions_parse_alike
           [mkInput [] [] (quiet [SYNC_BYTE; 2; CMD_MOUSE_CLICK]) [] [] [];
            mkInput [Tick 100; Button] [] (quiet [1]) [] [] []] init_state
           [(0, SYNC_BYTE); (5, 2); (0, CMD_MOUSE_CLICK); (7, 1)] V1.init_state
           eq_refl eq_refl).
Defined.

(** ** The same commands in both versions *)

Lemma byte_at_take k l i :
  0 <= i < Z.of_nat k -> byte_at (take k l) i = byte_at l i.
Proof.
  intros Hi. unfold byte_at. rewrite lookup_take_lt by lia. reflexivity.
Qed.

Lemma v1_hids_kb_print_loop n : forall p i s,
  (i + n <= length p)%nat ->
  hids (V1.out (V1.kb_print_loop n p (Z.of_nat i) s))
  = hids (V1.out s) ++ map KbWrite (take n (drop i p)).
Proof.
  induction n as [|n IH]; intros p i s Hlen.
  - cbn. now rewrite app_nil_r.
  - cbn [V1.kb_print_loop].
    destruct (lookup_lt_is_Some_2 p i ltac:(lia)) as [b Hb].
    rewrite (drop_S p b i Hb). cbn [take map].
    replace (Z.of_nat i + 1) with (Z.of_nat (S i)) by lia.
    rewrite IH by lia. rewrite v1_hids_hid, <- app_assoc. cbn [app].
    unfold byte_at. now rewrite Nat2Z.id, Hb.
Qed.

Lemma hids_map_KbWrite l : hids (map (fun b => Hid (KbWrite b)) l) = map KbWrite l.
Proof. induction l as [|x l IH]; [reflexivity|]. cbn. now rewrite <- IH. Qed.

(** KB_PRINT with nothing asynchronous and no interrupt pending writes
    all its bytes. *)
Lemma hids_kb_print_quiet p s :
  g_interrupt_flag s = false ->
  hids (out (kb_print_loop (length p) [] p 0 s)) = hids (out s) ++ map KbWrite p.
Proof.
  intros Hf.
  pose proof (kb_print_loop_spec (length p) [] p 0 s ltac:(lia)) as (Ho & _).
  change (Z.of_nat 0) with 0 in Ho. rewrite Ho, hids_app, hids_map_KbWrite.
  rewrite rounds_quiet by exact Hf. now rewrite drop_0, firstn_all.
Qed.

(** X25: a command that is not a timed press makes the same HID calls
    in both versions: what the executor of the queue-mode sketch does with
    the command once it leaves the queue (no interrupt pending, nothing
    asynchronous) is what the first version does with the same payload
    before it answers.  KB_RELEASE_ALL is compared without parameters,
    which the first version insists on. *)
Theorem both_versions_make_the_same_hid_calls (data : list Z) (len : Z) (s : State)
    (v : V1.State) (t : Z) :
  1 <= len <= 31 -> (Z.to_nat len <= length data)%nat ->
  g_interrupt_flag s = false ->
  byte_at data 0 <> CMD_MOUSE_PRESS_TIMED ->
  byte_at data 0 <> CMD_KB_PRESS_TIMED ->
  (byte_at data 0 = CMD_KB_RELEASE_ALL -> len = 1) ->
  let pkt := mkPacket (byte_at data 0) (take (Z.to_nat (len - 1)) (drop 1 data))
                      (len - 1) t in
  exists calls,
    hids (out (executeCommand [] pkt s)) = hids (out s) ++ calls
    /\ hids (V1.out (V1.processPacket data len v)) = hids (V1.out v) ++ calls.
Proof.
  intros Hlen Hdata Hf Ht1 Ht2 Hra pkt. subst pkt.
  assert (Hu : u8 (len - 1) = len - 1) by (unfold u8; apply Z.mod_small; lia).
  unfold executeCommand. rewrite Hf. unfold dispatch, V1.processPacket.
  cbn [cmd params param_len]. destruct (Z.ltb_spec len 1) as [Hx|_]; [lia|].
  cbv zeta. rewrite Hu.
  destruct (Z.eqb_spec (byte_at data 0) CMD_KB_PRINT) as [Ep|Hnp].
  - (* KB_PRINT *)
    rewrite Ep. eval_cmd.
    set (p := take (Z.to_nat (len - 1)) (drop 1 data)).
    assert (Hp : length p = Z.to_nat (len - 1)).
    { subst p. rewrite length_take, length_drop. lia. }
    exists (map KbWrite p). split.
    + rewrite <- Hp, hids_kb_print_quiet
        by (rewrite lift_flag; autorewrite with coredb; exact Hf).
      f_equal. h_frame.
    + pose proof (v1_hids_kb_print_loop (Z.to_nat (len - 1)) (drop 1 data) 0
                    (V1.logKeyboardPrint (drop 1 data) (len - 1)
                       (V1.logCommand "KB_PRINT" None (V1.logPacketData data len v)))
                    ltac:(rewrite length_drop; lia)) as Hk.
      change (Z.of_nat 0) with 0 in Hk. rewrite drop_0 in Hk. fold p in Hk.
      rewrite v1_hids_sendAck, Hk. f_equal. now v1_simp.
  - repeat (match goal with
            | |- context [byte_at data 0 =? ?c] =>
                destruct (Z.eqb_spec (byte_at data 0) c); cbn [orb negb]
            | |- context [len - 1 =? ?k] =>
                destruct (Z.eqb_spec (len - 1) k); cbn [orb negb]
            end);
      try cmd_absurd; try lia; try contradiction;
      first [ exists []; rewrite !app_nil_r; split; [h_frame|v1_simp; reflexivity]
            | eexists; split; [h_frame|];
              v1_simp; rewrite ?byte_at_take by lia; reflexivity ].
Qed.

Lemma both_versions_make_the_same_hid_calls_witness :
  exists calls,
    hids (out (executeCommand [] (mkPacket CMD_MOUSE_MOVE [5; 251; 0] 3 0) init_state))
    = [] ++ calls
    /\ hids (V1.out (V1.processPacket [CMD_MOUSE_MOVE; 5; 251; 0] 4 V1.init_state))
       = [] ++ calls.
Proof.
  assert (Hlen : 1 <= 4 <= 31) by lia.
  assert (Hd : (Z.to_nat 4 <= length [CMD_MOUSE_MOVE; 5%Z; 251%Z; 0%Z])%nat)
    by (change (4 <= 4)%nat; lia).
  assert (H1 : byte_at [CMD_MOUSE_MOVE; 5; 251; 0] 0 <> CMD_MOUSE_PRESS_TIMED)
    by discriminate.
  assert (H2 : byte_at [CMD_MOUSE_MOVE; 5; 251; 0] 0 <> CMD_KB_PRESS_TIMED)
    by discriminate.
  assert (H3 : byte_at [CMD_MOUSE_MOVE; 5; 251; 0] 0 = CMD_KB_RELEASE_ALL -> 4 = 1)
    by discriminate.
  exact (both_versions_make_the_same_hid_calls [CMD_MOUSE_MOVE; 5; 251; 0] 4
           init_state V1.init_state 0 Hlen Hd eq_refl H1 H2 H3).
Defined.







(** ** The queue is executed in order *)

Lemma f_with_flag v s : c_flag (core (with_flag v s)) = v.
Proof. reflexivity. Qed.
Lemma f_with_log_enabled v s : c_flag (core (with_log_enabled v s)) = c_flag (core s).
Proof. reflexivity. Qed.
Lemma f_with_last_button_press v s : c_flag (core (with_last_button_press v s)) = c_flag (core s).
Proof. reflexivity. Qed.
Lemma f_with_queue v s : c_flag (core (with_queue v s)) = c_flag (core s).
Proof. reflexivity. Qed.
Lemma f_with_rx_buffer v s : c_flag (core (with_rx_buffer v s)) = c_flag (core s).
Proof. reflexivity. Qed.
Lemma f_with_rx_state v s : c_flag (core (with_rx_state v s)) = c_flag (core s).
Proof. reflexivity. Qed.
Lemma f_with_rx_len v s : c_flag (core (with_rx_len v s)) = c_flag (core s).
Proof. reflexivity. Qed.
Lemma f_with_rx_idx v s : c_flag (core (with_rx_idx v s)) = c_flag (core s).
Proof. reflexivity. Qed.
Lemma f_with_timed v s : c_flag (core (with_timed v s)) = c_flag (core s).
Proof. reflexivity. Qed.
Lemma f_with_last_stats_time v s : c_flag (core (with_last_stats_time v s)) = c_flag (core s).
Proof. reflexivity. Qed.
Lemma f_with_millis v s : c_flag (core (with_millis v s)) = c_flag (core s).
Proof. reflexivity. Qed.
Lemma f_emit e s : c_flag (core (emit e s)) = c_flag (core s).
Proof. reflexivity. Qed.
Lemma f_hid c s : c_flag (core (hid c s)) = c_flag (core s).
Proof. reflexivity. Qed.

Create Rewrite HintDb fdb.
#[local] Hint Rewrite f_with_flag f_with_log_enabled f_with_last_button_press f_with_queue f_with_rx_buffer f_with_rx_state f_with_rx_len f_with_rx_idx f_with_timed f_with_last_stats_time f_with_millis f_emit f_hid : fdb.

Ltac f_frame := rewrite ?lift_flag; autorewrite with coredb fdb; try reflexivity.


(** A command of the data plane that starts no timed action, run with
    no interrupt pending: its HID calls, and nothing else on the protocol
    side. *)
Lemma executeCommand_plain pkt s :
  g_interrupt_flag s = false -> data_plane pkt -> untimed pkt -> packet_ok pkt ->
  let s' := executeCommand [] pkt s in
  hids (out s') = hids (out s) ++ hid_calls pkt
  /\ g_interrupt_flag s' = false
  /\ timedAction s' = timedAction s
  /\ cmdQueue s' = cmdQueue s.
Proof.
  intros Hf (D1 & D2 & D3) (U1 & U2) (Hlen & Hn) s'. subst s'.
  unfold executeCommand. rewrite Hf. unfold dispatch, hid_calls. cbv zeta.
  destruct (Z.eqb_spec (cmd pkt) CMD_KB_PRINT) as [Ep|Hnp].
  - rewrite Ep. eval_cmd.
    replace (Z.to_nat (param_len pkt)) with (length (params pkt)) by lia.
    set (s0 := logKeyboardPrint _ _ _).
    assert (Hc0 : core s0 = core s) by (subst s0; now autorewrite with coredb).
    assert (Hf0 : g_interrupt_flag s0 = false) by (rewrite lift_flag, Hc0; exact Hf).
    split; [|split; [|split]].
    + rewrite hids_kb_print_quiet by exact Hf0. f_equal.
      now rewrite lift_hids, Hc0.
    + pose proof (kb_print_loop_spec (length (params pkt)) [] (params pkt) 0 s0
                    ltac:(lia)) as (_ & Hfl).
      change (Z.of_nat 0) with 0 in Hfl.
      destruct (g_interrupt_flag (kb_print_loop (length (params pkt)) [] (params pkt) 0 s0))
        eqn:E; [|reflexivity].
      exfalso. clear Hfl.
      assert (Hq : forall n i x, g_interrupt_flag x = false ->
                g_interrupt_flag (kb_print_loop n [] (params pkt) i x) = false).
      { clear. induction n as [|n IH]; intros i x Hx; [exact Hx|].
        cbn [kb_print_loop hd tl asyncs fold_left]. rewrite Hx. now apply IH. }
      rewrite Hq in E by exact Hf0. discriminate.
    + rewrite timed_kb_print_loop. now rewrite lift_timed, Hc0.
    + rewrite queue_kb_print_loop. now rewrite lift_queue, Hc0.
  - repeat (match goal with
            | |- context [cmd pkt =? ?c] =>
                destruct (Z.eqb_spec (cmd pkt) c); cbn [orb negb]
            | |- context [param_len pkt =? ?k] =>
                destruct (Z.eqb_spec (param_len pkt) k); cbn [orb negb]
            end);
      try cmd_absurd; try contradiction;
      (split; [rewrite ?app_nil_r; h_frame
              |split; [f_frame; exact Hf
                      |split; [t_frame|q_frame]]]).
Qed.

Lemma report_stats_frame s :
  hids (out (report_stats s)) = hids (out s)
  /\ acks (out (report_stats s)) = acks (out s)
  /\ g_interrupt_flag (report_stats s) = g_interrupt_flag s
  /\ timedAction (report_stats s) = timedAction s
  /\ cmdQueue (report_stats s) = cmdQueue s.
Proof.
  unfold report_stats. case_match; [|auto 10].
  split; [h_frame|]. split; [a_frame|]. split; [f_frame|]. split; [t_frame|q_frame].
Qed.

(** One idle iteration with a plain command at the front of the queue. *)
Lemma loop_idle_step s p rest :
  queue_ok (cmdQueue s) -> g_interrupt_flag s = false ->
  active (timedAction s) = false ->
  contents (cmdQueue s) = p :: rest ->
  data_plane p -> untimed p -> packet_ok p ->
  let s1 := loop idle s in
  hids (out s1) = hids (out s) ++ hid_calls p
  /\ acks (out s1) = acks (out s)
  /\ contents (cmdQueue s1) = rest
  /\ queue_ok (cmdQueue s1)
  /\ g_interrupt_flag s1 = false
  /\ active (timedAction s1) = false.
Proof.
  intros Hok Hf Ha Hc Hd Hu Hp s1. subst s1.
  unfold loop, idle. cbn [at_top at_timed at_rx at_exec in_exec at_stats asyncs
                          fold_left receive].
  assert (E1 : service_interrupt s = s) by (unfold service_interrupt; now rewrite Hf).
  assert (E2 : poll_timed s = s) by (unfold poll_timed; cbv zeta; now rewrite Ha).
  rewrite E1, E2.
  assert (Hcount : count (cmdQueue s) <> 0).
  { intros E. pose proof (contents_length (cmdQueue s)) as Hl.
    rewrite Hc, E in Hl. discriminate Hl. }
  destruct (pop_ok (cmdQueue s) Hok Hcount) as (p' & q' & Hpop & Hcont & _ & Hok').
  rewrite Hc in Hcont. injection Hcont as <- Hrest.
  assert (E3 : run_queue [] s = executeCommand [] p (with_queue q' s)).
  { unfold run_queue, isEmpty. rewrite Ha.
    destruct (Z.eqb_spec (count (cmdQueue s)) 0); [contradiction|].
    cbn [negb andb]. now rewrite Hpop. }
  rewrite E3.
  destruct (executeCommand_plain p (with_queue q' s) Hf Hd Hu Hp) as (Hh & Hf' & Ht' & Hq').
  destruct (report_stats_frame (executeCommand [] p (with_queue q' s)))
    as (Rh & Ra & Rf & Rt & Rq).
  rewrite Rh, Ra, Rf, Rt, Rq, Hh, Hf', Ht', Hq', acks_executeCommand.
  cbn [cmdQueue out timedAction with_queue]. auto 10.
Qed.

Lemma run_idle_prefix k : forall s pkts,
  queue_ok (cmdQueue s) -> g_interrupt_flag s = false ->
  active (timedAction s) = false ->
  contents (cmdQueue s) = pkts ->
  Forall data_plane pkts -> Forall untimed pkts -> Forall packet_ok pkts ->
  (k <= length pkts)%nat ->
  let s' := run (replicate k idle) s in
  hids (out s') = hids (out s) ++ concat (map hid_calls (take k pkts))
  /\ acks (out s') = acks (out s)
  /\ contents (cmdQueue s') = drop k pkts.
Proof.
  induction k as [|k IH]; intros s pkts Hok Hf Ha Hc Hd Hu Hp Hk s'; subst s'.
  - cbn. rewrite app_nil_r. auto.
  - destruct pkts as [|p rest]; [cbn in Hk; lia|].
    cbn [replicate run fold_left].
    change (fold_left _ (replicate k idle) (loop idle s))
      with (run (replicate k idle) (loop idle s)).
    inversion Hd as [|? ? Hd1 Hd2]; inversion Hu as [|? ? Hu1 Hu2];
      inversion Hp as [|? ? Hp1 Hp2]; subst.
    destruct (loop_idle_step s p rest Hok Hf Ha Hc Hd1 Hu1 Hp1)
      as (Sh & Sa & Sc & Sok & Sf & Sact).
    destruct (IH (loop idle s) rest Sok Sf Sact Sc Hd2 Hu2 Hp2 ltac:(cbn in Hk; lia))
      as (Ih & Ia & Ic).
    rewrite Ih, Ia, Ic, Sh, Sa. cbn [take map concat drop].
    rewrite <- app_assoc. auto.
Qed.

(** X27: the queue is executed in order, one command per iteration.
    With no interrupt pending, no timed action active and only commands
    that start no timed action in the queue, [k] iterations in which
    nothing arrives make the HID calls of the first [k] queued commands,
    in the order in which the commands were queued, send no ACK and leave
    the remaining commands in the queue. *)
Theorem queue_is_executed_in_order (s : State) (k : nat) :
  queue_ok (cmdQueue s) -> g_interrupt_flag s = false ->
  active (timedAction s) = false ->
  Forall data_plane (contents (cmdQueue s)) ->
  Forall untimed (contents (cmdQueue s)) ->
  Forall packet_ok (contents (cmdQueue s)) ->
  (k <= length (contents (cmdQueue s)))%nat ->
  let s' := run (replicate k idle) s in
  hids (out s') = hids (out s) ++ concat (map hid_calls (take k (contents (cmdQueue s))))
  /\ acks (out s') = acks (out s)
  /\ contents (cmdQueue s') = drop k (contents (cmdQueue s)).
Proof.
  intros Hok Hf Ha Hd Hu Hp Hk. now apply run_idle_prefix.
Qed.

Lemma queue_is_executed_in_order_witness :
  let s := receive (quiet (frame [CMD_KB_WRITE; 65] ++ frame [CMD_MOUSE_CLICK; 1]
                           ++ frame [CMD_KB_WRITE; 66])) init_state in
  hids (out (run (replicate 2 idle) s))
  = hids (out s) ++ concat (map hid_calls (take 2 (contents (cmdQueue s))))
  /\ contents (cmdQueue (run (replicate 2 idle) s)) = drop 2 (contents (cmdQueue s)).
Proof.
  intros s.
  assert (Hok : queue_ok (cmdQueue s)) by (vm_compute; repeat split; congruence).
  assert (Hf : g_interrupt_flag s = false) by (vm_compute; reflexivity).
  assert (Ha : active (timedAction s) = false) by (vm_compute; reflexivity).
  assert (Hc : contents (cmdQueue s)
               = [mkPacket CMD_KB_WRITE [65] 1 0; mkPacket CMD_MOUSE_CLICK [1] 1 0;
                  mkPacket CMD_KB_WRITE [66] 1 0]) by (vm_compute; reflexivity).
  assert (Hd : Forall data_plane (contents (cmdQueue s))).
  { rewrite Hc. repeat constructor; discriminate. }
  assert (Hu : Forall untimed (contents (cmdQueue s))).
  { rewrite Hc. repeat constructor; discriminate. }
  assert (Hp : Forall packet_ok (contents (cmdQueue s))).
  { rewrite Hc. repeat constructor; cbn; lia. }
  assert (Hk : (2 <= length (contents (cmdQueue s)))%nat).
  { rewrite Hc. cbn. lia. }
  pose proof (queue_is_executed_in_order s 2 Hok Hf Ha Hd Hu Hp Hk) as (Hh & _ & Hq).
  split; [exact Hh | exact Hq].
Defined.
